(** * mod_turbotab: the Erlang calculation engine, embedded in Rocq

    The Python package computes blocking and queueing probabilities
    (Erlang B, extended Erlang B, Engset B, Erlang C), and searches for
    agent counts, traffic intensities and trunk counts on top of them.

    Number model.  The code is embedded twice.

    In the modules [Utils] to [Trunks] a Python [float] is a real number
    of [R]: the arithmetic is exact, [math.exp] is the real exponential,
    and rounding, overflow, infinities and NaN are outside the model.
    The properties proved there are those of the formulas the code
    evaluates; where one of them speaks of a count or of a branch, it is
    stated on the values the code itself computes on the way (the count
    its utilisation loop ends on, the answers of [erlang_c],
    [sla_metric] and [int_ceiling]), so that it does not depend on how a
    quotient rounds.

    In the module [Binary64] a Python [float] is a binary64 number of
    [PrimFloat]: every operation rounds to nearest-even as the hardware
    does, [int(x)] raises on an infinity or a NaN, and [min] and [max]
    are Python's, which let a NaN through.  It holds the functions
    without [math.exp] whose behaviour at a boundary is decided by
    rounding, overflow or NaN.

    A Python [int] is an integer of [Z].
    What is kept from Python's run-time behaviour is what the control
    flow depends on:
    - [/] raises [ZeroDivisionError] on a zero divisor ([fdiv]);
    - reading a local variable that was never assigned raises
      [UnboundLocalError];
    - [except Exception as e: raise CalculationError(...) from e] turns
      every exception of the guarded block into a [CalculationError]
      that remembers its cause ([try_calc]);
    - a [while] loop without a static bound takes a [fuel] argument and
      answers [OutOfFuel] when the fuel does not suffice. *)

From Stdlib Require Import Reals Lra Lia ZArith Bool List Floats.

Set Warnings "-inexact-float".

Open Scope R_scope.

(** ** Exceptions and results *)

#[warnings="-register-all"]
Inductive exn : Type :=
| InputValidationError
| CalculationError (cause : option exn)
| UnboundLocalError
| ZeroDivisionError
| OverflowError
| ValueError.

Inductive result (A : Type) : Type :=
| Ok (a : A)
| Raise (e : exn)
| OutOfFuel.

Arguments Ok {A} a.
Arguments Raise {A} e.
Arguments OutOfFuel {A}.

Definition bind {A B : Type} (c : result A) (k : A -> result B) : result B :=
  match c with
  | Ok a => k a
  | Raise e => Raise e
  | OutOfFuel => OutOfFuel
  end.

Notation "x <- c ;; k" := (bind c (fun x => k))
  (at level 61, c at next level, right associativity).
Notation "' p <- c ;; k" := (bind c (fun x => let 'p := x in k))
  (at level 61, p pattern, c at next level, right associativity).

(** [try: ... except Exception as e: raise CalculationError(msg) from e] *)
Definition try_calc {A : Type} (c : result A) : result A :=
  match c with
  | Raise e => Raise (CalculationError (Some e))
  | r => r
  end.

(** The exception is a [CalculationError], whatever its cause. *)
Definition is_calculation_error (e : exn) : bool :=
  match e with
  | CalculationError _ => true
  | _ => false
  end.

(** A [ZeroDivisionError] occurs somewhere in the chain of causes. *)
Fixpoint caused_by_zero_division (e : exn) : bool :=
  match e with
  | ZeroDivisionError => true
  | CalculationError (Some e') => caused_by_zero_division e'
  | _ => false
  end.

(** ** Python's comparisons and arithmetic on numbers *)

Definition Rltb (x y : R) : bool := if Rlt_dec x y then true else false.
Definition Rleb (x y : R) : bool := if Rle_dec x y then true else false.
Definition Reqb (x y : R) : bool := if Req_dec_T x y then true else false.

Notation "x <? y" := (Rltb x y) : R_scope.
Notation "x <=? y" := (Rleb x y) : R_scope.
Notation "x >? y" := (Rltb y x) : R_scope.
Notation "x >=? y" := (Rleb y x) : R_scope.
Notation "x =? y" := (Reqb x y) : R_scope.

(** [x / y] *)
Definition fdiv (x y : R) : result R :=
  if y =? 0 then Raise ZeroDivisionError else Ok (x / y).

(** [int(x)]: truncation towards zero. *)
Definition py_int (x : R) : Z :=
  if x <? 0 then (- Int_part (- x))%Z else Int_part x.

(** [min(a, b)] and [max(a, b)] keep their first argument unless the
    second one is strictly better. *)
Definition py_min (a b : R) : R := if b <? a then b else a.
Definition py_max (a b : R) : R := if b >? a then b else a.

(** ** utils.py *)

Module Utils.

Definition min_max (val min_val max_val : R) : R :=
  py_max (py_min val max_val) min_val.

Definition int_ceiling (val : R) : Z :=
  if val <? 0 then py_int (val - 9999 / 10000) else py_int (val + 9999 / 10000).

(** [secs(amount, interval=600.0)]; every caller relies on the default. *)
Definition secs (amount : R) (interval : R) : Z :=
  py_int (amount * interval + 5 / 10).

Definition default_interval : R := 600.

End Utils.

(** ** calculations/erlang.py *)

Module Erlang.
Import Utils.

(** [for count in range(1, max_iterate + 1): b = step count last; last = b]
    run for [n] more rounds from [count].  [b] is [None] as long as the
    loop body has not run: the local variable is still unbound. *)
Fixpoint iterate_b (step : Z -> R -> result R) (n : nat) (count : Z)
    (b : option R) (last : R) : result (option R) :=
  match n with
  | O => Ok b
  | S n' =>
      b' <- step count last ;;
      iterate_b step n' (count + 1)%Z (Some b') b'
  end.

(** Reading the local [b] after the loop. *)
Definition read_local (b : option R) : result R :=
  match b with
  | Some v => Ok v
  | None => Raise UnboundLocalError
  end.

Definition erlang_b_step (intensity : R) (count : Z) (last : R) : result R :=
  fdiv (intensity * last) (IZR count + intensity * last).

Definition erlang_b (servers intensity : R) : result R :=
  if (servers <? 0) || (intensity <? 0) then Ok 0
  else
    let max_iterate := py_int servers in
    let last := 1 in
    ob <- iterate_b (erlang_b_step intensity) (Z.to_nat max_iterate) 1 None last ;;
    b <- read_local ob ;;
    Ok (min_max b 0 1).

Definition erlang_b_ext_step (intensity retries : R) (count : Z) (last : R)
    : result R :=
  b <- fdiv (intensity * last) (IZR count + intensity * last) ;;
  attempts <- fdiv 1 (1 - b * retries) ;;
  fdiv (intensity * last * attempts) (IZR count + intensity * last * attempts).

Definition erlang_b_ext (servers intensity retry : R) : result R :=
  if (servers <? 0) || (intensity <? 0) then Ok 0
  else
    let max_iterate := py_int servers in
    let retries := min_max retry 0 1 in
    let last := 1 in
    ob <- iterate_b (erlang_b_ext_step intensity retries)
            (Z.to_nat max_iterate) 1 None last ;;
    b <- read_local ob ;;
    Ok (min_max b 0 1).

Definition engset_b_step (ev val : R) (count : Z) (last : R) : result R :=
  q <- fdiv (IZR count) ((ev - IZR count) * val) ;;
  Ok (last * q + 1).

Definition engset_b (servers events intensity : R) : result R :=
  if (servers <? 0) || (intensity <? 0) then Ok 0
  else
    let max_iterate := py_int servers in
    let val := intensity in
    let ev := events in
    let last := 1 in
    ob <- iterate_b (engset_b_step ev val) (Z.to_nat max_iterate) 1 None last ;;
    b <- read_local ob ;;
    if b =? 0 then Ok 0
    else
      inv <- fdiv 1 b ;;
      Ok (min_max inv 0 1).

Definition erlang_c (servers intensity : R) : result R :=
  if (servers <? 0) || (intensity <? 0) then Ok 0
  else
    b <- erlang_b servers intensity ;;
    rho <- fdiv intensity servers ;;
    rho' <- fdiv intensity servers ;;
    c <- fdiv b (rho * b + (1 - rho')) ;;
    Ok (min_max c 0 1).

End Erlang.

(** ** calculations/traffic.py *)

Module Traffic.
Import Utils Erlang.

Definition MAX_ACCURACY : R := 1 / 100000.
Definition MAX_LOOPS : nat := 100.

(** [while increment >= MAX_ACCURACY and loop_no < MAX_LOOPS]: the
    counter [loop_no] only bounds the loop, so the model counts the
    [remaining = MAX_LOOPS - loop_no] rounds down.  [max_intensity] is
    carried along because the source assigns to it. *)
Fixpoint looping_traffic_loop (remaining : nat) (trunks blocking : R)
    (increment max_intensity min_i intensity : R) : result R :=
  match remaining with
  | O => Ok min_i
  | S remaining' =>
      if increment >=? MAX_ACCURACY then
        b <- erlang_b trunks intensity ;;
        let '(max_intensity, increment, intensity) :=
          if b >? blocking
          then (intensity, increment / 10, min_i)
          else (max_intensity, increment, intensity) in
        let min_i := intensity in
        let intensity := intensity + increment in
        looping_traffic_loop remaining' trunks blocking
          increment max_intensity min_i intensity
      else Ok min_i
  end.

Definition looping_traffic (trunks blocking increment max_intensity
    min_intensity : R) : result R :=
  let min_i := min_intensity in
  let intensity := min_i in
  looping_traffic_loop MAX_LOOPS trunks blocking increment max_intensity
    min_i intensity.

(** [while b < blocking: max_i *= 2; b = erlang_b(servers, max_i)] *)
Fixpoint traffic_double (fuel : nat) (servers blocking max_i b : R)
    : result R :=
  if b <? blocking then
    match fuel with
    | O => OutOfFuel
    | S fuel' =>
        let max_i := max_i * 2 in
        b <- erlang_b servers max_i ;;
        traffic_double fuel' servers blocking max_i b
    end
  else Ok max_i.

(** [while incr <= max_i / 100: incr *= 10] *)
Fixpoint traffic_incr (fuel : nat) (max_i incr : R) : result R :=
  if incr <=? max_i / 100 then
    match fuel with
    | O => OutOfFuel
    | S fuel' => traffic_incr fuel' max_i (incr * 10)
    end
  else Ok incr.

(** The lines of [traffic] between its guard and its last call: the
    upper bound [max_i] and the first step [incr]. *)
Definition traffic_bounds (fuel : nat) (servers blocking : R)
    : result (R * R) :=
  let trunks_val := IZR (py_int servers) in
  let max_i := trunks_val in
  b <- erlang_b servers max_i ;;
  max_i <- traffic_double fuel servers blocking max_i b ;;
  let incr := 1 in
  incr <- traffic_incr fuel max_i incr ;;
  Ok (max_i, incr).

Definition traffic (fuel : nat) (servers blocking : R) : result R :=
  let trunks_val := IZR (py_int servers) in
  if (servers <? 1) || (blocking <? 0) then Ok 0
  else
    '(max_i, incr) <- traffic_bounds fuel servers blocking ;;
    looping_traffic trunks_val blocking incr max_i 0.

End Traffic.

(** ** agents/capacity.py

    [INTERVAL] and [MAX_ACCURACY] are imported from [mod_turbotab.config],
    which is not among the sources: they are parameters of the model. *)

Module Capacity.
Import Utils Erlang.

Section WithConfig.

Variables INTERVAL MAX_ACCURACY : R.

(** [while utilisation >= 1: no_agents += 1; utilisation = traffic_rate / no_agents] *)
Fixpoint raise_agents (fuel : nat) (traffic_rate : R) (no_agents : Z)
    (utilisation : R) : result (Z * R) :=
  if utilisation >=? 1 then
    match fuel with
    | O => OutOfFuel
    | S fuel' =>
        let no_agents := (no_agents + 1)%Z in
        utilisation <- fdiv traffic_rate (IZR no_agents) ;;
        raise_agents fuel' traffic_rate no_agents utilisation
    end
  else Ok (no_agents, utilisation).

(** The opening lines shared, word for word, by [agents_required],
    [agents_asa] and [fractional_agents]: from [birth_rate] to the end of
    the [while] loop.  Returns [(death_rate, traffic_rate, no_agents,
    utilisation)]. *)
Definition first_agents (fuel : nat) (calls_per_hour : R) (aht : Z)
    : result (R * R * Z * R) :=
  let birth_rate := calls_per_hour in
  death_rate <- fdiv INTERVAL (IZR aht) ;;
  traffic_rate <- fdiv birth_rate death_rate ;;
  e <- fdiv (birth_rate * IZR aht) INTERVAL ;;
  let erlangs := py_int (e + 5 / 10) in
  let no_agents := if (erlangs <? 1)%Z then 1%Z else erlangs in
  utilisation <- fdiv traffic_rate (IZR no_agents) ;;
  '(no_agents, utilisation) <-
     raise_agents fuel traffic_rate no_agents utilisation ;;
  Ok (death_rate, traffic_rate, no_agents, utilisation).

(** [for _ in range(max_iterate)] of [agents_required], [n] rounds left. *)
Fixpoint required_ladder (n : nat) (sla : R) (service_time aht : Z)
    (traffic_rate : R) (no_agents : Z) : result Z :=
  match n with
  | O => Ok no_agents
  | S n' =>
      utilisation <- fdiv traffic_rate (IZR no_agents) ;;
      if utilisation <? 1 then
        c <- erlang_c (IZR no_agents) traffic_rate ;;
        x <- fdiv ((traffic_rate - IZR no_agents) * IZR service_time) (IZR aht) ;;
        let sl_queued := 1 - c * exp x in
        let sl_queued := if sl_queued <? 0 then 0 else sl_queued in
        if (sl_queued >=? sla) || (sl_queued >? 1 - MAX_ACCURACY)
        then Ok no_agents
        else required_ladder n' sla service_time aht traffic_rate (no_agents + 1)%Z
      else required_ladder n' sla service_time aht traffic_rate (no_agents + 1)%Z
  end.

Definition agents_required (fuel : nat) (sla : R) (service_time : Z)
    (calls_per_hour : R) (aht : Z) : result Z :=
  if (sla <? 0) || (calls_per_hour <? 0) || (aht <=? 0)%Z
  then Raise InputValidationError
  else try_calc (
    let sla := py_min sla 1 in
    '(_, traffic_rate, no_agents, _) <- first_agents fuel calls_per_hour aht ;;
    let max_iterate := (no_agents * 100)%Z in
    required_ladder (Z.to_nat max_iterate) sla service_time aht traffic_rate
      no_agents).

Definition asa (agents calls_per_hour : R) (aht : Z) : result Z :=
  if (agents <=? 0) || (calls_per_hour <? 0) || (aht <=? 0)%Z
  then Raise InputValidationError
  else try_calc (
    let birth_rate := calls_per_hour in
    death_rate <- fdiv INTERVAL (IZR aht) ;;
    traffic_rate <- fdiv birth_rate death_rate ;;
    utilisation <- fdiv traffic_rate agents ;;
    let utilisation := if utilisation >=? 1 then 99 / 100 else utilisation in
    c <- erlang_c agents traffic_rate ;;
    answer_time <- fdiv c (agents * death_rate * (1 - utilisation)) ;;
    Ok (secs answer_time default_interval)).

(** [for _ in range(max_iterate)] of [agents_asa]; [utilisation] is the
    value left by the [while] loop and is not refreshed. *)
Fixpoint asa_ladder (n : nat) (asa_target death_rate traffic_rate utilisation : R)
    (no_agents : Z) : result Z :=
  match n with
  | O => Ok no_agents
  | S n' =>
      c <- erlang_c (IZR no_agents) traffic_rate ;;
      answer_time <- fdiv c (IZR no_agents * death_rate * (1 - utilisation)) ;;
      if answer_time * INTERVAL <=? asa_target then Ok no_agents
      else asa_ladder n' asa_target death_rate traffic_rate utilisation
             (no_agents + 1)%Z
  end.

Definition agents_asa (fuel : nat) (asa_target calls_per_hour : R) (aht : Z)
    : result Z :=
  if (asa_target <? 0) || (calls_per_hour <? 0) || (aht <=? 0)%Z
  then Raise InputValidationError
  else try_calc (
    '(death_rate, traffic_rate, no_agents, utilisation) <-
       first_agents fuel calls_per_hour aht ;;
    let max_iterate := (no_agents * 100)%Z in
    asa_ladder (Z.to_nat max_iterate) asa_target death_rate traffic_rate
      utilisation no_agents).

(** [for count in range(1, max_iterate + 1)] of [nb_agents], [n] rounds
    left; falling out of the loop reaches the [raise]. *)
Fixpoint nb_agents_loop (n : nat) (count : Z) (calls_ph avg_sa : R) (avg_ht : Z)
    : result Z :=
  match n with
  | O => Raise (CalculationError None)
  | S n' =>
      a <- asa (IZR count) calls_ph avg_ht ;;
      if IZR a <=? avg_sa then Ok count
      else nb_agents_loop n' (count + 1)%Z calls_ph avg_sa avg_ht
  end.

Definition nb_agents (calls_ph avg_sa : R) (avg_ht : Z) : result Z :=
  if (calls_ph <? 0) || (avg_sa <? 0) || (avg_ht <=? 0)%Z
  then Raise InputValidationError
  else try_calc (
    let max_iterate := 65535%Z in
    nb_agents_loop (Z.to_nat (max_iterate + 1 - 1)) 1 calls_ph avg_sa avg_ht).

(** [while x_agent > x_no_agent and calls > 0] of [call_capacity]. *)
Fixpoint capacity_loop (fuel : nat) (sla : R) (service_time aht : Z)
    (x_no_agent calls x_agent : Z) : result Z :=
  if (x_agent >? x_no_agent)%Z && (calls >? 0)%Z then
    match fuel with
    | O => OutOfFuel
    | S fuel' =>
        let calls := (calls - 1)%Z in
        x_agent <- agents_required fuel sla service_time (IZR calls) aht ;;
        capacity_loop fuel' sla service_time aht x_no_agent calls x_agent
    end
  else Ok calls.

Definition call_capacity (fuel : nat) (no_agents sla : R) (service_time aht : Z)
    : result R :=
  if (no_agents <? 0) || (sla <? 0) || (service_time <? 0)%Z || (aht <=? 0)%Z
  then Raise InputValidationError
  else try_calc (
    let x_no_agent := py_int no_agents in
    d <- fdiv INTERVAL (IZR aht) ;;
    let calls := (int_ceiling d * x_no_agent)%Z in
    x_agent <- agents_required fuel sla service_time (IZR calls) aht ;;
    calls <- capacity_loop fuel sla service_time aht x_no_agent calls x_agent ;;
    Ok (IZR calls)).

(** [for _ in range(max_iterate)] of [fractional_agents], [n] rounds left.
    Returns [(no_agents, sl_queued, last_slq)] as they stand after the
    loop. *)
Fixpoint fractional_ladder (n : nat) (sla : R) (service_time aht : Z)
    (traffic_rate : R) (no_agents : Z) (sl_queued last_slq : R)
    : result (Z * R * R) :=
  match n with
  | O => Ok (no_agents, sl_queued, last_slq)
  | S n' =>
      let last_slq := sl_queued in
      utilisation <- fdiv traffic_rate (IZR no_agents) ;;
      if utilisation <? 1 then
        c <- erlang_c (IZR no_agents) traffic_rate ;;
        x <- fdiv ((traffic_rate - IZR no_agents) * IZR service_time) (IZR aht) ;;
        let sl_queued := 1 - c * exp x in
        let sl_queued := if sl_queued <? 0 then 0 else sl_queued in
        let sl_queued := if sl_queued >? 1 then 1 else sl_queued in
        if (sl_queued >=? sla) || (sl_queued >? 1 - MAX_ACCURACY)
        then Ok (no_agents, sl_queued, last_slq)
        else fractional_ladder n' sla service_time aht traffic_rate
               (no_agents + 1)%Z sl_queued last_slq
      else fractional_ladder n' sla service_time aht traffic_rate
             (no_agents + 1)%Z sl_queued last_slq
  end.

(** The lines of [fractional_agents] after the loop. *)
Definition interpolate (sla : R) (no_agents : Z) (sl_queued last_slq : R)
    : result R :=
  let no_agents_sng := IZR no_agents in
  if sl_queued >? sla then
    let one_agent_effect := sl_queued - last_slq in
    let fract := sla - last_slq in
    q <- fdiv fract one_agent_effect ;;
    Ok (q + IZR (no_agents - 1))
  else Ok no_agents_sng.

Definition fractional_agents (fuel : nat) (sla : R) (service_time : Z)
    (calls_per_hour : R) (aht : Z) : result R :=
  if (sla <? 0) || (calls_per_hour <? 0) || (aht <=? 0)%Z || (service_time <? 0)%Z
  then Raise InputValidationError
  else try_calc (
    let sla := py_min sla 1 in
    '(_, traffic_rate, no_agents, _) <- first_agents fuel calls_per_hour aht ;;
    let sl_queued := 0 in
    let max_iterate := (no_agents * 100)%Z in
    let last_slq := 0 in
    '(no_agents, sl_queued, last_slq) <-
       fractional_ladder (Z.to_nat max_iterate) sla service_time aht
         traffic_rate no_agents sl_queued last_slq ;;
    interpolate sla no_agents sl_queued last_slq).

(** [while x_agent > x_no_agent and calls > 0] of
    [fractional_call_capacity]. *)
Fixpoint fractional_capacity_loop (fuel : nat) (sla : R) (service_time aht : Z)
    (x_no_agent : R) (calls : Z) (x_agent : R) : result Z :=
  if (x_agent >? x_no_agent) && (calls >? 0)%Z then
    match fuel with
    | O => OutOfFuel
    | S fuel' =>
        let calls := (calls - 1)%Z in
        x_agent <- fractional_agents fuel sla service_time (IZR calls) aht ;;
        fractional_capacity_loop fuel' sla service_time aht x_no_agent calls
          x_agent
    end
  else Ok calls.

Definition fractional_call_capacity (fuel : nat) (no_agents sla : R)
    (service_time aht : Z) : result R :=
  if (no_agents <? 0) || (sla <? 0) || (service_time <? 0)%Z || (aht <=? 0)%Z
  then Raise InputValidationError
  else try_calc (
    let x_no_agent := no_agents in
    d <- fdiv INTERVAL (IZR aht) ;;
    let calls := int_ceiling (d * x_no_agent) in
    x_agent <- fractional_agents fuel sla service_time (IZR calls) aht ;;
    calls <- fractional_capacity_loop fuel sla service_time aht x_no_agent
               calls x_agent ;;
    Ok (IZR calls)).

End WithConfig.

End Capacity.

(** ** queues/queues.py *)

Module Queues.
Import Utils Erlang.

Section WithConfig.

Variable INTERVAL : R.

Definition queued (agents calls_per_hour : R) (aht : Z) : result R :=
  if (agents <? 0) || (calls_per_hour <? 0) || (aht <=? 0)%Z
  then Raise InputValidationError
  else try_calc (
    let birth_rate := calls_per_hour in
    death_rate <- fdiv INTERVAL (IZR aht) ;;
    traffic_rate <- fdiv birth_rate death_rate ;;
    q <- erlang_c agents traffic_rate ;;
    Ok (min_max q 0 1)).

Definition queue_size (agents calls_per_hour : R) (aht : Z) : result Z :=
  if (agents <? 0) || (calls_per_hour <? 0) || (aht <=? 0)%Z
  then Raise InputValidationError
  else try_calc (
    let birth_rate := calls_per_hour in
    death_rate <- fdiv INTERVAL (IZR aht) ;;
    traffic_rate <- fdiv birth_rate death_rate ;;
    utilisation <- fdiv traffic_rate agents ;;
    let utilisation := if utilisation >=? 1 then 99 / 100 else utilisation in
    c <- erlang_c agents traffic_rate ;;
    qsize <- fdiv (utilisation * c) (1 - utilisation) ;;
    Ok (py_int (qsize + 5 / 10))).

Definition queue_time (agents calls_per_hour : R) (aht : Z) : result Z :=
  if (agents <? 0) || (calls_per_hour <? 0) || (aht <=? 0)%Z
  then Raise InputValidationError
  else try_calc (
    let birth_rate := calls_per_hour in
    death_rate <- fdiv INTERVAL (IZR aht) ;;
    traffic_rate <- fdiv birth_rate death_rate ;;
    utilisation <- fdiv traffic_rate agents ;;
    let utilisation := if utilisation >=? 1 then 99 / 100 else utilisation in
    qtime <- fdiv 1 (agents * death_rate * (1 - utilisation)) ;;
    Ok (secs qtime default_interval)).

Definition service_time (agents sla calls_per_hour : R) (aht : Z) : result Z :=
  if (agents <? 0) || (sla <? 0) || (calls_per_hour <? 0) || (aht <=? 0)%Z
  then Raise InputValidationError
  else try_calc (
    let adjust := 0 in
    let birth_rate := calls_per_hour in
    death_rate <- fdiv INTERVAL (IZR aht) ;;
    traffic_rate <- fdiv birth_rate death_rate ;;
    c <- erlang_c agents traffic_rate ;;
    if c <? 1 - sla then Raise (CalculationError None)
    else
      utilisation <- fdiv traffic_rate agents ;;
      let utilisation := if utilisation >=? 1 then 99 / 100 else utilisation in
      q <- fdiv 1 (agents * death_rate * (1 - utilisation)) ;;
      let qtime := q * INTERVAL in
      w <- fdiv (1 - sla) c ;;
      let stime := qtime * (1 - w) in
      let adjust := if stime <? 0 then 1 else adjust in
      Ok (py_int (stime + adjust))).

Definition sla_metric (agents service_time_val calls_per_hour : R) (aht : Z)
    : result R :=
  if (agents <? 0) || (calls_per_hour <? 0) || (aht <=? 0)%Z
     || (service_time_val <? 0)
  then Raise InputValidationError
  else try_calc (
    let birth_rate := calls_per_hour in
    death_rate <- fdiv INTERVAL (IZR aht) ;;
    traffic_rate <- fdiv birth_rate death_rate ;;
    utilisation <- fdiv traffic_rate agents ;;
    let utilisation := if utilisation >=? 1 then 99 / 100 else utilisation in
    c <- erlang_c agents traffic_rate ;;
    x <- fdiv ((traffic_rate - agents) * service_time_val) (IZR aht) ;;
    let sl_queued := 1 - c * exp x in
    Ok (min_max sl_queued 0 1)).

End WithConfig.

End Queues.

(** ** trunks/trunks.py *)

Module Trunks.
Import Utils Erlang.

(** [for count in range(start, max_iterate + 1)] of [number_trunks], [n]
    rounds left; falling out of the loop reaches the [raise]. *)
Fixpoint number_trunks_loop (n : nat) (count : Z) (intensity : R) : result Z :=
  match n with
  | O => Raise (CalculationError None)
  | S n' =>
      b <- erlang_b (IZR count) intensity ;;
      if b <? 1 / 1000 then Ok count
      else number_trunks_loop n' (count + 1)%Z intensity
  end.

Definition number_trunks (servers intensity : R) : result Z :=
  if (servers <? 0) || (intensity <? 0) then Raise InputValidationError
  else
    let max_iterate := 65535%Z in
    try_calc (
      let start := int_ceiling servers in
      number_trunks_loop (Z.to_nat (max_iterate + 1 - start)) start intensity).

Section WithConfig.

Variable INTERVAL : R.

Definition trunks_required (agents calls_per_hour : R) (aht : Z) : result Z :=
  if (agents <? 0) || (calls_per_hour <? 0) || (aht <=? 0)%Z
  then Raise InputValidationError
  else try_calc (
    let birth_rate := calls_per_hour in
    death_rate <- fdiv INTERVAL (IZR aht) ;;
    traffic_rate <- fdiv birth_rate death_rate ;;
    utilisation <- fdiv traffic_rate agents ;;
    let utilisation := if utilisation >=? 1 then 99 / 100 else utilisation in
    c <- erlang_c agents traffic_rate ;;
    answer_time <- fdiv c (agents * death_rate * (1 - utilisation)) ;;
    d <- fdiv INTERVAL (IZR (aht + secs answer_time default_interval)) ;;
    r <- fdiv birth_rate d ;;
    no_trunks <- number_trunks agents r ;;
    let no_trunks :=
      if (no_trunks <? 1)%Z && (traffic_rate >? 0) then 1%Z else no_trunks in
    Ok no_trunks).

End WithConfig.

End Trunks.

(** ** Counting the rounds of the capped loops

    The capped loops once more, each returning beside its result the
    number of times its body was entered. *)

Module Rounds.
Import Utils Erlang Traffic Capacity Trunks.

(** The round that has just been entered. *)
Definition tick {A : Type} (c : result A * nat) : result A * nat :=
  (fst c, S (snd c)).

(** A step that raises ends the round it is in. *)
Definition bindc {A B : Type} (c : result A) (k : A -> result B * nat)
    : result B * nat :=
  match c with
  | Ok a => k a
  | Raise e => (Raise e, O)
  | OutOfFuel => (OutOfFuel, O)
  end.

Notation "x <-- c ;; k" := (bindc c (fun x => k))
  (at level 61, c at next level, right associativity).

Fixpoint looping_traffic_counted (remaining : nat) (trunks blocking : R)
    (increment max_intensity min_i intensity : R) : result R * nat :=
  match remaining with
  | O => (Ok min_i, O)
  | S remaining' =>
      if increment >=? MAX_ACCURACY then
        tick (
          b <-- erlang_b trunks intensity ;;
          let '(max_intensity, increment, intensity) :=
            if b >? blocking
            then (intensity, increment / 10, min_i)
            else (max_intensity, increment, intensity) in
          let min_i := intensity in
          let intensity := intensity + increment in
          looping_traffic_counted remaining' trunks blocking
            increment max_intensity min_i intensity)
      else (Ok min_i, O)
  end.

Section WithConfig.

Variables INTERVAL MAX_ACCURACY : R.

Fixpoint required_ladder_counted (n : nat) (sla : R) (service_time aht : Z)
    (traffic_rate : R) (no_agents : Z) : result Z * nat :=
  match n with
  | O => (Ok no_agents, O)
  | S n' =>
      tick (
        utilisation <-- fdiv traffic_rate (IZR no_agents) ;;
        if utilisation <? 1 then
          c <-- erlang_c (IZR no_agents) traffic_rate ;;
          x <-- fdiv ((traffic_rate - IZR no_agents) * IZR service_time) (IZR aht) ;;
          let sl_queued := 1 - c * exp x in
          let sl_queued := if sl_queued <? 0 then 0 else sl_queued in
          if (sl_queued >=? sla) || (sl_queued >? 1 - MAX_ACCURACY)
          then (Ok no_agents, O)
          else required_ladder_counted n' sla service_time aht traffic_rate
                 (no_agents + 1)%Z
        else required_ladder_counted n' sla service_time aht traffic_rate
               (no_agents + 1)%Z)
  end.

Fixpoint asa_ladder_counted (n : nat)
    (asa_target death_rate traffic_rate utilisation : R) (no_agents : Z)
    : result Z * nat :=
  match n with
  | O => (Ok no_agents, O)
  | S n' =>
      tick (
        c <-- erlang_c (IZR no_agents) traffic_rate ;;
        answer_time <-- fdiv c (IZR no_agents * death_rate * (1 - utilisation)) ;;
        if answer_time * INTERVAL <=? asa_target then (Ok no_agents, O)
        else asa_ladder_counted n' asa_target death_rate traffic_rate utilisation
               (no_agents + 1)%Z)
  end.

Fixpoint fractional_ladder_counted (n : nat) (sla : R) (service_time aht : Z)
    (traffic_rate : R) (no_agents : Z) (sl_queued last_slq : R)
    : result (Z * R * R) * nat :=
  match n with
  | O => (Ok (no_agents, sl_queued, last_slq), O)
  | S n' =>
      tick (
        let last_slq := sl_queued in
        utilisation <-- fdiv traffic_rate (IZR no_agents) ;;
        if utilisation <? 1 then
          c <-- erlang_c (IZR no_agents) traffic_rate ;;
          x <-- fdiv ((traffic_rate - IZR no_agents) * IZR service_time) (IZR aht) ;;
          let sl_queued := 1 - c * exp x in
          let sl_queued := if sl_queued <? 0 then 0 else sl_queued in
          let sl_queued := if sl_queued >? 1 then 1 else sl_queued in
          if (sl_queued >=? sla) || (sl_queued >? 1 - MAX_ACCURACY)
          then (Ok (no_agents, sl_queued, last_slq), O)
          else fractional_ladder_counted n' sla service_time aht traffic_rate
                 (no_agents + 1)%Z sl_queued last_slq
        else fractional_ladder_counted n' sla service_time aht traffic_rate
               (no_agents + 1)%Z sl_queued last_slq)
  end.

Fixpoint nb_agents_loop_counted (n : nat) (count : Z) (calls_ph avg_sa : R)
    (avg_ht : Z) : result Z * nat :=
  match n with
  | O => (Raise (CalculationError None), O)
  | S n' =>
      tick (
        a <-- asa INTERVAL (IZR count) calls_ph avg_ht ;;
        if IZR a <=? avg_sa then (Ok count, O)
        else nb_agents_loop_counted n' (count + 1)%Z calls_ph avg_sa avg_ht)
  end.

End WithConfig.

Fixpoint number_trunks_loop_counted (n : nat) (count : Z) (intensity : R)
    : result Z * nat :=
  match n with
  | O => (Raise (CalculationError None), O)
  | S n' =>
      tick (
        b <-- erlang_b (IZR count) intensity ;;
        if b <? 1 / 1000 then (Ok count, O)
        else number_trunks_loop_counted n' (count + 1)%Z intensity)
  end.

End Rounds.

(** ** The same functions on binary64 numbers

    Where rounding, overflow or NaN decide a property, the functions
    concerned are embedded a second time, over the binary64 numbers a
    Python [float] is made of: Rocq's primitive floats, with IEEE 754
    arithmetic rounded to nearest even.  What Python adds to IEEE 754 is
    kept: [/] raises [ZeroDivisionError] on a divisor equal to zero,
    [int] raises [OverflowError] on an infinity and [ValueError] on NaN,
    an [int] met in float arithmetic is converted first (raising
    [OverflowError] when it is too large), and [min] and [max] answer
    their first argument unless the comparison with the second succeeds,
    so that a NaN in first place is kept. *)

Module Binary64.

Local Open Scope float_scope.

(** [x / y] *)
Definition fdiv (x y : float) : result float :=
  if y =? 0 then Raise ZeroDivisionError else Ok (x / y).

(** [int(x)]: truncation towards zero. *)
Definition py_int (x : float) : result Z :=
  match Prim2SF x with
  | S754_zero _ => Ok 0%Z
  | S754_finite s m e => Ok (cond_Zopp s (Z.shiftl (Zpos m) e))
  | S754_infinity _ => Raise OverflowError
  | S754_nan => Raise ValueError
  end.

(** [float(z)], also implicit when an [int] meets a [float]. *)
Definition of_Z (z : Z) : result float :=
  match binary_normalize prec emax z 0 false with
  | S754_infinity _ => Raise OverflowError
  | f => Ok (SF2Prim f)
  end.

Definition py_min (a b : float) : float := if b <? a then b else a.
Definition py_max (a b : float) : float := if a <? b then b else a.

(** *** utils.py *)

Definition min_max (val min_val max_val : float) : float :=
  py_max (py_min val max_val) min_val.

Definition secs (amount : float) (interval : float) : result Z :=
  py_int (amount * interval + 0.5).

Definition default_interval : float := 600.

(** *** calculations/erlang.py *)

Fixpoint iterate_b (step : Z -> float -> result float) (n : nat) (count : Z)
    (b : option float) (last : float) : result (option float) :=
  match n with
  | O => Ok b
  | S n' =>
      b' <- step count last ;;
      iterate_b step n' (count + 1)%Z (Some b') b'
  end.

Definition read_local (b : option float) : result float :=
  match b with
  | Some v => Ok v
  | None => Raise UnboundLocalError
  end.

Definition erlang_b_step (intensity : float) (count : Z) (last : float)
    : result float :=
  c <- of_Z count ;;
  fdiv (intensity * last) (c + intensity * last).

Definition erlang_b (servers intensity : float) : result float :=
  if (servers <? 0) || (intensity <? 0) then Ok 0
  else
    max_iterate <- py_int servers ;;
    let last := 1 in
    ob <- iterate_b (erlang_b_step intensity) (Z.to_nat max_iterate) 1 None last ;;
    b <- read_local ob ;;
    Ok (min_max b 0 1).

Definition erlang_b_ext_step (intensity retries : float) (count : Z)
    (last : float) : result float :=
  c <- of_Z count ;;
  b <- fdiv (intensity * last) (c + intensity * last) ;;
  attempts <- fdiv 1 (1 - b * retries) ;;
  fdiv (intensity * last * attempts) (c + intensity * last * attempts).

Definition erlang_b_ext (servers intensity retry : float) : result float :=
  if (servers <? 0) || (intensity <? 0) then Ok 0
  else
    max_iterate <- py_int servers ;;
    let retries := min_max retry 0 1 in
    let last := 1 in
    ob <- iterate_b (erlang_b_ext_step intensity retries)
            (Z.to_nat max_iterate) 1 None last ;;
    b <- read_local ob ;;
    Ok (min_max b 0 1).

Definition erlang_c (servers intensity : float) : result float :=
  if (servers <? 0) || (intensity <? 0) then Ok 0
  else
    b <- erlang_b servers intensity ;;
    rho <- fdiv intensity servers ;;
    rho' <- fdiv intensity servers ;;
    c <- fdiv b (rho * b + (1 - rho')) ;;
    Ok (min_max c 0 1).

(** *** calculations/traffic.py *)

Definition MAX_ACCURACY : float := 0.00001.
Definition MAX_LOOPS : nat := 100.

Fixpoint looping_traffic_loop (remaining : nat) (trunks blocking : float)
    (increment max_intensity min_i intensity : float) : result float :=
  match remaining with
  | O => Ok min_i
  | S remaining' =>
      if MAX_ACCURACY <=? increment then
        b <- erlang_b trunks intensity ;;
        let '(max_intensity, increment, intensity) :=
          if blocking <? b
          then (intensity, increment / 10, min_i)
          else (max_intensity, increment, intensity) in
        let min_i := intensity in
        let intensity := intensity + increment in
        looping_traffic_loop remaining' trunks blocking
          increment max_intensity min_i intensity
      else Ok min_i
  end.

Definition looping_traffic (trunks blocking increment max_intensity
    min_intensity : float) : result float :=
  let min_i := min_intensity in
  let intensity := min_i in
  looping_traffic_loop MAX_LOOPS trunks blocking increment max_intensity
    min_i intensity.

(** [while b < blocking: max_i *= 2; b = erlang_b(servers, max_i)] *)
Fixpoint traffic_double (fuel : nat) (servers blocking max_i b : float)
    : result float :=
  if b <? blocking then
    match fuel with
    | O => OutOfFuel
    | S fuel' =>
        let max_i := max_i * 2 in
        b <- erlang_b servers max_i ;;
        traffic_double fuel' servers blocking max_i b
    end
  else Ok max_i.

(** [while incr <= max_i / 100: incr *= 10] *)
Fixpoint traffic_incr (fuel : nat) (max_i incr : float) : result float :=
  if incr <=? max_i / 100 then
    match fuel with
    | O => OutOfFuel
    | S fuel' => traffic_incr fuel' max_i (incr * 10)
    end
  else Ok incr.

Definition traffic (fuel : nat) (servers blocking : float) : result float :=
  n <- py_int servers ;;
  trunks_val <- of_Z n ;;
  if (servers <? 1) || (blocking <? 0) then Ok 0
  else
    let max_i := trunks_val in
    b <- erlang_b servers max_i ;;
    max_i <- traffic_double fuel servers blocking max_i b ;;
    let incr := 1 in
    incr <- traffic_incr fuel max_i incr ;;
    looping_traffic trunks_val blocking incr max_i 0.

(** *** queues/queues.py *)

Section WithConfig.

Variable INTERVAL : float.

Definition queue_size (agents calls_per_hour : float) (aht : Z) : result Z :=
  if (agents <? 0) || (calls_per_hour <? 0) || (aht <=? 0)%Z
  then Raise InputValidationError
  else try_calc (
    let birth_rate := calls_per_hour in
    a <- of_Z aht ;;
    death_rate <- fdiv INTERVAL a ;;
    traffic_rate <- fdiv birth_rate death_rate ;;
    utilisation <- fdiv traffic_rate agents ;;
    let utilisation := if 1 <=? utilisation then 0.99 else utilisation in
    c <- erlang_c agents traffic_rate ;;
    qsize <- fdiv (utilisation * c) (1 - utilisation) ;;
    py_int (qsize + 0.5)).

Definition queue_time (agents calls_per_hour : float) (aht : Z) : result Z :=
  if (agents <? 0) || (calls_per_hour <? 0) || (aht <=? 0)%Z
  then Raise InputValidationError
  else try_calc (
    let birth_rate := calls_per_hour in
    a <- of_Z aht ;;
    death_rate <- fdiv INTERVAL a ;;
    traffic_rate <- fdiv birth_rate death_rate ;;
    utilisation <- fdiv traffic_rate agents ;;
    let utilisation := if 1 <=? utilisation then 0.99 else utilisation in
    qtime <- fdiv 1 (agents * death_rate * (1 - utilisation)) ;;
    secs qtime default_interval).

Definition service_time (agents sla calls_per_hour : float) (aht : Z)
    : result Z :=
  if (agents <? 0) || (sla <? 0) || (calls_per_hour <? 0) || (aht <=? 0)%Z
  then Raise InputValidationError
  else try_calc (
    let adjust := 0 in
    let birth_rate := calls_per_hour in
    a <- of_Z aht ;;
    death_rate <- fdiv INTERVAL a ;;
    traffic_rate <- fdiv birth_rate death_rate ;;
    c <- erlang_c agents traffic_rate ;;
    if c <? 1 - sla then Raise (CalculationError None)
    else
      utilisation <- fdiv traffic_rate agents ;;
      let utilisation := if 1 <=? utilisation then 0.99 else utilisation in
      q <- fdiv 1 (agents * death_rate * (1 - utilisation)) ;;
      let qtime := q * INTERVAL in
      w <- fdiv (1 - sla) c ;;
      let stime := qtime * (1 - w) in
      let adjust := if stime <? 0 then 1 else adjust in
      py_int (stime + adjust)).

End WithConfig.

End Binary64.

(** ** Reference definitions

    The mathematical objects the properties below compare the code
    with.  None of them is part of the program. *)

Import Utils Erlang.

(** The recurrence as the specification words it: [B(0) = 1] and
    [B(k) = intensity * B(k-1) / (k + intensity * B(k-1))]. *)
Fixpoint B_rec (intensity : R) (k : nat) : R :=
  match k with
  | O => 1
  | S k' =>
      (intensity * B_rec intensity k')
      / (IZR (Z.of_nat k) + intensity * B_rec intensity k')
  end.

(** The recurrence over integer fractions: [B(k) = p / q] for an integer
    intensity, so that concrete values can be computed. *)
Fixpoint B_frac (a : Z) (k : nat) : Z * Z :=
  match k with
  | O => (1, 1)%Z
  | S k' =>
      let '(p, q) := B_frac a k' in
      (a * p, Z.of_nat k * q + a * p)%Z
  end.

(** The value [erlang_c] clamps: [B / (rho * B + (1 - rho))] with
    [rho = intensity / servers] and [B] the Erlang B value for
    [floor servers] servers. *)
Definition C_formula (servers a : R) : R :=
  let b := B_rec a (Z.to_nat (py_int servers)) in
  b / (a / servers * b + (1 - a / servers)).

(** The service level of a stable sample: what the ladders and
    [sla_metric] compute before clamping, for [agents] agents and a
    traffic of [t] erlangs. *)
Definition service_level (agents t st aht : R) : R :=
  1 - C_formula agents t * exp ((t - agents) * st / aht).

(** What the specification says of the step handed to
    [looping_traffic]: the largest power of ten that is at most
    [bound]. *)
Definition largest_power_of_ten_below (incr bound : R) : Prop :=
  (exists k : Z, incr = powerRZ 10 k) /\
  incr <= bound /\
  (forall k : Z, powerRZ 10 k <= bound -> powerRZ 10 k <= incr).

(** What the loop [while incr <= max_i / 100: incr *= 10] produces from
    [incr = 1]: the smallest power of ten, not below 1, that is strictly
    greater than [bound]. *)
Definition smallest_power_of_ten_above (incr bound : R) : Prop :=
  exists k : nat,
    incr = 10 ^ k /\ bound < incr /\ (k = 0%nat \/ incr / 10 <= bound).

(** A run terminates when it does not run out of fuel: it returns or
    raises. *)
Definition terminates {A : Type} (r : result A) : Prop := r <> OutOfFuel.

(** A run keeps to the documented exceptions when, if it raises, it
    raises [InputValidationError] or a [CalculationError] that wraps its
    cause. *)
Definition documented_failure {A : Type} (r : result A) : Prop :=
  match r with
  | Raise e => e = InputValidationError \/ exists cause, e = CalculationError (Some cause)
  | _ => True
  end.

(** * Properties *)

(** ** Comparisons, truncation and clamping *)

Lemma Rltb_true (x y : R) : x < y -> (x <? y) = true.
Proof. intros H. unfold Rltb. destruct (Rlt_dec x y); [reflexivity | contradiction]. Qed.

Lemma Rltb_false (x y : R) : y <= x -> (x <? y) = false.
Proof. intros H. unfold Rltb. destruct (Rlt_dec x y); [lra | reflexivity]. Qed.

Lemma Rleb_true (x y : R) : x <= y -> (x <=? y) = true.
Proof. intros H. unfold Rleb. destruct (Rle_dec x y); [reflexivity | contradiction]. Qed.

Lemma Rleb_false (x y : R) : y < x -> (x <=? y) = false.
Proof. intros H. unfold Rleb. destruct (Rle_dec x y); [lra | reflexivity]. Qed.

Lemma Reqb_true (x y : R) : x = y -> (x =? y) = true.
Proof. intros H. unfold Reqb. destruct (Req_dec_T x y); [reflexivity | contradiction]. Qed.

Lemma Reqb_false (x y : R) : x <> y -> (x =? y) = false.
Proof. intros H. unfold Reqb. destruct (Req_dec_T x y); [contradiction | reflexivity]. Qed.

Lemma Rltb_spec (x y : R) : reflect (x < y) (x <? y).
Proof. unfold Rltb. destruct (Rlt_dec x y); constructor; assumption. Qed.

Lemma Rleb_spec (x y : R) : reflect (x <= y) (x <=? y).
Proof. unfold Rleb. destruct (Rle_dec x y); constructor; assumption. Qed.

Lemma Reqb_spec (x y : R) : reflect (x = y) (x =? y).
Proof. unfold Reqb. destruct (Req_dec_T x y); constructor; assumption. Qed.

(** Case analysis on the first comparison found in the goal. *)
Ltac case_cmp :=
  match goal with
  | |- context [Rltb ?a ?b] => destruct (Rltb_spec a b)
  | |- context [Rleb ?a ?b] => destruct (Rleb_spec a b)
  | |- context [Reqb ?a ?b] => destruct (Reqb_spec a b)
  end.

Lemma fdiv_ok (x y : R) : y <> 0 -> fdiv x y = Ok (x / y).
Proof. intros H. unfold fdiv. rewrite Reqb_false by assumption. reflexivity. Qed.

Lemma fdiv_zero (x : R) : fdiv x 0 = Raise ZeroDivisionError.
Proof. unfold fdiv. rewrite Reqb_true by reflexivity. reflexivity. Qed.

Lemma fdiv_inv (x y q : R) : fdiv x y = Ok q -> y <> 0 /\ q = x / y.
Proof.
  unfold fdiv. destruct (Reqb_spec y 0); intros H; [discriminate |].
  injection H as <-. split; [assumption | reflexivity].
Qed.

Lemma fdiv_cases (x y : R) :
  (y = 0 /\ fdiv x y = Raise ZeroDivisionError) \/ (y <> 0 /\ fdiv x y = Ok (x / y)).
Proof.
  destruct (Req_dec_T y 0) as [-> | H].
  - left. split; [reflexivity | apply fdiv_zero].
  - right. split; [assumption | apply fdiv_ok; assumption].
Qed.

(** [int] on a non-negative number is the floor. *)
Lemma py_int_floor (x : R) :
  0 <= x -> IZR (py_int x) <= x < IZR (py_int x) + 1.
Proof.
  intros Hx. unfold py_int. rewrite Rltb_false by assumption.
  destruct (base_Int_part x). lra.
Qed.

Lemma py_int_unique (x : R) (z : Z) :
  0 <= x -> IZR z <= x < IZR z + 1 -> py_int x = z.
Proof.
  intros Hx Hz. unfold py_int. rewrite Rltb_false by assumption.
  symmetry. apply Int_part_spec. lra.
Qed.

Lemma py_int_IZR (z : Z) : py_int (IZR z) = z.
Proof.
  unfold py_int. destruct (Rltb_spec (IZR z) 0) as [H | H].
  - rewrite <- opp_IZR. rewrite <- (Int_part_spec (IZR (- z)) (- z)%Z); [lia | lra].
  - symmetry. apply Int_part_spec. lra.
Qed.

Lemma py_int_nonneg (x : R) : 0 <= x -> (0 <= py_int x)%Z.
Proof.
  intros Hx. destruct (py_int_floor x Hx) as [_ H].
  apply Z.lt_succ_r. apply lt_IZR. rewrite succ_IZR. lra.
Qed.

Lemma py_int_mono (x y : R) : 0 <= x -> x <= y -> (py_int x <= py_int y)%Z.
Proof.
  intros Hx Hxy.
  destruct (py_int_floor x Hx) as [H1 _].
  destruct (py_int_floor y ltac:(lra)) as [_ H2].
  apply Z.lt_succ_r. apply lt_IZR. rewrite succ_IZR. lra.
Qed.

Lemma py_min_le (a b : R) : py_min a b <= a /\ py_min a b <= b.
Proof. unfold py_min. destruct (Rltb_spec b a); lra. Qed.

Lemma py_min_cases (a b : R) :
  (b < a /\ py_min a b = b) \/ (a <= b /\ py_min a b = a).
Proof. unfold py_min. destruct (Rltb_spec b a); [left | right]; split; lra. Qed.

Lemma min_max_range (v lo hi : R) :
  lo <= hi -> lo <= min_max v lo hi <= hi.
Proof.
  intros H. unfold min_max, py_max.
  destruct (py_min_cases v hi) as [[? ->] | [? ->]]; case_cmp; lra.
Qed.

Lemma min_max_id (v lo hi : R) : lo <= v <= hi -> min_max v lo hi = v.
Proof.
  intros H. unfold min_max, py_max.
  destruct (py_min_cases v hi) as [[? ->] | [? ->]]; case_cmp; lra.
Qed.

Lemma min_max_above (v lo hi : R) : lo <= hi -> hi <= v -> min_max v lo hi = hi.
Proof.
  intros H1 H2. unfold min_max, py_max.
  destruct (py_min_cases v hi) as [[? ->] | [? ->]]; case_cmp; lra.
Qed.

Lemma min_max_below (v lo hi : R) : lo <= hi -> v <= lo -> min_max v lo hi = lo.
Proof.
  intros H1 H2. unfold min_max, py_max.
  destruct (py_min_cases v hi) as [[? ->] | [? ->]]; case_cmp; lra.
Qed.

Lemma bind_ok {A B : Type} (c : result A) (k : A -> result B) (b : B) :
  bind c k = Ok b -> exists a, c = Ok a /\ k a = Ok b.
Proof. destruct c; simpl; intros H; try discriminate. exists a. split; [reflexivity | assumption]. Qed.

Lemma try_calc_ok {A : Type} (c : result A) (a : A) :
  try_calc c = Ok a -> c = Ok a.
Proof. destruct c; simpl; intros H; try discriminate; assumption. Qed.

(** ** Quotients *)

Lemma div_nonneg (x d : R) : 0 <= x -> 0 < d -> 0 <= x / d.
Proof.
  intros Hx Hd. apply Rmult_le_pos; [assumption |].
  left. apply Rinv_0_lt_compat. assumption.
Qed.

Lemma div_le_iff (x d c : R) : 0 < d -> (x / d <= c <-> x <= c * d).
Proof.
  intros Hd. split; intros H.
  - apply (Rmult_le_compat_r d) in H; [| lra].
    unfold Rdiv in H. rewrite Rmult_assoc, Rinv_l, Rmult_1_r in H by lra. assumption.
  - apply (Rmult_le_reg_r d); [assumption |].
    unfold Rdiv. rewrite Rmult_assoc, Rinv_l, Rmult_1_r by lra. assumption.
Qed.

Lemma div_ge_iff (x d c : R) : 0 < d -> (c <= x / d <-> c * d <= x).
Proof.
  intros Hd. split; intros H.
  - apply (Rmult_le_compat_r d) in H; [| lra].
    unfold Rdiv in H. rewrite Rmult_assoc, Rinv_l, Rmult_1_r in H by lra. assumption.
  - apply (Rmult_le_reg_r d); [assumption |].
    unfold Rdiv. rewrite Rmult_assoc, Rinv_l, Rmult_1_r by lra. assumption.
Qed.

Lemma div_lt_iff (x d c : R) : 0 < d -> (x / d < c <-> x < c * d).
Proof.
  intros Hd. split; intros H.
  - apply (Rmult_lt_compat_r d) in H; [| lra].
    unfold Rdiv in H. rewrite Rmult_assoc, Rinv_l, Rmult_1_r in H by lra. assumption.
  - apply (Rmult_lt_reg_r d); [assumption |].
    unfold Rdiv. rewrite Rmult_assoc, Rinv_l, Rmult_1_r by lra. assumption.
Qed.

Lemma div_gt_iff (x d c : R) : 0 < d -> (c < x / d <-> c * d < x).
Proof.
  intros Hd. split; intros H.
  - apply (Rmult_lt_compat_r d) in H; [| lra].
    unfold Rdiv in H. rewrite Rmult_assoc, Rinv_l, Rmult_1_r in H by lra. assumption.
  - apply (Rmult_lt_reg_r d); [assumption |].
    unfold Rdiv. rewrite Rmult_assoc, Rinv_l, Rmult_1_r by lra. assumption.
Qed.

(** ** Erlang B: the recurrence and what the loop computes *)


Lemma IZR_succ_nat (k : nat) : IZR (Z.of_nat (S k)) = IZR (Z.of_nat k) + 1.
Proof. rewrite Nat2Z.inj_succ, succ_IZR. reflexivity. Qed.

Lemma IZR_nat_nonneg (k : nat) : 0 <= IZR (Z.of_nat k).
Proof. apply IZR_le. lia. Qed.

(** The invariant behind every bound on Erlang B: the carried traffic
    [a * (1 - B k)] never exceeds the number [k] of servers. *)
Lemma B_rec_inv (a : R) (k : nat) :
  0 <= a ->
  0 <= B_rec a k <= 1 /\ a * (1 - B_rec a k) <= IZR (Z.of_nat k).
Proof.
  intros Ha. induction k as [| k IH].
  - simpl. lra.
  - destruct IH as [[IH0 IH1] IH2].
    assert (Hk := IZR_nat_nonneg k).
    cbn [B_rec]. rewrite IZR_succ_nat.
    set (b := B_rec a k) in *. set (n := IZR (Z.of_nat k)) in *.
    assert (Hab : 0 <= a * b) by nra.
    assert (Hd : 0 < n + 1 + a * b) by lra.
    repeat split.
    + apply Rmult_le_pos; [assumption |]. left. apply Rinv_0_lt_compat. assumption.
    + apply (Rmult_le_reg_r (n + 1 + a * b)); [assumption |].
      unfold Rdiv. rewrite Rmult_assoc, Rinv_l by lra. lra.
    + replace (a * (1 - a * b / (n + 1 + a * b)))
        with (a * (n + 1) / (n + 1 + a * b)) by (field; lra).
      apply (Rmult_le_reg_r (n + 1 + a * b)); [assumption |].
      unfold Rdiv. rewrite Rmult_assoc, Rinv_l by lra. nra.
Qed.

Lemma B_rec_strict (a : R) (k : nat) :
  0 <= a -> a * (1 - B_rec a (S k)) < IZR (Z.of_nat (S k)).
Proof.
  intros Ha. destruct (B_rec_inv a k Ha) as [[IH0 IH1] IH2].
  assert (Hk := IZR_nat_nonneg k).
  cbn [B_rec]. rewrite IZR_succ_nat.
  set (b := B_rec a k) in *. set (n := IZR (Z.of_nat k)) in *.
  assert (Hab : 0 <= a * b) by nra.
  assert (Hd : 0 < n + 1 + a * b) by lra.
  replace (a * (1 - a * b / (n + 1 + a * b)))
    with (a * (n + 1) / (n + 1 + a * b)) by (field; lra).
  apply (Rmult_lt_reg_r (n + 1 + a * b)); [assumption |].
  unfold Rdiv. rewrite Rmult_assoc, Rinv_l by lra. nra.
Qed.

Lemma B_rec_pos (a : R) (k : nat) : 0 < a -> 0 < B_rec a k.
Proof.
  intros Ha. induction k as [| k IH].
  - simpl. lra.
  - assert (Hk := IZR_nat_nonneg (S k)).
    cbn [B_rec]. apply Rdiv_lt_0_compat; nra.
Qed.

Lemma B_rec_zero (k : nat) : B_rec 0 (S k) = 0.
Proof. cbn [B_rec]. unfold Rdiv. rewrite !Rmult_0_l. reflexivity. Qed.

Lemma B_rec_step_le (a : R) (k : nat) : 0 <= a -> B_rec a (S k) <= B_rec a k.
Proof.
  intros Ha. destruct (B_rec_inv a k Ha) as [[IH0 IH1] IH2].
  assert (Hk := IZR_nat_nonneg k).
  cbn [B_rec]. rewrite IZR_succ_nat.
  set (b := B_rec a k) in *. set (n := IZR (Z.of_nat k)) in *.
  assert (Hab : 0 <= a * b) by nra.
  assert (Hd : 0 < n + 1 + a * b) by lra.
  apply (Rmult_le_reg_r (n + 1 + a * b)); [assumption |].
  unfold Rdiv. rewrite Rmult_assoc, Rinv_l by lra. nra.
Qed.

Lemma B_rec_antitone (a : R) (k1 k2 : nat) :
  0 <= a -> (k1 <= k2)%nat -> B_rec a k2 <= B_rec a k1.
Proof.
  intros Ha H. induction H as [| k2 H IH].
  - lra.
  - pose proof (B_rec_step_le a k2 Ha). lra.
Qed.

(** The loop of [erlang_b], entered at [count = j + 1] with
    [last = B(j)], computes the recurrence. *)
Lemma iterate_b_erlang (a : R) (n j : nat) (ob : option R) :
  0 <= a ->
  iterate_b (erlang_b_step a) n (Z.of_nat (S j)) ob (B_rec a j)
  = Ok (match n with O => ob | S _ => Some (B_rec a (j + n)) end).
Proof.
  intros Ha. revert j ob. induction n as [| n IH]; intros j ob.
  - reflexivity.
  - cbn [iterate_b]. unfold erlang_b_step at 1.
    destruct (B_rec_inv a j Ha) as [[H0 H1] _].
    assert (Hk := IZR_nat_nonneg j).
    rewrite fdiv_ok by (rewrite IZR_succ_nat; nra).
    cbn [bind].
    replace (Z.of_nat (S j) + 1)%Z with (Z.of_nat (S (S j))) by lia.
    change (a * B_rec a j / (IZR (Z.of_nat (S j)) + a * B_rec a j))
      with (B_rec a (S j)).
    rewrite IH. f_equal. destruct n.
    + rewrite Nat.add_1_r. reflexivity.
    + f_equal. f_equal. lia.
Qed.

(** [erlang_b] on its intended domain: at least one server. *)
Lemma erlang_b_rec (servers a : R) :
  1 <= servers -> 0 <= a ->
  erlang_b servers a = Ok (B_rec a (Z.to_nat (py_int servers))).
Proof.
  intros Hs Ha. unfold erlang_b.
  rewrite (Rltb_false servers 0), (Rltb_false a 0) by lra. cbn [orb].
  assert (Hn : (1 <= py_int servers)%Z).
  { rewrite <- (py_int_IZR 1). apply py_int_mono; lra. }
  destruct (Z.to_nat (py_int servers)) as [| n] eqn:En; [lia |].
  pose proof (iterate_b_erlang a (S n) 0 None Ha) as E.
  cbn [B_rec Z.of_nat Pos.of_succ_nat] in E. rewrite E.
  cbn [bind read_local Nat.add].
  rewrite min_max_id; [reflexivity |]. apply B_rec_inv. assumption.
Qed.

(** With less than one server the loop body never runs and the function
    reads its local [b] unbound. *)
Lemma erlang_b_unbound (servers a : R) :
  0 <= servers < 1 -> 0 <= a ->
  erlang_b servers a = Raise UnboundLocalError.
Proof.
  intros Hs Ha. unfold erlang_b.
  rewrite (Rltb_false servers 0), (Rltb_false a 0) by lra. cbn [orb].
  rewrite (py_int_unique servers 0) by lra. reflexivity.
Qed.

Lemma erlang_b_negative (servers a : R) :
  servers < 0 \/ a < 0 -> erlang_b servers a = Ok 0.
Proof.
  intros H. unfold erlang_b.
  destruct (Rltb_spec servers 0); [reflexivity |].
  rewrite (Rltb_true a 0) by lra. reflexivity.
Qed.

(** At an integer traffic the recurrence runs over integer fractions. *)
Lemma B_frac_correct (a : Z) (k : nat) :
  (0 <= a)%Z ->
  (0 <= fst (B_frac a k))%Z /\ (0 < snd (B_frac a k))%Z /\
  B_rec (IZR a) k = IZR (fst (B_frac a k)) / IZR (snd (B_frac a k)).
Proof.
  intros Ha. induction k as [| k IH].
  - cbn. repeat split; try lia. lra.
  - cbn [B_frac B_rec]. destruct (B_frac a k) as [p q]. cbn [fst snd] in *.
    destruct IH as (Hp & Hq & ->).
    repeat split; try nia.
    assert (HqR : 0 < IZR q) by (apply IZR_lt; assumption).
    assert (HpR : 0 <= IZR p) by (apply IZR_le; assumption).
    assert (HaR : 0 <= IZR a) by (apply IZR_le; assumption).
    assert (HkR : 0 < IZR (Z.of_nat (S k))) by (apply IZR_lt; lia).
    rewrite plus_IZR, !mult_IZR. field. split; [nra | lra].
Qed.

(** Erlang B at an integer traffic [a] and [k] servers, as an exact
    fraction of integer literals. *)
Ltac B_value a k :=
  let H := fresh "HB" in
  let E := fresh "EB" in
  pose proof (B_frac_correct a k ltac:(lia)) as (_ & _ & H);
  let v := eval vm_compute in (B_frac a k) in
  assert (E : B_frac a k = v) by (vm_compute; reflexivity);
  rewrite E in H; cbn [fst snd] in H; clear E.

(** ** Erlang C *)


Lemma py_int_ge_1 (servers : R) : 1 <= servers -> (1 <= py_int servers)%Z.
Proof. intros H. rewrite <- (py_int_IZR 1). apply py_int_mono; lra. Qed.

(** The denominator of Erlang C is positive from one server on. *)
Lemma C_denominator_pos (servers a : R) :
  1 <= servers -> 0 <= a ->
  let b := B_rec a (Z.to_nat (py_int servers)) in
  0 < a / servers * b + (1 - a / servers).
Proof.
  intros Hs Ha b.
  pose proof (py_int_ge_1 servers Hs) as Hn.
  destruct (py_int_floor servers ltac:(lra)) as [Hfl _].
  destruct (Z.to_nat (py_int servers)) as [| m] eqn:En; [lia |].
  pose proof (B_rec_strict a m Ha) as Hst. fold b in Hst.
  assert (Hm : IZR (Z.of_nat (S m)) <= servers).
  { rewrite <- En, Z2Nat.id by lia. assumption. }
  assert (Hlt : a * (1 - b) < servers) by lra.
  replace (a / servers * b + (1 - a / servers))
    with ((servers - a * (1 - b)) / servers) by (field; lra).
  apply Rdiv_lt_0_compat; lra.
Qed.

Lemma erlang_c_formula (servers a : R) :
  1 <= servers -> 0 <= a ->
  erlang_c servers a = Ok (min_max (C_formula servers a) 0 1).
Proof.
  intros Hs Ha. unfold erlang_c.
  rewrite (Rltb_false servers 0), (Rltb_false a 0) by lra. cbn [orb].
  rewrite erlang_b_rec by assumption. cbn [bind].
  rewrite fdiv_ok by lra. cbn [bind].
  pose proof (C_denominator_pos servers a Hs Ha) as Hd. cbv zeta in Hd.
  rewrite fdiv_ok by lra. reflexivity.
Qed.

(** At or beyond full load the clamp saturates: every call queues. *)
Lemma erlang_c_saturated (servers a : R) :
  1 <= servers -> servers <= a -> erlang_c servers a = Ok 1.
Proof.
  intros Hs Ha. rewrite erlang_c_formula by lra. f_equal.
  apply min_max_above; [lra |]. unfold C_formula.
  pose proof (C_denominator_pos servers a Hs ltac:(lra)) as Hd. cbv zeta in Hd |- *.
  destruct (B_rec_inv a (Z.to_nat (py_int servers)) ltac:(lra)) as [[H0 H1] _].
  set (b := B_rec a (Z.to_nat (py_int servers))) in *.
  assert (Hr : 1 <= a / servers) by (apply div_ge_iff; lra).
  apply div_ge_iff; [assumption |]. nra.
Qed.

(** Below full load the clamp is idle. *)
Lemma erlang_c_stable (servers a : R) :
  1 <= servers -> 0 <= a < servers ->
  erlang_c servers a = Ok (C_formula servers a)
  /\ 0 <= C_formula servers a <= 1.
Proof.
  intros Hs Ha. rewrite erlang_c_formula by lra.
  assert (H : 0 <= C_formula servers a <= 1).
  { unfold C_formula.
    pose proof (C_denominator_pos servers a Hs ltac:(lra)) as Hd. cbv zeta in Hd |- *.
    destruct (B_rec_inv a (Z.to_nat (py_int servers)) ltac:(lra)) as [[H0 H1] _].
    set (b := B_rec a (Z.to_nat (py_int servers))) in *.
    assert (Hr : 0 <= a / servers < 1).
    { split; [apply div_nonneg; lra | apply div_lt_iff; lra]. }
    split; [apply div_nonneg; lra | apply div_le_iff; [assumption | nra]]. }
  split; [| assumption]. rewrite min_max_id by assumption. reflexivity.
Qed.

Lemma erlang_c_unbound (servers a : R) :
  0 <= servers < 1 -> 0 <= a -> erlang_c servers a = Raise UnboundLocalError.
Proof.
  intros Hs Ha. unfold erlang_c.
  rewrite (Rltb_false servers 0), (Rltb_false a 0) by lra. cbn [orb].
  rewrite erlang_b_unbound by assumption. reflexivity.
Qed.

Lemma erlang_c_negative (servers a : R) :
  servers < 0 \/ a < 0 -> erlang_c servers a = Ok 0.
Proof.
  intros H. unfold erlang_c.
  destruct (Rltb_spec servers 0); [reflexivity |].
  rewrite (Rltb_true a 0) by lra. reflexivity.
Qed.

Lemma erlang_c_zero_traffic (servers : R) :
  1 <= servers -> erlang_c servers 0 = Ok 0.
Proof.
  intros Hs. destruct (erlang_c_stable servers 0 Hs ltac:(lra)) as [-> _].
  f_equal. unfold C_formula. cbv zeta.
  pose proof (py_int_ge_1 servers Hs).
  destruct (Z.to_nat (py_int servers)) as [| m] eqn:En; [lia |].
  rewrite B_rec_zero. unfold Rdiv. rewrite !Rmult_0_l. reflexivity.
Qed.

(** Every raw evaluator fails, when it fails, inside the arithmetic: with
    [UnboundLocalError] or [ZeroDivisionError], never on purpose. *)
Lemma erlang_c_total (servers a : R) :
  exists r, erlang_c servers a = r /\
    match r with
    | Ok c => 0 <= c <= 1
    | Raise e => e = UnboundLocalError \/ e = ZeroDivisionError
    | OutOfFuel => False
    end.
Proof.
  eexists. split; [reflexivity |].
  destruct (Rlt_dec servers 0) as [Hs | Hs].
  { rewrite erlang_c_negative by (left; assumption). lra. }
  destruct (Rlt_dec a 0) as [Ha | Ha].
  { rewrite erlang_c_negative by (right; assumption). lra. }
  destruct (Rlt_dec servers 1) as [H1 | H1].
  { rewrite erlang_c_unbound by lra. left. reflexivity. }
  rewrite erlang_c_formula by lra. apply min_max_range. lra.
Qed.

(** ** The digit search of [looping_traffic] *)

Import Traffic.

Lemma looping_traffic_loop_max_intensity (remaining : nat)
    (trunks blocking increment m1 m2 min_i intensity : R) :
  looping_traffic_loop remaining trunks blocking increment m1 min_i intensity
  = looping_traffic_loop remaining trunks blocking increment m2 min_i intensity.
Proof.
  revert increment m1 m2 min_i intensity.
  induction remaining as [| r IH]; intros increment m1 m2 min_i intensity.
  - reflexivity.
  - cbn [looping_traffic_loop].
    destruct (increment >=? MAX_ACCURACY); [| reflexivity].
    destruct (erlang_b trunks intensity) as [b | e |]; cbn [bind]; try reflexivity.
    destruct (b >? blocking); apply IH.
Qed.

(** C10.  The answer of [looping_traffic] does not depend on its
    [max_intensity] argument: the function stores into it and never
    reads it. *)
Theorem looping_traffic_ignores_max_intensity
    (trunks blocking increment m1 m2 min_intensity : R) :
  looping_traffic trunks blocking increment m1 min_intensity
  = looping_traffic trunks blocking increment m2 min_intensity.
Proof. unfold looping_traffic. apply looping_traffic_loop_max_intensity. Qed.

(** ** Erlang B at zero servers, and along the server count *)

(** C2.  With zero servers and intensity 5 the loop of [erlang_b] runs
    over the empty range [range(1, 1)], so the local [b] that the
    [return] reads was never assigned: the call raises
    [UnboundLocalError] where the recurrence gives [B(0) = 1]. *)
Theorem erlang_b_zero_servers_raises :
  erlang_b 0 5 = Raise UnboundLocalError /\ B_rec 5 0 = 1.
Proof. split; [apply erlang_b_unbound; lra | reflexivity]. Qed.

(** From one server on, [erlang_b] returns the recurrence value for
    [floor servers]; the clamp is idle there. *)
Lemma erlang_b_recurrence (servers intensity : R) :
  1 <= servers -> 0 <= intensity ->
  erlang_b servers intensity
  = Ok (min_max (B_rec intensity (Z.to_nat (py_int servers))) 0 1).
Proof.
  intros Hs Ha. rewrite erlang_b_rec by assumption.
  rewrite min_max_id; [reflexivity |]. apply B_rec_inv. assumption.
Qed.



(** ** The clamp, on real numbers

    On real numbers a value that went through [min_max(_, 0.0, 1.0)] lies
    between 0 and 1.  On binary64 numbers a NaN passes the clamp, see
    [erlang_b_ext_returns_nan] below. *)

Import Queues.

Ltac bind_inv H :=
  let a := fresh "v" in
  let E := fresh "E" in
  apply bind_ok in H; destruct H as (a & E & H).

Ltac ok_inv H := injection H as H; subst.

Lemma unit_clamp (v : R) : 0 <= min_max v 0 1 <= 1.
Proof. apply min_max_range. lra. Qed.

Lemma erlang_b_range (servers intensity p : R) :
  erlang_b servers intensity = Ok p -> 0 <= p <= 1.
Proof.
  unfold erlang_b. destruct (_ || _).
  - intros H. ok_inv H. lra.
  - intros H. bind_inv H. bind_inv H. ok_inv H. apply unit_clamp.
Qed.

Lemma erlang_b_ext_range (servers intensity retry p : R) :
  erlang_b_ext servers intensity retry = Ok p -> 0 <= p <= 1.
Proof.
  unfold erlang_b_ext. destruct (_ || _).
  - intros H. ok_inv H. lra.
  - intros H. bind_inv H. bind_inv H. ok_inv H. apply unit_clamp.
Qed.

Lemma engset_b_range (servers events intensity p : R) :
  engset_b servers events intensity = Ok p -> 0 <= p <= 1.
Proof.
  unfold engset_b. destruct (_ || _).
  - intros H. ok_inv H. lra.
  - intros H. bind_inv H. bind_inv H. destruct (_ =? 0).
    + ok_inv H. lra.
    + bind_inv H. ok_inv H. apply unit_clamp.
Qed.

Lemma erlang_c_range (servers intensity p : R) :
  erlang_c servers intensity = Ok p -> 0 <= p <= 1.
Proof.
  unfold erlang_c. destruct (_ || _).
  - intros H. ok_inv H. lra.
  - intros H. do 4 bind_inv H. ok_inv H. apply unit_clamp.
Qed.

Lemma queued_range (INTERVAL agents calls_per_hour : R) (aht : Z) (p : R) :
  queued INTERVAL agents calls_per_hour aht = Ok p -> 0 <= p <= 1.
Proof.
  unfold queued. destruct (_ || _); [discriminate |].
  intros H. apply try_calc_ok in H. do 3 bind_inv H. ok_inv H. apply unit_clamp.
Qed.

Lemma sla_metric_range (INTERVAL agents st calls_per_hour : R) (aht : Z) (p : R) :
  sla_metric INTERVAL agents st calls_per_hour aht = Ok p -> 0 <= p <= 1.
Proof.
  unfold sla_metric. destruct (_ || _); [discriminate |].
  intros H. apply try_calc_ok in H. do 5 bind_inv H. ok_inv H. apply unit_clamp.
Qed.

(** Evaluation of the embedded code on concrete numbers. *)
Ltac is_Z_literal z :=
  lazymatch z with
  | Z0 => idtac
  | Zpos ?p => idtac
  | Zneg ?p => idtac
  end.

Ltac z_eval :=
  match goal with
  | |- context [Z.leb ?a ?b] =>
      is_Z_literal a; is_Z_literal b;
      let v := eval vm_compute in (Z.leb a b) in change (Z.leb a b) with v
  | |- context [Z.ltb ?a ?b] =>
      is_Z_literal a; is_Z_literal b;
      let v := eval vm_compute in (Z.ltb a b) in change (Z.ltb a b) with v
  | |- context [Z.gtb ?a ?b] =>
      is_Z_literal a; is_Z_literal b;
      let v := eval vm_compute in (Z.gtb a b) in change (Z.gtb a b) with v
  | |- context [Z.add ?a ?b] =>
      is_Z_literal a; is_Z_literal b;
      let v := eval vm_compute in (Z.add a b) in change (Z.add a b) with v
  | |- context [Z.mul ?a ?b] =>
      is_Z_literal a; is_Z_literal b;
      let v := eval vm_compute in (Z.mul a b) in change (Z.mul a b) with v
  end.

Ltac r_eval :=
  match goal with
  | |- context [Rltb ?a ?b] =>
      first [ rewrite (Rltb_true a b) by lra | rewrite (Rltb_false a b) by lra ]
  | |- context [Rleb ?a ?b] =>
      first [ rewrite (Rleb_true a b) by lra | rewrite (Rleb_false a b) by lra ]
  | |- context [Reqb ?a ?b] =>
      first [ rewrite (Reqb_false a b) by lra | rewrite (Reqb_true a b) by lra ]
  | |- context [fdiv ?a ?b] => rewrite (fdiv_ok a b) by lra
  end.

Ltac py_eval :=
  cbn [bind orb andb negb try_calc read_local];
  repeat (first [ z_eval | r_eval ]; cbn [bind orb andb negb try_calc read_local]).

(** ** Failures: exhausted searches, unreachable targets, negative inputs *)

Import Capacity Trunks.

Lemma death_rate_pos (INTERVAL : R) (aht : Z) :
  0 < INTERVAL -> (0 < aht)%Z -> 0 < INTERVAL / IZR aht.
Proof.
  intros HI Ha. apply Rdiv_lt_0_compat; [assumption |]. apply IZR_lt. assumption.
Qed.

Lemma aht_guard (aht : Z) : (0 < aht)%Z -> (aht <=? 0)%Z = false.
Proof. intros H. apply Z.leb_gt. assumption. Qed.

Lemma engset_b_negative (servers events a : R) :
  servers < 0 \/ a < 0 -> engset_b servers events a = Ok 0.
Proof.
  intros H. unfold engset_b.
  destruct (Rltb_spec servers 0); [reflexivity |].
  rewrite (Rltb_true a 0) by lra. reflexivity.
Qed.

(** The loop of [nb_agents] falls through when no count meets the target. *)
Lemma nb_agents_loop_exhausted (INTERVAL : R) (n : nat) (count : Z)
    (calls_ph avg_sa : R) (avg_ht : Z) :
  (forall k, (count <= k < count + Z.of_nat n)%Z ->
     exists a, asa INTERVAL (IZR k) calls_ph avg_ht = Ok a /\ avg_sa < IZR a) ->
  nb_agents_loop INTERVAL n count calls_ph avg_sa avg_ht
  = Raise (CalculationError None).
Proof.
  revert count. induction n as [| n IH]; intros count H.
  - reflexivity.
  - cbn [nb_agents_loop].
    destruct (H count ltac:(lia)) as (a & -> & Ha). cbn [bind].
    rewrite Rleb_false by assumption.
    apply IH. intros k Hk. apply H. lia.
Qed.

(** The loop of [number_trunks] falls through when every count blocks
    at least one call in a thousand. *)
Lemma number_trunks_loop_exhausted (n : nat) (count : Z) (intensity : R) :
  (forall k, (count <= k < count + Z.of_nat n)%Z ->
     exists b, erlang_b (IZR k) intensity = Ok b /\ 1 / 1000 <= b) ->
  number_trunks_loop n count intensity = Raise (CalculationError None).
Proof.
  revert count. induction n as [| n IH]; intros count H.
  - reflexivity.
  - cbn [number_trunks_loop].
    destruct (H count ltac:(lia)) as (b & -> & Hb). cbn [bind].
    rewrite Rltb_false by assumption.
    apply IH. intros k Hk. apply H. lia.
Qed.

(** C8.  [nb_agents] and [number_trunks] raise a [CalculationError] when
    none of the counts up to 65535 meets the target, [service_time]
    raises one when the queueing probability is below [1 - sla], and
    [erlang_b], [engset_b] and [erlang_c] return [0.0] on a negative
    [servers] or [intensity] instead of raising. *)
Theorem failure_policies (INTERVAL : R) :
  (forall calls_ph avg_sa avg_ht,
     0 <= calls_ph -> 0 <= avg_sa -> (0 < avg_ht)%Z ->
     (forall count, (1 <= count <= 65535)%Z ->
        exists a, asa INTERVAL (IZR count) calls_ph avg_ht = Ok a /\ avg_sa < IZR a) ->
     nb_agents INTERVAL calls_ph avg_sa avg_ht
     = Raise (CalculationError (Some (CalculationError None)))) /\
  (forall servers intensity,
     0 <= servers -> 0 <= intensity ->
     (forall count, (int_ceiling servers <= count <= 65535)%Z ->
        exists b, erlang_b (IZR count) intensity = Ok b /\ 1 / 1000 <= b) ->
     number_trunks servers intensity
     = Raise (CalculationError (Some (CalculationError None)))) /\
  (forall agents sla calls_per_hour aht c,
     0 < INTERVAL -> 0 <= agents -> 0 <= sla -> 0 <= calls_per_hour ->
     (0 < aht)%Z ->
     erlang_c agents (calls_per_hour / (INTERVAL / IZR aht)) = Ok c ->
     c < 1 - sla ->
     service_time INTERVAL agents sla calls_per_hour aht
     = Raise (CalculationError (Some (CalculationError None)))) /\
  (forall servers events intensity,
     servers < 0 \/ intensity < 0 ->
     erlang_b servers intensity = Ok 0 /\
     engset_b servers events intensity = Ok 0 /\
     erlang_c servers intensity = Ok 0).
Proof.
  split; [| split; [| split]].
  - intros calls_ph avg_sa avg_ht Hc Hs Hh Hall. unfold nb_agents.
    rewrite (Rltb_false calls_ph 0), (Rltb_false avg_sa 0), aht_guard by assumption.
    cbn [orb]. cbv zeta.
    rewrite nb_agents_loop_exhausted; [reflexivity |].
    intros k Hk. apply Hall. lia.
  - intros servers intensity Hs Hi Hall. unfold number_trunks.
    rewrite (Rltb_false servers 0), (Rltb_false intensity 0) by assumption.
    cbn [orb]. cbv zeta.
    rewrite number_trunks_loop_exhausted; [reflexivity |].
    intros k Hk. apply Hall. lia.
  - intros agents sla calls aht c HI Hag Hsla Hc Haht Ec Hlow. unfold service_time.
    rewrite (Rltb_false agents 0), (Rltb_false sla 0), (Rltb_false calls 0),
      aht_guard by assumption.
    cbn [orb].
    pose proof (death_rate_pos INTERVAL aht HI Haht) as Hd.
    rewrite (fdiv_ok INTERVAL) by (apply Rgt_not_eq, IZR_lt; assumption).
    cbn [bind]. rewrite fdiv_ok by lra. cbn [bind].
    rewrite Ec. cbn [bind]. rewrite Rltb_true by assumption. reflexivity.
  - intros servers events intensity H. repeat split.
    + apply erlang_b_negative. assumption.
    + apply engset_b_negative. assumption.
    + apply erlang_c_negative. assumption.
Qed.

(** At or beyond full load, [asa] works with utilisation 0.99 and a
    queueing probability clamped to 1. *)
Lemma asa_overload (INTERVAL agents calls_per_hour : R) (aht : Z) :
  0 < INTERVAL -> 1 <= agents -> (0 < aht)%Z ->
  agents <= calls_per_hour / (INTERVAL / IZR aht) ->
  asa INTERVAL agents calls_per_hour aht
  = Ok (secs (1 / (agents * (INTERVAL / IZR aht) * (1 - 99 / 100)))
          default_interval).
Proof.
  intros HI Hag Haht Hload. unfold asa.
  pose proof (death_rate_pos INTERVAL aht HI Haht) as Hd.
  assert (Hc : 0 <= calls_per_hour).
  { apply div_ge_iff in Hload; [| assumption]. nra. }
  rewrite (Rleb_false agents 0), (Rltb_false calls_per_hour 0), aht_guard
    by (assumption || lra).
  cbn [orb].
  rewrite (fdiv_ok INTERVAL) by (apply Rgt_not_eq, IZR_lt; assumption).
  cbn [bind]. rewrite fdiv_ok by lra. cbn [bind].
  rewrite fdiv_ok by lra. cbn [bind].
  rewrite Rleb_true by (apply div_ge_iff; lra).
  rewrite erlang_c_saturated by assumption. cbn [bind].
  rewrite fdiv_ok by nra. reflexivity.
Qed.

Lemma secs_lower_bound (amount : R) (z : Z) :
  (0 <= z)%Z -> IZR z <= amount * default_interval -> (z <= secs amount default_interval)%Z.
Proof.
  intros Hz H. unfold secs. rewrite <- (py_int_IZR z).
  assert (0 <= IZR z) by (apply IZR_le; assumption).
  apply py_int_mono; lra.
Qed.

(** A traffic so heavy that the blocking stays above [1 - n / a]. *)
Lemma B_rec_lower_bound (a : R) (k : nat) :
  0 < a -> 1 - IZR (Z.of_nat k) / a <= B_rec a k.
Proof.
  intros Ha. destruct (B_rec_inv a k ltac:(lra)) as [_ H].
  assert (IZR (Z.of_nat k) / a >= 1 - B_rec a k); [| lra].
  apply Rle_ge. apply div_ge_iff; [assumption |]. lra.
Qed.

Lemma failure_policies_witness :
  nb_agents 3600 2 0 235926000
    = Raise (CalculationError (Some (CalculationError None))) /\
  number_trunks 65535 1000000000
    = Raise (CalculationError (Some (CalculationError None))) /\
  service_time 3600 1 (8 / 10) 0 180
    = Raise (CalculationError (Some (CalculationError None))) /\
  (erlang_b (-1) 2 = Ok 0 /\ engset_b (-1) 5 2 = Ok 0 /\ erlang_c (-1) 2 = Ok 0).
Proof.
  destruct (failure_policies 3600) as (Hnb & Hnt & Hst & Hneg).
  split; [| split; [| split]].
  - apply Hnb; [lra | lra | lia |].
    intros count Hcount.
    assert (H1 : 1 <= IZR count) by (apply IZR_le; lia).
    assert (H2 : IZR count <= 65535) by (apply IZR_le; lia).
    rewrite asa_overload; [| lra | assumption | lia | lra].
    eexists. split; [reflexivity |].
    apply (Rlt_le_trans _ (IZR 60000)); [lra |]. apply IZR_le.
    apply secs_lower_bound; [lia |]. unfold default_interval.
    assert (Hden : 0 < IZR count * (3600 / 235926000) * (1 - 99 / 100)) by nra.
    apply (Rmult_le_reg_r (IZR count * (3600 / 235926000) * (1 - 99 / 100)));
      [assumption |].
    replace (1 / (IZR count * (3600 / 235926000) * (1 - 99 / 100)) * 600
             * (IZR count * (3600 / 235926000) * (1 - 99 / 100)))
      with 600 by (field; lra).
    nra.
  - apply Hnt; [lra | lra |].
    assert (Hceil : int_ceiling 65535 = 65535%Z).
    { unfold int_ceiling. rewrite Rltb_false by lra. apply py_int_unique; lra. }
    rewrite Hceil. intros count Hcount.
    assert (count = 65535%Z) as -> by lia.
    rewrite erlang_b_rec by lra. eexists. split; [reflexivity |].
    rewrite (py_int_IZR 65535).
    pose proof (B_rec_lower_bound 1000000000 (Z.to_nat 65535) ltac:(lra)) as Hb.
    rewrite Z2Nat.id in Hb by lia. lra.
  - apply (Hst 1 (8 / 10) 0 180%Z 0); [lra | lra | lra | lra | lia | | lra].
    replace (0 / (3600 / 180)) with 0 by lra.
    apply erlang_c_zero_traffic. lra.
  - apply (Hneg (-1) 5 2). left. lra.
Defined.

(** ** The first step size of [traffic] *)


Lemma traffic_incr_power (fuel : nat) (max_i : R) (k : nat) (incr : R) :
  traffic_incr fuel max_i (10 ^ k) = Ok incr ->
  (k = 0%nat \/ 10 ^ k / 10 <= max_i / 100) ->
  smallest_power_of_ten_above incr (max_i / 100).
Proof.
  revert k. induction fuel as [| fuel IH]; intros k H Hk.
  - cbn [traffic_incr] in H. destruct (Rleb_spec (10 ^ k) (max_i / 100)).
    + discriminate.
    + ok_inv H. exists k. repeat split; [lra | assumption].
  - cbn [traffic_incr] in H. destruct (Rleb_spec (10 ^ k) (max_i / 100)).
    + apply (IH (S k)).
      * cbn [pow]. rewrite Rmult_comm. exact H.
      * right. cbn [pow]. lra.
    + ok_inv H. exists k. repeat split; [lra | assumption].
Qed.

Lemma traffic_bounds_ok (fuel : nat) (servers blocking max_i incr : R) :
  traffic_bounds fuel servers blocking = Ok (max_i, incr) ->
  exists b m,
    erlang_b servers (IZR (py_int servers)) = Ok b /\
    traffic_double fuel servers blocking (IZR (py_int servers)) b = Ok m /\
    m = max_i /\
    traffic_incr fuel max_i 1 = Ok incr.
Proof.
  unfold traffic_bounds. intros H. do 3 bind_inv H. ok_inv H.
  eexists _, _. repeat split; eassumption.
Qed.

(** C6, as the code has it.  [traffic] returns 0 when [servers < 1] or
    [blocking < 0]; otherwise it calls [looping_traffic] with the upper
    bound found by doubling and with a first step that is the smallest
    power of ten [10^k], [k >= 0], strictly greater than
    [upperBound / 100]. *)
Theorem traffic_first_step (fuel : nat) (servers blocking : R) :
  (servers < 1 \/ blocking < 0 -> traffic fuel servers blocking = Ok 0) /\
  (1 <= servers -> 0 <= blocking ->
   traffic fuel servers blocking
   = ('(max_i, incr) <- traffic_bounds fuel servers blocking ;;
      looping_traffic (IZR (py_int servers)) blocking incr max_i 0)) /\
  (forall max_i incr,
     traffic_bounds fuel servers blocking = Ok (max_i, incr) ->
     smallest_power_of_ten_above incr (max_i / 100)).
Proof.
  split; [| split].
  - intros H. unfold traffic.
    destruct (Rltb_spec servers 1); [reflexivity |].
    rewrite (Rltb_true blocking 0) by lra. reflexivity.
  - intros Hs Hb. unfold traffic.
    rewrite (Rltb_false servers 1), (Rltb_false blocking 0) by assumption.
    reflexivity.
  - intros max_i incr H.
    apply traffic_bounds_ok in H. destruct H as (b & m & _ & _ & _ & H).
    apply (traffic_incr_power fuel max_i 0 incr); [exact H | left; reflexivity].
Qed.

Lemma traffic_bounds_example : traffic_bounds 1 100 (5 / 100) = Ok (100, 10).
Proof.
  unfold traffic_bounds. rewrite (py_int_IZR 100).
  rewrite erlang_b_rec by lra. cbn [bind]. rewrite (py_int_IZR 100).
  change (Z.to_nat 100) with 100%nat.
  B_value 100%Z 100%nat.
  cbn [traffic_double]. rewrite Rltb_false by (rewrite HB; lra). cbn [bind].
  cbn [traffic_incr]. py_eval.
  replace (1 * 10) with 10 by lra. reflexivity.
Qed.

Lemma traffic_first_step_witness :
  traffic 1 0 (1 / 2) = Ok 0 /\
  traffic 1 100 (5 / 100)
  = ('(max_i, incr) <- traffic_bounds 1 100 (5 / 100) ;;
     looping_traffic (IZR (py_int 100)) (5 / 100) incr max_i 0) /\
  smallest_power_of_ten_above 10 (100 / 100).
Proof.
  split; [| split].
  - apply (proj1 (traffic_first_step 1 0 (1 / 2))). left. lra.
  - apply (proj1 (proj2 (traffic_first_step 1 100 (5 / 100)))); lra.
  - apply (proj2 (proj2 (traffic_first_step 1 100 (5 / 100))) 100 10).
    exact traffic_bounds_example.
Defined.

(** C6, as the specification has it, fails: for 100 servers and a target
    blocking of 0.05 the upper bound is 100 (the blocking at 100 erlangs
    is already above the target) and the step is 10, which is not below
    [100 / 100]. *)
Lemma traffic_first_step_not_below :
  traffic_bounds 1 100 (5 / 100) = Ok (100, 10)
  /\ ~ largest_power_of_ten_below 10 (100 / 100).
Proof.
  split; [exact traffic_bounds_example |].
  intros (_ & H & _). lra.
Qed.

(** ** Termination of the search loops *)


Lemma ok_terminates {A : Type} (a : A) : terminates (Ok a).
Proof. discriminate. Qed.

Lemma raise_terminates {A : Type} (e : exn) : terminates (@Raise A e).
Proof. discriminate. Qed.

Lemma bind_terminates {A B : Type} (c : result A) (k : A -> result B) :
  terminates c -> (forall a, c = Ok a -> terminates (k a)) -> terminates (bind c k).
Proof.
  unfold terminates. destruct c; cbn [bind]; intros Hc Hk.
  - apply Hk. reflexivity.
  - discriminate.
  - contradiction.
Qed.

Lemma try_calc_terminates {A : Type} (c : result A) :
  terminates c -> terminates (try_calc c).
Proof. unfold terminates. destruct c; cbn [try_calc]; intros H; congruence. Qed.

Lemma fdiv_terminates (x y : R) : terminates (fdiv x y).
Proof. unfold fdiv. destruct (y =? 0); discriminate. Qed.

Ltac term_step :=
  first
    [ apply ok_terminates
    | apply raise_terminates
    | apply fdiv_terminates
    | apply try_calc_terminates
    | apply bind_terminates; [ | intros ? ? ] ].

Lemma iterate_b_terminates (step : Z -> R -> result R) (n : nat) (count : Z)
    (b : option R) (last : R) :
  (forall c l, terminates (step c l)) ->
  terminates (iterate_b step n count b last).
Proof.
  intros Hstep. revert count b last.
  induction n as [| n IH]; intros count b last; cbn [iterate_b].
  - apply ok_terminates.
  - apply bind_terminates; [apply Hstep | intros; apply IH].
Qed.

Lemma read_local_terminates (b : option R) : terminates (read_local b).
Proof. destruct b; discriminate. Qed.

Lemma erlang_b_terminates (servers intensity : R) :
  terminates (erlang_b servers intensity).
Proof.
  unfold erlang_b. destruct (_ || _); [apply ok_terminates |].
  apply bind_terminates.
  - apply iterate_b_terminates. intros. apply fdiv_terminates.
  - intros. apply bind_terminates; [apply read_local_terminates |].
    intros. apply ok_terminates.
Qed.

Lemma erlang_c_terminates (servers intensity : R) :
  terminates (erlang_c servers intensity).
Proof.
  destruct (erlang_c_total servers intensity) as (r & -> & H).
  destruct r; [discriminate | discriminate | contradiction].
Qed.

(** The digit loop stops within its [MAX_LOOPS] rounds. *)
Lemma looping_traffic_terminates (trunks blocking increment max_intensity
    min_intensity : R) :
  terminates (looping_traffic trunks blocking increment max_intensity min_intensity).
Proof.
  unfold looping_traffic. generalize MAX_LOOPS as n.
  generalize min_intensity at 2 as intensity.
  revert increment max_intensity min_intensity.
  intros increment max_intensity min_i intensity n.
  revert increment max_intensity min_i intensity.
  induction n as [| n IH]; intros; cbn [looping_traffic_loop].
  - apply ok_terminates.
  - destruct (_ >=? _); [| apply ok_terminates].
    apply bind_terminates; [apply erlang_b_terminates |].
    intros b _. destruct (b >? blocking); apply IH.
Qed.

Lemma asa_terminates (INTERVAL agents calls_per_hour : R) (aht : Z) :
  terminates (asa INTERVAL agents calls_per_hour aht).
Proof.
  unfold asa. destruct (_ || _); [apply raise_terminates |].
  repeat term_step. apply erlang_c_terminates.
Qed.

(** The search of [nb_agents] stops within its 65535 rounds. *)
Lemma nb_agents_terminates (INTERVAL calls_ph avg_sa : R) (avg_ht : Z) :
  terminates (nb_agents INTERVAL calls_ph avg_sa avg_ht).
Proof.
  unfold nb_agents. destruct (_ || _); [apply raise_terminates |].
  apply try_calc_terminates. cbv zeta.
  generalize (Z.to_nat (65535 + 1 - 1)) as n. generalize 1%Z as count.
  intros count n. revert count.
  induction n as [| n IH]; intros count; cbn [nb_agents_loop].
  - apply raise_terminates.
  - apply bind_terminates; [apply asa_terminates |].
    intros a _. destruct (_ <=? _); [apply ok_terminates | apply IH].
Qed.

(** The search of [number_trunks] stops within its 65535 rounds. *)
Lemma number_trunks_terminates (servers intensity : R) :
  terminates (number_trunks servers intensity).
Proof.
  unfold number_trunks. destruct (_ || _); [apply raise_terminates |].
  apply try_calc_terminates. cbv zeta.
  generalize (Z.to_nat (65535 + 1 - int_ceiling servers)) as n.
  generalize (int_ceiling servers) as count.
  intros count n. revert count.
  induction n as [| n IH]; intros count; cbn [number_trunks_loop].
  - apply raise_terminates.
  - apply bind_terminates; [apply erlang_b_terminates |].
    intros b _. destruct (_ <? _); [apply ok_terminates | apply IH].
Qed.

(** The utilisation loop that precedes every ladder needs at most one
    round: the first estimate is the traffic rounded to the nearest
    integer, so one more agent already exceeds the traffic. *)
Lemma raise_agents_one_round (fuel : nat) (traffic_rate : R) (no_agents : Z)
    (utilisation : R) :
  (1 <= fuel)%nat -> (1 <= no_agents)%Z -> traffic_rate < IZR no_agents + 1 ->
  exists n u,
    raise_agents fuel traffic_rate no_agents utilisation = Ok (n, u) /\
    (no_agents <= n <= no_agents + 1)%Z.
Proof.
  intros Hf Hn Ht. destruct fuel as [| fuel]; [lia |].
  cbn [raise_agents]. destruct (Rleb_spec 1 utilisation) as [Hu | Hu].
  - assert (Hpos : 0 < IZR (no_agents + 1)) by (apply IZR_lt; lia).
    rewrite fdiv_ok by lra. cbn [bind].
    assert (Hlt : traffic_rate / IZR (no_agents + 1) < 1).
    { apply div_lt_iff; [assumption |]. rewrite plus_IZR. lra. }
    exists (no_agents + 1)%Z, (traffic_rate / IZR (no_agents + 1)). split; [| lia].
    destruct fuel; cbn [raise_agents]; rewrite Rleb_false by assumption; reflexivity.
  - exists no_agents, utilisation. split; [reflexivity | lia].
Qed.

Lemma first_agents_terminates (INTERVAL : R) (fuel : nat) (calls_per_hour : R)
    (aht : Z) :
  (1 <= fuel)%nat -> (0 < aht)%Z ->
  terminates (first_agents INTERVAL fuel calls_per_hour aht).
Proof.
  intros Hf Haht. unfold first_agents.
  assert (Haht0 : IZR aht <> 0) by (apply Rgt_not_eq, IZR_lt; assumption).
  apply bind_terminates; [apply fdiv_terminates |]. intros death_rate Ed.
  apply fdiv_inv in Ed. destruct Ed as [_ ->].
  apply bind_terminates; [apply fdiv_terminates |]. intros traffic_rate Et.
  apply fdiv_inv in Et. destruct Et as [Hd ->].
  apply bind_terminates; [apply fdiv_terminates |]. intros e Ee.
  apply fdiv_inv in Ee. destruct Ee as [HI ->].
  assert (Hsame : calls_per_hour * IZR aht / INTERVAL
                  = calls_per_hour / (INTERVAL / IZR aht)) by (field; split; assumption).
  rewrite Hsame. set (t := calls_per_hour / (INTERVAL / IZR aht)).
  set (erlangs := py_int (t + 5 / 10)).
  set (n0 := if (erlangs <? 1)%Z then 1%Z else erlangs).
  assert (Hn0 : (1 <= n0)%Z /\ t < IZR n0 + 1).
  { unfold n0. destruct (Z.ltb_spec erlangs 1) as [Hlt | Hge].
    - split; [lia |].
      destruct (Rlt_dec (t + 5 / 10) 0) as [Hneg | Hnn]; [lra |].
      destruct (py_int_floor (t + 5 / 10) ltac:(lra)) as [_ Hup]. fold erlangs in Hup.
      assert (IZR erlangs <= 0) by (apply IZR_le; lia). lra.
    - split; [assumption |].
      destruct (Rlt_dec (t + 5 / 10) 0) as [Hneg | Hnn].
      + assert (1 <= IZR erlangs) by (apply IZR_le; assumption). lra.
      + destruct (py_int_floor (t + 5 / 10) ltac:(lra)) as [_ Hup]. fold erlangs in Hup.
        lra. }
  destruct Hn0 as [Hn1 Hn2].
  apply bind_terminates; [apply fdiv_terminates |]. intros u _.
  destruct (raise_agents_one_round fuel t n0 u Hf Hn1 Hn2) as (n & u' & -> & _).
  cbn [bind]. apply ok_terminates.
Qed.

Lemma Zleb_guard_terminates {A : Type} (g : bool) (aht : Z) (c : result A) :
  ((0 < aht)%Z -> terminates c) ->
  terminates (if g || (aht <=? 0)%Z then Raise InputValidationError else c).
Proof.
  intros H. destruct g; cbn [orb]; [apply raise_terminates |].
  destruct (Z.leb_spec aht 0); [apply raise_terminates | apply H; assumption].
Qed.

Lemma required_ladder_terminates (MAX_ACCURACY : R) (n : nat) (sla : R)
    (service_time aht : Z) (traffic_rate : R) (no_agents : Z) :
  terminates (required_ladder MAX_ACCURACY n sla service_time aht traffic_rate
                no_agents).
Proof.
  revert no_agents. induction n as [| n IH]; intros no_agents; cbn [required_ladder].
  - apply ok_terminates.
  - apply bind_terminates; [apply fdiv_terminates |]. intros u _.
    destruct (u <? 1); [| apply IH].
    apply bind_terminates; [apply erlang_c_terminates |]. intros c _.
    apply bind_terminates; [apply fdiv_terminates |]. intros x _.
    cbv zeta. destruct (_ || _); [apply ok_terminates | apply IH].
Qed.

(** The ladder of [agents_required] adds at most one agent per round. *)
Lemma required_ladder_bound (MAX_ACCURACY : R) (n : nat) (sla : R)
    (service_time aht : Z) (traffic_rate : R) (no_agents r : Z) :
  required_ladder MAX_ACCURACY n sla service_time aht traffic_rate no_agents = Ok r ->
  (no_agents <= r <= no_agents + Z.of_nat n)%Z.
Proof.
  revert no_agents. induction n as [| n IH]; intros no_agents; cbn [required_ladder].
  - intros H. ok_inv H. lia.
  - intros H. bind_inv H. destruct (_ <? 1).
    + bind_inv H. bind_inv H. cbv zeta in H. destruct (_ || _).
      * ok_inv H. lia.
      * apply IH in H. lia.
    + apply IH in H. lia.
Qed.

Lemma agents_required_terminates (INTERVAL MAX_ACCURACY : R) (fuel : nat)
    (sla : R) (service_time : Z) (calls_per_hour : R) (aht : Z) :
  (1 <= fuel)%nat ->
  terminates (agents_required INTERVAL MAX_ACCURACY fuel sla service_time
                calls_per_hour aht).
Proof.
  intros Hf. unfold agents_required. apply Zleb_guard_terminates. intros Haht.
  apply try_calc_terminates. cbv zeta.
  apply bind_terminates; [apply first_agents_terminates; assumption |].
  intros [[[d t] n] u] _. apply required_ladder_terminates.
Qed.

Lemma asa_ladder_terminates (INTERVAL : R) (n : nat)
    (asa_target death_rate traffic_rate utilisation : R) (no_agents : Z) :
  terminates (asa_ladder INTERVAL n asa_target death_rate traffic_rate utilisation
                no_agents).
Proof.
  revert no_agents. induction n as [| n IH]; intros no_agents; cbn [asa_ladder].
  - apply ok_terminates.
  - apply bind_terminates; [apply erlang_c_terminates |]. intros c _.
    apply bind_terminates; [apply fdiv_terminates |]. intros x _.
    destruct (_ <=? _); [apply ok_terminates | apply IH].
Qed.

Lemma agents_asa_terminates (INTERVAL : R) (fuel : nat)
    (asa_target calls_per_hour : R) (aht : Z) :
  (1 <= fuel)%nat ->
  terminates (agents_asa INTERVAL fuel asa_target calls_per_hour aht).
Proof.
  intros Hf. unfold agents_asa. apply Zleb_guard_terminates. intros Haht.
  apply try_calc_terminates.
  apply bind_terminates; [apply first_agents_terminates; assumption |].
  intros [[[d t] n] u] _. apply asa_ladder_terminates.
Qed.

Lemma fractional_ladder_terminates (MAX_ACCURACY : R) (n : nat) (sla : R)
    (service_time aht : Z) (traffic_rate : R) (no_agents : Z)
    (sl_queued last_slq : R) :
  terminates (fractional_ladder MAX_ACCURACY n sla service_time aht traffic_rate
                no_agents sl_queued last_slq).
Proof.
  revert no_agents sl_queued last_slq.
  induction n as [| n IH]; intros no_agents sl_queued last_slq;
    cbn [fractional_ladder].
  - apply ok_terminates.
  - apply bind_terminates; [apply fdiv_terminates |]. intros u _.
    destruct (u <? 1); [| apply IH].
    apply bind_terminates; [apply erlang_c_terminates |]. intros c _.
    apply bind_terminates; [apply fdiv_terminates |]. intros x _.
    cbv zeta. destruct (_ || _); [apply ok_terminates | apply IH].
Qed.

Lemma interpolate_terminates (sla : R) (no_agents : Z) (sl_queued last_slq : R) :
  terminates (interpolate sla no_agents sl_queued last_slq).
Proof.
  unfold interpolate. destruct (_ >? _); [| apply ok_terminates].
  apply bind_terminates; [apply fdiv_terminates |]. intros. apply ok_terminates.
Qed.

Lemma fractional_agents_terminates (INTERVAL MAX_ACCURACY : R) (fuel : nat)
    (sla : R) (service_time : Z) (calls_per_hour : R) (aht : Z) :
  (1 <= fuel)%nat ->
  terminates (fractional_agents INTERVAL MAX_ACCURACY fuel sla service_time
                calls_per_hour aht).
Proof.
  intros Hf. unfold fractional_agents.
  destruct (_ || _) eqn:Eg; [apply raise_terminates |].
  apply orb_false_iff in Eg. destruct Eg as [Eg _].
  apply orb_false_iff in Eg. destruct Eg as [_ Eg].
  apply Z.leb_gt in Eg.
  apply try_calc_terminates. cbv zeta.
  apply bind_terminates; [apply first_agents_terminates; assumption |].
  intros [[[d t] n] u] _.
  apply bind_terminates; [apply fractional_ladder_terminates |].
  intros [[n' s] l] _. apply interpolate_terminates.
Qed.

(** The loop of [call_capacity] takes one call away per round. *)
Lemma capacity_loop_terminates (INTERVAL MAX_ACCURACY : R) (fuel : nat) (sla : R)
    (service_time aht : Z) (x_no_agent calls x_agent : Z) :
  (calls <= Z.of_nat fuel)%Z ->
  terminates (capacity_loop INTERVAL MAX_ACCURACY fuel sla service_time aht
                x_no_agent calls x_agent).
Proof.
  revert calls x_agent. induction fuel as [| fuel IH]; intros calls x_agent Hc.
  - cbn [capacity_loop]. destruct (Z.gtb_spec calls 0); [lia |].
    rewrite andb_false_r. apply ok_terminates.
  - cbn [capacity_loop]. destruct (_ && _); [| apply ok_terminates].
    apply bind_terminates; [apply agents_required_terminates; lia |].
    intros x _. apply IH. lia.
Qed.

Lemma call_capacity_terminates (INTERVAL MAX_ACCURACY : R) (fuel : nat)
    (no_agents sla : R) (service_time aht : Z) :
  (1 <= fuel)%nat ->
  (int_ceiling (INTERVAL / IZR aht) * py_int no_agents <= Z.of_nat fuel)%Z ->
  terminates (call_capacity INTERVAL MAX_ACCURACY fuel no_agents sla service_time
                aht).
Proof.
  intros Hf Hc. unfold call_capacity. destruct (_ || _); [apply raise_terminates |].
  apply try_calc_terminates. cbv zeta.
  apply bind_terminates; [apply fdiv_terminates |]. intros d Ed.
  apply fdiv_inv in Ed. destruct Ed as [_ ->].
  apply bind_terminates; [apply agents_required_terminates; assumption |].
  intros x _.
  apply bind_terminates; [apply capacity_loop_terminates; assumption |].
  intros; apply ok_terminates.
Qed.

(** *** The doubling loop of [traffic] *)

Lemma B_rec_lt_1 (a : R) (k : nat) : 0 <= a -> B_rec a (S k) < 1.
Proof.
  intros Ha. destruct (B_rec_inv a k Ha) as [[H0 _] _].
  assert (Hk := IZR_nat_nonneg k).
  cbn [B_rec]. rewrite IZR_succ_nat.
  apply div_lt_iff; nra.
Qed.

Lemma servers_count (servers : R) :
  1 <= servers ->
  exists N, Z.to_nat (py_int servers) = S N
            /\ IZR (py_int servers) = IZR (Z.of_nat (S N))
            /\ 1 <= IZR (py_int servers).
Proof.
  intros Hs. pose proof (py_int_ge_1 servers Hs) as Hn.
  destruct (Z.to_nat (py_int servers)) as [| N] eqn:E; [lia |].
  exists N. split; [reflexivity |]. split.
  - rewrite <- E, Z2Nat.id by lia. reflexivity.
  - apply IZR_le. assumption.
Qed.

(** No finite traffic blocks every call: against a target of 1 or more
    the doubling never stops. *)
Lemma traffic_double_diverges (fuel : nat) (servers blocking max_i b : R) :
  1 <= servers -> 1 <= blocking -> 0 <= max_i -> b < 1 ->
  traffic_double fuel servers blocking max_i b = OutOfFuel.
Proof.
  intros Hs Hb. revert max_i b.
  induction fuel as [| fuel IH]; intros max_i b Hm Hlt; cbn [traffic_double].
  - rewrite Rltb_true by lra. reflexivity.
  - rewrite Rltb_true by lra.
    rewrite erlang_b_rec by lra. cbn [bind].
    destruct (servers_count servers Hs) as (N & -> & _).
    apply IH; [lra | apply B_rec_lt_1; lra].
Qed.

Lemma traffic_diverges (fuel : nat) (servers blocking : R) :
  1 <= servers -> 1 <= blocking -> traffic fuel servers blocking = OutOfFuel.
Proof.
  intros Hs Hb. unfold traffic.
  rewrite (Rltb_false servers 1), (Rltb_false blocking 0) by lra. cbn [orb].
  unfold traffic_bounds.
  destruct (servers_count servers Hs) as (N & EN & _ & Hn).
  rewrite erlang_b_rec by lra. cbn [bind]. rewrite EN.
  rewrite traffic_double_diverges; [reflexivity | lra | lra | lra |].
  apply B_rec_lt_1. lra.
Qed.

Lemma pow_exceeds (x b : R) : 1 < x -> exists d : nat, b < x ^ d.
Proof.
  intros Hx.
  destruct (Pow_x_infinity x) with (b := b + 1) as [N HN].
  { rewrite Rabs_pos_eq by lra. lra. }
  exists N. specialize (HN N (le_n N)).
  rewrite Rabs_pos_eq in HN by (apply pow_le; lra). lra.
Qed.

Lemma erlang_b_returns (servers a : R) :
  1 <= servers -> exists b, erlang_b servers a = Ok b.
Proof.
  intros Hs. destruct (Rlt_dec a 0) as [Ha | Ha].
  - exists 0. apply erlang_b_negative. right. assumption.
  - eexists. apply erlang_b_rec; lra.
Qed.

Lemma looping_traffic_returns (trunks blocking increment max_intensity
    min_intensity : R) :
  1 <= trunks ->
  exists v, looping_traffic trunks blocking increment max_intensity min_intensity
            = Ok v.
Proof.
  intros Ht. unfold looping_traffic. generalize MAX_LOOPS as n.
  generalize min_intensity at 2 as intensity.
  intros intensity n. revert increment max_intensity min_intensity intensity.
  induction n as [| n IH]; intros; cbn [looping_traffic_loop].
  - eexists. reflexivity.
  - destruct (_ >=? _); [| eexists; reflexivity].
    destruct (erlang_b_returns trunks intensity Ht) as [b ->]. cbn [bind].
    destruct (b >? blocking); apply IH.
Qed.

(** The doubling stops as soon as the blocking at the candidate reaches
    the target, [d] doublings ahead at the latest. *)
Lemma traffic_double_stops (servers blocking n : R) (N d j fuel : nat) :
  1 <= servers -> 0 < n -> Z.to_nat (py_int servers) = N ->
  (d <= fuel)%nat -> blocking <= B_rec (n * 2 ^ (j + d)) N ->
  exists m,
    traffic_double fuel servers blocking (n * 2 ^ j) (B_rec (n * 2 ^ j) N) = Ok m
    /\ 0 < m.
Proof.
  intros Hs Hn EN. revert j fuel. induction d as [| d IH]; intros j fuel Hf Hb.
  - rewrite Nat.add_0_r in Hb.
    assert (Hp : 0 < n * 2 ^ j) by (apply Rmult_lt_0_compat; [lra | apply pow_lt; lra]).
    exists (n * 2 ^ j). split; [| assumption].
    destruct fuel; cbn [traffic_double]; rewrite Rltb_false by assumption; reflexivity.
  - assert (Hp : 0 < n * 2 ^ j) by (apply Rmult_lt_0_compat; [lra | apply pow_lt; lra]).
    destruct fuel as [| fuel]; [lia |]. cbn [traffic_double].
    destruct (_ <? blocking); [| exists (n * 2 ^ j); split; [reflexivity | assumption]].
    rewrite erlang_b_rec by nra. cbn [bind]. rewrite EN.
    replace (n * 2 ^ j * 2) with (n * 2 ^ (S j)) by (cbn [pow]; ring).
    apply IH; [lia |]. replace (S j + d)%nat with (j + S d)%nat by lia. assumption.
Qed.

Lemma traffic_incr_stops (max_i : R) (d k fuel : nat) :
  (d <= fuel)%nat -> max_i / 100 < 10 ^ (k + d) ->
  exists incr, traffic_incr fuel max_i (10 ^ k) = Ok incr.
Proof.
  revert k fuel. induction d as [| d IH]; intros k fuel Hf Hb.
  - rewrite Nat.add_0_r in Hb. exists (10 ^ k).
    destruct fuel; cbn [traffic_incr]; rewrite Rleb_false by assumption; reflexivity.
  - destruct fuel as [| fuel]; [lia |]. cbn [traffic_incr].
    destruct (_ <=? _); [| eexists; reflexivity].
    replace (10 ^ k * 10) with (10 ^ (S k)) by (cbn [pow]; ring).
    apply IH; [lia |]. replace (S k + d)%nat with (k + S d)%nat by lia. assumption.
Qed.

(** Against a target below 1 the doubling reaches it, and [traffic]
    returns once the fuel covers the doublings and the step search. *)
Lemma traffic_returns (servers blocking : R) :
  1 <= servers -> 0 <= blocking < 1 ->
  exists fuel0, forall fuel, (fuel0 <= fuel)%nat ->
    exists v, traffic fuel servers blocking = Ok v.
Proof.
  intros Hs Hb.
  destruct (servers_count servers Hs) as (N & EN & EZ & Hn).
  set (n := IZR (py_int servers)) in *.
  destruct (pow_exceeds 2 (1 / (1 - blocking)) ltac:(lra)) as [d Hd].
  assert (Hreach : blocking <= B_rec (n * 2 ^ (0 + d)) (S N)).
  { cbn [Nat.add].
    assert (Hp : 0 < 2 ^ d) by (apply pow_lt; lra).
    pose proof (B_rec_lower_bound (n * 2 ^ d) (S N) ltac:(nra)) as Hlow.
    rewrite <- EZ in Hlow. fold n in Hlow.
    replace (n / (n * 2 ^ d)) with (1 / 2 ^ d) in Hlow by (field; lra).
    apply div_lt_iff in Hd; [| lra].
    assert (1 / 2 ^ d <= 1 - blocking); [| lra].
    apply div_le_iff; [assumption |]. lra. }
  assert (Hdouble : forall fuel, (d <= fuel)%nat ->
    exists m, traffic_double fuel servers blocking n (B_rec n (S N)) = Ok m /\ 0 < m).
  { intros fuel Hf.
    destruct (traffic_double_stops servers blocking n (S N) d 0 fuel Hs ltac:(lra) EN Hf Hreach)
      as (m & Hm & Hpos).
    cbn [pow] in Hm. rewrite Rmult_1_r in Hm. exists m. split; assumption. }
  destruct (Hdouble d (le_n d)) as (m & Hm & Hmpos).
  destruct (pow_exceeds 10 (m / 100) ltac:(lra)) as [e He].
  exists (Nat.max d e). intros fuel Hfuel.
  destruct (Hdouble fuel ltac:(lia)) as (m' & Hm' & _).
  assert (m' = m) as ->.
  { clear - Hm Hm' Hfuel Hs. revert Hm Hm'.
    generalize (B_rec n (S N)) as b. generalize n as mi. clear n.
    assert (Hmono : forall f1 f2 mi b r,
      (f1 <= f2)%nat -> traffic_double f1 servers blocking mi b = Ok r ->
      traffic_double f2 servers blocking mi b = Ok r).
    { induction f1 as [| f1 IH]; intros f2 mi b r Hle H1.
      - cbn [traffic_double] in H1. destruct (b <? blocking) eqn:Eb; [discriminate |].
        destruct f2; cbn [traffic_double]; rewrite Eb; assumption.
      - destruct f2 as [| f2]; [lia |]. cbn [traffic_double] in H1 |- *.
        destruct (b <? blocking); [| assumption].
        destruct (erlang_b servers (mi * 2)); cbn [bind] in H1 |- *; try discriminate.
        apply IH; [lia | assumption]. }
    intros mi b H1 H2. apply (Hmono d fuel) in H1; [| lia]. congruence. }
  destruct (traffic_incr_stops m e 0 fuel ltac:(lia) He) as [incr Hincr].
  cbn [pow] in Hincr.
  unfold traffic. rewrite (Rltb_false servers 1), (Rltb_false blocking 0) by lra.
  cbn [orb]. unfold traffic_bounds. fold n.
  rewrite erlang_b_rec by lra. cbn [bind]. rewrite EN, Hm'. cbn [bind].
  rewrite Hincr. cbn [bind].
  apply looping_traffic_returns. assumption.
Qed.

(** ** A worked staffing case: sla = 0.8, service time 20 s, 300 calls, AHT 180 s *)



Lemma exp_le_1 (x : R) : x <= 0 -> 0 < exp x <= 1.
Proof.
  intros Hx. split; [apply exp_pos |].
  destruct (Req_dec_T x 0) as [-> | Hne].
  - rewrite exp_0. lra.
  - left. rewrite <- exp_0. apply exp_increasing. lra.
Qed.

Lemma exp_ge_1 (x : R) : 0 <= x -> 1 <= exp x.
Proof. intros Hx. pose proof (exp_ineq1_le x). lra. Qed.

(** [exp x <= 1 / (1 - x)] below 1, from [exp (-x) >= 1 - x]. *)
Lemma exp_upper (x : R) : x < 1 -> exp x <= 1 / (1 - x).
Proof.
  intros Hx. pose proof (exp_ineq1_le (- x)) as H.
  rewrite exp_Ropp in H. pose proof (exp_pos x) as Hp.
  apply div_ge_iff; [lra |].
  assert (H1 : (1 - x) * exp x <= / exp x * exp x).
  { apply Rmult_le_compat_r; lra. }
  rewrite Rinv_l in H1 by lra. lra.
Qed.


Lemma service_level_unit (agents t st aht : R) :
  1 <= agents -> 0 <= t < agents -> 0 <= st -> 0 < aht ->
  0 <= service_level agents t st aht <= 1.
Proof.
  intros Hag Ht Hst Haht. unfold service_level.
  destruct (erlang_c_stable agents t Hag Ht) as [_ Hc].
  assert (Hx : (t - agents) * st / aht <= 0).
  { apply div_le_iff; [assumption |]. nra. }
  pose proof (exp_le_1 _ Hx) as He. nra.
Qed.

(** One round of the ladder of [fractional_agents] on a stable sample. *)
Lemma fractional_ladder_round (MAX_ACCURACY : R) (n : nat) (sla : R)
    (service_time aht : Z) (t : R) (N : Z) (slq last : R) :
  (1 <= N)%Z -> 0 <= t < IZR N -> (0 <= service_time)%Z -> (0 < aht)%Z ->
  let s := service_level (IZR N) t (IZR service_time) (IZR aht) in
  fractional_ladder MAX_ACCURACY (S n) sla service_time aht t N slq last
  = if (s >=? sla) || (s >? 1 - MAX_ACCURACY) then Ok (N, s, slq)
    else fractional_ladder MAX_ACCURACY n sla service_time aht t (N + 1)%Z s slq.
Proof.
  intros HN Ht Hst Haht s.
  assert (HNR : 1 <= IZR N) by (apply IZR_le; assumption).
  assert (HstR : 0 <= IZR service_time) by (apply IZR_le; assumption).
  assert (HahtR : 0 < IZR aht) by (apply IZR_lt; assumption).
  pose proof (service_level_unit (IZR N) t _ _ HNR Ht HstR HahtR) as Hs. fold s in Hs.
  cbn [fractional_ladder]. rewrite fdiv_ok by lra. cbn [bind].
  rewrite Rltb_true by (apply div_lt_iff; lra).
  destruct (erlang_c_stable (IZR N) t HNR Ht) as [-> _]. cbn [bind].
  rewrite fdiv_ok by lra. cbn [bind]. cbv zeta.
  change (1 - C_formula (IZR N) t * exp ((t - IZR N) * IZR service_time / IZR aht))
    with s.
  rewrite (Rltb_false s 0) by lra. rewrite (Rltb_false 1 s) by lra. reflexivity.
Qed.

(** [agents_required] and [fractional_agents] climb the same ladder: the
    extra clamp at 1 does not change where a target of at most 1 stops
    it. *)
Lemma ladders_agree (MAX_ACCURACY : R) (n : nat) (sla : R)
    (service_time aht : Z) (t : R) (N : Z) (slq last : R) :
  sla <= 1 ->
  required_ladder MAX_ACCURACY n sla service_time aht t N
  = (r <- fractional_ladder MAX_ACCURACY n sla service_time aht t N slq last ;;
     Ok (fst (fst r))).
Proof.
  intros Hsla. revert N slq last.
  induction n as [| n IH]; intros N slq last; cbn [required_ladder fractional_ladder].
  - reflexivity.
  - destruct (fdiv t (IZR N)) as [u | e |]; cbn [bind]; try reflexivity.
    destruct (u <? 1); [| apply IH].
    destruct (erlang_c (IZR N) t) as [c | e |]; cbn [bind]; try reflexivity.
    destruct (fdiv _ (IZR aht)) as [x | e |]; cbn [bind]; try reflexivity.
    cbv zeta. set (s := 1 - c * exp x).
    set (s0 := if s <? 0 then 0 else s).
    destruct (Rltb_spec 1 s0) as [Hbig | Hsmall].
    + rewrite (Rleb_true sla s0) by lra. rewrite (Rleb_true sla 1) by lra. reflexivity.
    + destruct (_ || _); [reflexivity | apply IH].
Qed.

Lemma sla_metric_stable (INTERVAL agents st calls_per_hour : R) (aht : Z) :
  0 < INTERVAL -> 1 <= agents -> 0 <= st -> (0 < aht)%Z ->
  0 <= calls_per_hour / (INTERVAL / IZR aht) < agents ->
  sla_metric INTERVAL agents st calls_per_hour aht
  = Ok (service_level agents (calls_per_hour / (INTERVAL / IZR aht)) st (IZR aht)).
Proof.
  intros HI Hag Hst Haht Ht. unfold sla_metric.
  pose proof (death_rate_pos INTERVAL aht HI Haht) as Hd.
  assert (HahtR : 0 < IZR aht) by (apply IZR_lt; assumption).
  assert (Hc : 0 <= calls_per_hour).
  { destruct Ht as [Ht _]. apply div_ge_iff in Ht; [| assumption]. lra. }
  rewrite (Rltb_false agents 0), (Rltb_false calls_per_hour 0), aht_guard,
    (Rltb_false st 0) by (assumption || lra).
  cbn [orb]. rewrite (fdiv_ok INTERVAL) by lra. cbn [bind].
  rewrite fdiv_ok by lra. cbn [bind]. rewrite fdiv_ok by lra. cbn [bind].
  destruct (erlang_c_stable agents _ Hag Ht) as [-> _]. cbn [bind].
  rewrite fdiv_ok by lra. cbn [bind try_calc]. f_equal.
  apply min_max_id. apply service_level_unit; assumption.
Qed.

Lemma sla_metric_overload (INTERVAL agents st calls_per_hour : R) (aht : Z) :
  0 < INTERVAL -> 1 <= agents -> 0 <= st -> (0 < aht)%Z ->
  agents <= calls_per_hour / (INTERVAL / IZR aht) ->
  sla_metric INTERVAL agents st calls_per_hour aht = Ok 0.
Proof.
  intros HI Hag Hst Haht Ht. unfold sla_metric.
  pose proof (death_rate_pos INTERVAL aht HI Haht) as Hd.
  assert (HahtR : 0 < IZR aht) by (apply IZR_lt; assumption).
  assert (Hc : 0 <= calls_per_hour).
  { apply div_ge_iff in Ht; [| assumption]. nra. }
  rewrite (Rltb_false agents 0), (Rltb_false calls_per_hour 0), aht_guard,
    (Rltb_false st 0) by (assumption || lra).
  cbn [orb]. rewrite (fdiv_ok INTERVAL) by lra. cbn [bind].
  rewrite fdiv_ok by lra. cbn [bind]. rewrite fdiv_ok by lra. cbn [bind].
  rewrite erlang_c_saturated by assumption. cbn [bind].
  rewrite fdiv_ok by lra. cbn [bind try_calc]. f_equal.
  apply min_max_below; [lra |].
  set (t := calls_per_hour / (INTERVAL / IZR aht)) in *.
  assert (Hx : 0 <= (t - agents) * st / IZR aht).
  { apply div_nonneg; [nra | assumption]. }
  pose proof (exp_ge_1 _ Hx). lra.
Qed.


Lemma case_sample_16 : service_level 16 15 20 180 < 8 / 10.
Proof.
  unfold service_level, C_formula. rewrite (py_int_IZR 16).
  change (Z.to_nat 16) with 16%nat. B_value 15%Z 16%nat. rewrite HB.
  pose proof (exp_ineq1_le ((15 - 16) * 20 / 180)) as He.
  set (e := exp _) in *. lra.
Qed.

Lemma case_sample_17 : service_level 17 15 20 180 < 8 / 10.
Proof.
  unfold service_level, C_formula. rewrite (py_int_IZR 17).
  change (Z.to_nat 17) with 17%nat. B_value 15%Z 17%nat. rewrite HB.
  pose proof (exp_ineq1_le ((15 - 17) * 20 / 180)) as He.
  set (e := exp _) in *. lra.
Qed.

Lemma case_sample_18 : service_level 18 15 20 180 < 8 / 10.
Proof.
  unfold service_level, C_formula. rewrite (py_int_IZR 18).
  change (Z.to_nat 18) with 18%nat. B_value 15%Z 18%nat. rewrite HB.
  pose proof (exp_ineq1_le ((15 - 18) * 20 / 180)) as He.
  set (e := exp _) in *. lra.
Qed.

Lemma case_sample_19 : 8 / 10 < service_level 19 15 20 180.
Proof.
  unfold service_level, C_formula. rewrite (py_int_IZR 19).
  change (Z.to_nat 19) with 19%nat. B_value 15%Z 19%nat. rewrite HB.
  pose proof (exp_upper ((15 - 19) * 20 / 180) ltac:(lra)) as He.
  pose proof (exp_pos ((15 - 19) * 20 / 180)) as Hp.
  set (e := exp _) in *. lra.
Qed.

Lemma case_first_agents (fuel : nat) :
  (1 <= fuel)%nat ->
  first_agents 3600 fuel 300 180 = Ok (20, 15, 16%Z, 15 / 16).
Proof.
  intros Hf. destruct fuel as [| fuel]; [lia |].
  unfold first_agents. py_eval.
  replace (300 * 180 / 3600 + 5 / 10) with (15 + 5 / 10) by lra.
  rewrite (py_int_unique (15 + 5 / 10) 15) by lra.
  py_eval. cbn [raise_agents]. py_eval.
  destruct fuel; cbn [raise_agents]; py_eval; repeat f_equal; lra.
Qed.

(** The ladder on the worked case: three samples below the target, at
    16, 17 and 18 agents, and a stop at 19. *)
Lemma case_fractional_ladder (MAX_ACCURACY : R) :
  MAX_ACCURACY <= 2 / 10 ->
  fractional_ladder MAX_ACCURACY (Z.to_nat (16 * 100)) (8 / 10) 20 180 15 16 0 0
  = Ok (19%Z, service_level 19 15 20 180, service_level 18 15 20 180).
Proof.
  intros HM.
  change (Z.to_nat (16 * 100)) with (S (S (S (S 1596%nat)))).
  pose proof case_sample_16. pose proof case_sample_17.
  pose proof case_sample_18. pose proof case_sample_19.
  rewrite fractional_ladder_round by (lia || lra). cbv zeta.
  rewrite (Rleb_false (8 / 10)), (Rltb_false (1 - MAX_ACCURACY)) by lra.
  cbn [orb]. change (16 + 1)%Z with 17%Z.
  rewrite fractional_ladder_round by (lia || lra). cbv zeta.
  rewrite (Rleb_false (8 / 10)), (Rltb_false (1 - MAX_ACCURACY)) by lra.
  cbn [orb]. change (17 + 1)%Z with 18%Z.
  rewrite fractional_ladder_round by (lia || lra). cbv zeta.
  rewrite (Rleb_false (8 / 10)), (Rltb_false (1 - MAX_ACCURACY)) by lra.
  cbn [orb]. change (18 + 1)%Z with 19%Z.
  rewrite fractional_ladder_round by (lia || lra). cbv zeta.
  rewrite (Rleb_true (8 / 10)) by lra. reflexivity.
Qed.

Lemma case_agents_required (MAX_ACCURACY : R) (fuel : nat) :
  MAX_ACCURACY <= 2 / 10 -> (1 <= fuel)%nat ->
  agents_required 3600 MAX_ACCURACY fuel (8 / 10) 20 300 180 = Ok 19%Z.
Proof.
  intros HM Hf. unfold agents_required. py_eval.
  rewrite case_first_agents by assumption. cbn [bind]. cbv zeta.
  unfold py_min. rewrite Rltb_false by lra.
  rewrite (ladders_agree MAX_ACCURACY _ (8 / 10) 20 180 15 16 0 0) by lra.
  rewrite case_fractional_ladder by assumption. reflexivity.
Qed.

Lemma case_sla_metric_stable (M : Z) :
  (16 <= M)%Z ->
  sla_metric 3600 (IZR M) 20 300 180 = Ok (service_level (IZR M) 15 20 180).
Proof.
  intros HM. assert (16 <= IZR M) by (apply IZR_le; assumption).
  rewrite sla_metric_stable; [| lra | lra | lra | lia |].
  - replace (300 / (3600 / 180)) with 15 by lra. reflexivity.
  - replace (300 / (3600 / 180)) with 15 by lra. lra.
Qed.

(** C1.  With an hourly interval (3600 s) and any accuracy threshold up
    to 0.2, [agents_required(0.8, 20, 300, 180)] returns 19, the least
    agent count whose service level meets the target:
    [sla_metric(19, 20, 300, 180) >= 0.8], [sla_metric(18, ...) < 0.8],
    and [sla_metric(M, ...) < 0.8] for every count [1 <= M < 19]. *)
Theorem agents_required_boundary (MAX_ACCURACY : R) (fuel : nat) :
  MAX_ACCURACY <= 2 / 10 -> (1 <= fuel)%nat ->
  agents_required 3600 MAX_ACCURACY fuel (8 / 10) 20 300 180 = Ok 19%Z /\
  (exists s, sla_metric 3600 (IZR 19) 20 300 180 = Ok s /\ 8 / 10 <= s) /\
  (exists s, sla_metric 3600 (IZR (19 - 1)) 20 300 180 = Ok s /\ s < 8 / 10) /\
  (forall M, (1 <= M < 19)%Z ->
     exists s, sla_metric 3600 (IZR M) 20 300 180 = Ok s /\ s < 8 / 10).
Proof.
  intros HM Hf.
  assert (Hbelow : forall M, (1 <= M < 19)%Z ->
    exists s, sla_metric 3600 (IZR M) 20 300 180 = Ok s /\ s < 8 / 10).
  { intros M HMr.
    assert (Hcases : (M <= 15 \/ M = 16 \/ M = 17 \/ M = 18)%Z) by lia.
    destruct Hcases as [Hlow | [-> | [-> | ->]]].
    - exists 0. split; [| lra].
      assert (1 <= IZR M <= 15) by (split; apply IZR_le; lia).
      apply sla_metric_overload; [lra | lra | lra | lia | lra].
    - eexists. split; [apply case_sla_metric_stable; lia | apply case_sample_16].
    - eexists. split; [apply case_sla_metric_stable; lia | apply case_sample_17].
    - eexists. split; [apply case_sla_metric_stable; lia | apply case_sample_18]. }
  split; [apply case_agents_required; assumption |].
  split; [| split; [| exact Hbelow]].
  - eexists. split; [apply case_sla_metric_stable; lia |].
    left. apply case_sample_19.
  - apply Hbelow. lia.
Qed.

Lemma agents_required_boundary_witness :
  agents_required 3600 (1 / 100000) 1 (8 / 10) 20 300 180 = Ok 19%Z.
Proof.
  apply (agents_required_boundary (1 / 100000) 1); [lra | lia].
Defined.

(** ** Fractional agents *)

(** The sample kept as [last_slq] never exceeds the target. *)
Lemma fractional_ladder_last (MAX_ACCURACY : R) (n : nat) (sla : R)
    (service_time aht : Z) (t : R) (N : Z) (slq last : R) (N' : Z) (s' l' : R) :
  slq <= sla -> last <= sla ->
  fractional_ladder MAX_ACCURACY n sla service_time aht t N slq last
  = Ok (N', s', l') ->
  l' <= sla.
Proof.
  revert N slq last. induction n as [| n IH]; intros N slq last Hs Hl;
    cbn [fractional_ladder].
  - intros H. ok_inv H. assumption.
  - intros H. bind_inv H. destruct (_ <? 1).
    + bind_inv H. bind_inv H. cbv zeta in H.
      match type of H with
      | (if (?a >=? sla) || _ then _ else _) = _ =>
          destruct (Rleb_spec sla a) as [Hge | Hlt]; cbn [orb] in H
      end.
      * ok_inv H. assumption.
      * destruct (_ >? _).
        -- ok_inv H. assumption.
        -- apply IH in H; [assumption | lra | assumption].
    + apply IH in H; assumption.
Qed.

Lemma interpolate_brackets (sla : R) (N : Z) (s l : R) :
  l <= sla ->
  exists y,
    interpolate sla N s l = Ok y /\
    IZR N - 1 <= y <= IZR N /\
    (s > sla -> y = (sla - l) / (s - l) + IZR (N - 1)) /\
    (s <= sla -> y = IZR N).
Proof.
  intros Hl. unfold interpolate. destruct (Rltb_spec sla s) as [Hgt | Hle].
  - rewrite fdiv_ok by lra. cbn [bind]. eexists. split; [reflexivity |].
    assert (Hq : 0 <= (sla - l) / (s - l) < 1).
    { split; [apply div_nonneg; lra | apply div_lt_iff; lra]. }
    rewrite minus_IZR. repeat split; lra.
  - eexists. split; [reflexivity |]. repeat split; lra.
Qed.

Lemma case_fractional_agents :
  fractional_agents 3600 (1 / 100000) 1 (8 / 10) 20 300 180
  = Ok ((8 / 10 - service_level 18 15 20 180)
        / (service_level 19 15 20 180 - service_level 18 15 20 180)
        + IZR (19 - 1)).
Proof.
  unfold fractional_agents. py_eval.
  rewrite case_first_agents by lia. cbn [bind]. cbv zeta.
  unfold py_min. rewrite Rltb_false by lra.
  rewrite case_fractional_ladder by lra. cbn [bind].
  pose proof case_sample_18. pose proof case_sample_19.
  unfold interpolate. rewrite Rltb_true by lra.
  rewrite fdiv_ok by lra. reflexivity.
Qed.

(** C5, as the specification has it, fails: [agents_required] returns
    the integer 19 on the worked case, so [[floor(x), ceil(x)]] is the
    single point 19, and [fractional_agents] returns a value strictly
    below 19. *)
Lemma fractional_agents_below_required :
  exists (x : Z) (y : R),
    agents_required 3600 (1 / 100000) 1 (8 / 10) 20 300 180 = Ok x /\
    fractional_agents 3600 (1 / 100000) 1 (8 / 10) 20 300 180 = Ok y /\
    ~ (IZR (Int_part (IZR x)) <= y <= IZR (- Int_part (- IZR x))).
Proof.
  eexists 19%Z, _. split; [apply case_agents_required; [lra | lia] |].
  split; [apply case_fractional_agents |].
  pose proof case_sample_18 as H18. pose proof case_sample_19 as H19.
  set (s18 := service_level 18 15 20 180) in *.
  set (s19 := service_level 19 15 20 180) in *.
  assert (Hq : (8 / 10 - s18) / (s19 - s18) < 1) by (apply div_lt_iff; lra).
  rewrite <- (Int_part_spec (IZR 19) 19) by lra.
  rewrite minus_IZR. intros [Hlo _]. lra.
Qed.

(** * Further properties of the code *)

(** ** utils.py: the clamp *)



(** ** calculations/erlang.py: the four evaluators *)



Lemma iterate_b_ext (step1 step2 : Z -> R -> result R) (n : nat) (count : Z)
    (b : option R) (last : R) :
  (forall c l, step1 c l = step2 c l) ->
  iterate_b step1 n count b last = iterate_b step2 n count b last.
Proof.
  intros H. revert count b last. induction n as [| n IH]; intros; cbn [iterate_b].
  - reflexivity.
  - rewrite H. destruct (step2 count last); cbn [bind]; try reflexivity. apply IH.
Qed.

Lemma erlang_b_ext_step_no_retry (a : R) (count : Z) (last : R) :
  erlang_b_ext_step a 0 count last = erlang_b_step a count last.
Proof.
  unfold erlang_b_ext_step, erlang_b_step.
  destruct (fdiv_cases (a * last) (IZR count + a * last)) as [[Hz ->] | [Hnz ->]].
  - reflexivity.
  - cbn [bind]. rewrite fdiv_ok by lra. cbn [bind].
    replace (1 / (1 - a * last / (IZR count + a * last) * 0)) with 1 by (field; lra).
    rewrite Rmult_1_r. rewrite fdiv_ok by assumption. reflexivity.
Qed.

(** X5.  Without retries the extended formula is Erlang B: for a retry
    fraction [<= 0] (clamped to 0), [erlang_b_ext] and [erlang_b] give
    the same result on every input, errors included. *)
Theorem erlang_b_ext_without_retry (servers intensity retry : R) :
  retry <= 0 ->
  erlang_b_ext servers intensity retry = erlang_b servers intensity.
Proof.
  intros Hr. unfold erlang_b_ext, erlang_b.
  destruct (_ || _); [reflexivity |]. cbv zeta.
  rewrite min_max_below by lra.
  rewrite (iterate_b_ext _ (erlang_b_step intensity)); [reflexivity |].
  intros. apply erlang_b_ext_step_no_retry.
Qed.

Lemma erlang_b_ext_without_retry_witness :
  erlang_b_ext 3 2 (-1) = erlang_b 3 2 /\ erlang_b_ext (1 / 2) 2 0 = erlang_b (1 / 2) 2.
Proof.
  split.
  - apply erlang_b_ext_without_retry. lra.
  - apply erlang_b_ext_without_retry. lra.
Defined.

(** When the population equals a server index [k], the loop divides by
    [(events - k) * intensity = 0] on reaching it. *)
Lemma iterate_b_engset_pole (val : R) (k : Z) (m n : nat) (count : Z)
    (ob : option R) (last : R) :
  0 < val -> (1 <= count)%Z -> (count + Z.of_nat m = k)%Z -> (m < n)%nat ->
  iterate_b (engset_b_step (IZR k) val) n count ob last = Raise ZeroDivisionError.
Proof.
  intros Hval. revert n count ob last.
  induction m as [| m IH]; intros n count ob last Hc Hk Hn.
  - destruct n as [| n]; [lia |]. cbn [iterate_b]. unfold engset_b_step at 1.
    replace count with k by lia.
    replace ((IZR k - IZR k) * val) with 0 by ring.
    rewrite fdiv_zero. reflexivity.
  - destruct n as [| n]; [lia |]. cbn [iterate_b]. unfold engset_b_step at 1.
    assert (Hlt : IZR count < IZR k) by (apply IZR_lt; lia).
    rewrite fdiv_ok by nra. cbn [bind].
    apply IH; lia.
Qed.

(** X7.  [engset_b] from one server on divides by zero when the
    intensity is 0, and when the population [events] equals one of the
    server indexes [1 .. floor servers]: the loop reaches the term
    [count / ((events - count) * intensity)] with a zero divisor. *)
Theorem engset_b_edges (servers events intensity : R) :
  1 <= servers ->
  (intensity = 0 ->
   engset_b servers events intensity = Raise ZeroDivisionError) /\
  (0 < intensity ->
   forall k : Z, (1 <= k <= py_int servers)%Z -> events = IZR k ->
   engset_b servers events intensity = Raise ZeroDivisionError).
Proof.
  intros Hs. destruct (servers_count servers Hs) as (N & EN & EZ & _).
  split.
  - intros ->. unfold engset_b.
    rewrite (Rltb_false servers 0), (Rltb_false 0 0) by lra. cbn [orb]. cbv zeta.
    rewrite EN. cbn [iterate_b]. unfold engset_b_step at 1.
    rewrite Rmult_0_r, fdiv_zero. reflexivity.
  - intros Hpos k Hk ->. unfold engset_b.
    rewrite (Rltb_false servers 0), (Rltb_false intensity 0) by lra. cbn [orb]. cbv zeta.
    rewrite (iterate_b_engset_pole intensity k (Z.to_nat (k - 1))); [reflexivity | | | |];
      try lia. assumption.
Qed.

Lemma engset_b_edges_witness :
  engset_b 3 10 0 = Raise ZeroDivisionError /\
  engset_b 3 (IZR 2) 1 = Raise ZeroDivisionError.
Proof.
  destruct (engset_b_edges 3 10 0 ltac:(lra)) as (H0 & _).
  destruct (engset_b_edges 3 (IZR 2) 1 ltac:(lra)) as (_ & Hk).
  split; [apply H0; reflexivity |].
  apply (Hk ltac:(lra) 2%Z); [rewrite (py_int_IZR 3); lia | reflexivity].
Defined.

(** X8.  [erlang_c] at its edges: it is 0 without traffic, from one
    server on; below one server it raises the [UnboundLocalError] of
    [erlang_b]; and under heavy overload the divisor
    [rho * b + (1 - rho)] cancels in binary64:
    [erlang_c(1.0, 1e16)] raises [ZeroDivisionError]. *)
Theorem erlang_c_edges (servers intensity : R) :
  (1 <= servers -> erlang_c servers 0 = Ok 0) /\
  (0 <= servers < 1 -> 0 <= intensity ->
   erlang_c servers intensity = Raise UnboundLocalError) /\
  Binary64.erlang_c 1 1e16 = Raise ZeroDivisionError.
Proof.
  split; [apply erlang_c_zero_traffic |].
  split; [apply erlang_c_unbound |].
  vm_compute. reflexivity.
Qed.

Lemma erlang_c_edges_witness :
  erlang_c 4 0 = Ok 0 /\ erlang_c (1 / 2) 6 = Raise UnboundLocalError.
Proof.
  destruct (erlang_c_edges 4 6) as (H0 & _ & _).
  destruct (erlang_c_edges (1 / 2) 6) as (_ & Hu & _).
  split; [apply H0; lra | apply Hu; lra].
Defined.

(** ** calculations/traffic.py: what the search returns *)

Lemma looping_traffic_loop_sound (remaining : nat)
    (trunks blocking increment max_intensity min_i intensity m0 r : R) :
  looping_traffic_loop remaining trunks blocking increment max_intensity min_i
    intensity = Ok r ->
  (min_i = m0 \/ exists b, erlang_b trunks min_i = Ok b /\ b <= blocking) ->
  (r = m0 \/ exists b, erlang_b trunks r = Ok b /\ b <= blocking) /\
  (0 <= increment -> m0 <= min_i <= intensity -> m0 <= r).
Proof.
  revert increment max_intensity min_i intensity.
  induction remaining as [| n IH]; intros increment max_intensity min_i intensity;
    cbn [looping_traffic_loop].
  - intros H HQ. ok_inv H. split; [assumption | intros; lra].
  - destruct (Rleb_spec MAX_ACCURACY increment) as [Hinc | Hinc].
    + intros H HQ. bind_inv H. rename v into b.
      destruct (Rltb_spec blocking b) as [Hb | Hb].
      * apply IH in H; [| exact HQ]. destruct H as [H1 H2]. split; [exact H1 |].
        intros Hi Hm. apply H2; lra.
      * apply IH in H; [| right; exists b; split; [assumption | lra]].
        destruct H as [H1 H2]. split; [exact H1 |].
        intros Hi Hm. apply H2; lra.
    + intros H HQ. ok_inv H. split; [assumption | intros; lra].
Qed.

(** What the digit search returns was kept after a look at its blocking. *)
Lemma looping_traffic_kept (trunks blocking increment max_intensity
    min_intensity r : R) :
  looping_traffic trunks blocking increment max_intensity min_intensity = Ok r ->
  (r = min_intensity \/ exists b, erlang_b trunks r = Ok b /\ b <= blocking) /\
  (0 <= increment -> min_intensity <= r).
Proof.
  unfold looping_traffic. intros H.
  apply (looping_traffic_loop_sound _ _ _ _ _ _ _ min_intensity) in H;
    [| left; reflexivity].
  destruct H as [H1 H2]. split; [exact H1 |]. intros Hi. apply H2; lra.
Qed.



Lemma traffic_double_exit (fuel : nat) (servers blocking max_i b m : R) :
  erlang_b servers max_i = Ok b ->
  traffic_double fuel servers blocking max_i b = Ok m ->
  exists b', erlang_b servers m = Ok b' /\ blocking <= b'.
Proof.
  revert max_i b. induction fuel as [| fuel IH]; intros max_i b Eb;
    cbn [traffic_double]; destruct (Rltb_spec b blocking) as [Hlt | Hge];
    intros H; try discriminate.
  - ok_inv H. exists b. split; [assumption | lra].
  - bind_inv H. eapply IH; eassumption.
  - ok_inv H. exists b. split; [assumption | lra].
Qed.

(** X10.  [traffic] brackets the target.  From one server on and for a target
    [blocking >= 0], the intensity it returns is non-negative and blocks
    at most [blocking] on [floor servers] trunks, while the doubled
    upper bound it searched below blocks at least [blocking]. *)
Theorem traffic_brackets_target (fuel : nat) (servers blocking v : R) :
  1 <= servers -> 0 <= blocking ->
  traffic fuel servers blocking = Ok v ->
  0 <= v /\
  (exists b, erlang_b (IZR (py_int servers)) v = Ok b /\ b <= blocking) /\
  (exists max_i incr bm,
     traffic_bounds fuel servers blocking = Ok (max_i, incr) /\
     erlang_b servers max_i = Ok bm /\ blocking <= bm).
Proof.
  intros Hs Hb. unfold traffic.
  rewrite (Rltb_false servers 1), (Rltb_false blocking 0) by lra. cbn [orb].
  intros H. bind_inv H. destruct v0 as [max_i incr].
  destruct (servers_count servers Hs) as (N & EN & EZ & Hn).
  pose proof (traffic_bounds_ok _ _ _ _ _ E) as (b0 & m & Eb0 & Ed & -> & Ei).
  apply (traffic_incr_power fuel max_i 0 incr) in Ei; [| left; reflexivity].
  destruct Ei as (k & -> & _).
  assert (Hpow : 0 <= 10 ^ k) by (apply pow_le; lra).
  apply looping_traffic_kept in H. destruct H as [Hgood Hlow].
  split; [apply Hlow; assumption |]. split.
  - destruct Hgood as [-> | Hgood]; [| exact Hgood].
    exists 0. split; [| assumption].
    rewrite erlang_b_rec by lra. rewrite py_int_IZR.
    rewrite EN. f_equal. apply B_rec_zero.
  - destruct (traffic_double_exit _ _ _ _ _ _ Eb0 Ed) as (bm & Ebm & Hbm).
    exists max_i, (10 ^ k), bm. repeat split; assumption.
Qed.

Lemma traffic_brackets_target_witness :
  exists fuel v,
    traffic fuel 10 (2 / 100) = Ok v /\ 0 <= v /\
    exists b, erlang_b (IZR (py_int 10)) v = Ok b /\ b <= 2 / 100.
Proof.
  destruct (traffic_returns 10 (2 / 100) ltac:(lra) ltac:(lra)) as [fuel Hf].
  destruct (Hf fuel (le_n fuel)) as [v Hv].
  exists fuel, v. split; [exact Hv |].
  destruct (traffic_brackets_target fuel 10 (2 / 100) v ltac:(lra) ltac:(lra) Hv)
    as (H0 & Hb & _).
  split; assumption.
Defined.

(** ** agents/capacity.py: what the staffing searches return *)

Lemma raise_agents_exit (fuel : nat) (t : R) (n : Z) (u : R) (n' : Z) (u' : R) :
  raise_agents fuel t n u = Ok (n', u') ->
  (1 <= n)%Z -> u = t / IZR n ->
  u' = t / IZR n' /\ t < IZR n' /\ (n <= n')%Z /\ (n' = n \/ IZR n' - 1 <= t).
Proof.
  assert (Hstop : forall n u, (1 <= n)%Z -> u = t / IZR n -> u < 1 ->
            u = t / IZR n /\ t < IZR n /\ (n <= n)%Z /\ (n = n \/ IZR n - 1 <= t)).
  { intros m v Hm Ev Hv. assert (0 < IZR m) by (apply IZR_lt; lia).
    split; [assumption |]. split; [| split; [lia | left; reflexivity]].
    subst v. apply div_lt_iff in Hv; lra. }
  revert n u. induction fuel as [| fuel IH]; intros n u; cbn [raise_agents];
    destruct (Rleb_spec 1 u) as [Hu | Hu]; intros H Hn Eu; try discriminate.
  - injection H as <- <-. apply Hstop; [assumption | assumption | lra].
  - bind_inv H. apply fdiv_inv in E. destruct E as [_ ->].
    apply IH in H; [| lia | reflexivity].
    destruct H as (H1 & H2 & H3 & H4).
    split; [assumption |]. split; [assumption |]. split; [lia |].
    right. destruct H4 as [-> | H4]; [| assumption].
    assert (0 < IZR n) by (apply IZR_lt; lia).
    subst u. apply div_ge_iff in Hu; [| assumption]. rewrite plus_IZR. lra.
  - injection H as <- <-. apply Hstop; [assumption | assumption | lra].
Qed.

(** The ladders start from the least agent count above the traffic
    [t = calls_per_hour / (INTERVAL / aht)]: [floor t + 1]. *)
Lemma first_agents_start (INTERVAL : R) (fuel : nat) (calls_per_hour : R) (aht : Z)
    (d t : R) (N0 : Z) (u : R) :
  0 < INTERVAL -> 0 <= calls_per_hour -> (0 < aht)%Z ->
  first_agents INTERVAL fuel calls_per_hour aht = Ok (d, t, N0, u) ->
  d = INTERVAL / IZR aht /\ t = calls_per_hour / d /\ 0 <= t /\
  N0 = (py_int t + 1)%Z /\ u = t / IZR N0.
Proof.
  intros HI Hc Haht. unfold first_agents. intros H.
  pose proof (death_rate_pos INTERVAL aht HI Haht) as Hd.
  assert (HahtR : 0 < IZR aht) by (apply IZR_lt; assumption).
  rewrite (fdiv_ok INTERVAL) in H by lra. cbn [bind] in H.
  rewrite fdiv_ok in H by lra. cbn [bind] in H.
  rewrite fdiv_ok in H by lra. cbn [bind] in H.
  assert (Hsame : calls_per_hour * IZR aht / INTERVAL
                  = calls_per_hour / (INTERVAL / IZR aht)) by (field; lra).
  rewrite Hsame in H. set (t0 := calls_per_hour / (INTERVAL / IZR aht)) in *.
  assert (Ht0 : 0 <= t0) by (apply div_nonneg; lra).
  set (erlangs := py_int (t0 + 5 / 10)) in *.
  set (n0 := if (erlangs <? 1)%Z then 1%Z else erlangs) in *.
  destruct (py_int_floor t0 Ht0) as [Hf1 Hf2].
  destruct (py_int_floor (t0 + 5 / 10) ltac:(lra)) as [He1 He2]. fold erlangs in He1, He2.
  pose proof (py_int_nonneg t0 Ht0) as Hfn.
  assert (Herl : (py_int t0 <= erlangs <= py_int t0 + 1)%Z).
  { split.
    - apply py_int_mono; lra.
    - apply Z.lt_succ_r. apply lt_IZR. rewrite succ_IZR, plus_IZR. lra. }
  assert (Hn0 : (1 <= n0 <= py_int t0 + 1)%Z).
  { unfold n0. destruct (Z.ltb_spec erlangs 1); lia. }
  assert (Hn0R : 0 < IZR n0) by (apply IZR_lt; lia).
  rewrite fdiv_ok in H by lra. cbn [bind] in H.
  bind_inv H. destruct v as [n' u']. ok_inv H.
  apply raise_agents_exit in E; [| lia | reflexivity].
  destruct E as (Eu & Hlt & Hge & Hprev).
  repeat split; try assumption.
  assert (Hlow : (py_int t0 + 1 <= N0)%Z).
  { apply Z.lt_succ_r. apply lt_IZR. rewrite succ_IZR, plus_IZR. lra. }
  destruct Hprev as [-> | Hprev]; [lia |].
  assert (N0 - 1 <= py_int t0)%Z; [| lia].
  apply Z.lt_succ_r. apply lt_IZR. rewrite succ_IZR, minus_IZR. lra.
Qed.

(** One round of the ladder of [agents_required] on a stable sample. *)
Lemma required_ladder_round (MAX_ACCURACY : R) (n : nat) (sla : R)
    (service_time aht : Z) (t : R) (N : Z) :
  (1 <= N)%Z -> 0 <= t < IZR N -> (0 <= service_time)%Z -> (0 < aht)%Z ->
  let s := service_level (IZR N) t (IZR service_time) (IZR aht) in
  required_ladder MAX_ACCURACY (S n) sla service_time aht t N
  = if (s >=? sla) || (s >? 1 - MAX_ACCURACY) then Ok N
    else required_ladder MAX_ACCURACY n sla service_time aht t (N + 1)%Z.
Proof.
  intros HN Ht Hst Haht s.
  assert (HNR : 1 <= IZR N) by (apply IZR_le; assumption).
  assert (HstR : 0 <= IZR service_time) by (apply IZR_le; assumption).
  assert (HahtR : 0 < IZR aht) by (apply IZR_lt; assumption).
  pose proof (service_level_unit (IZR N) t _ _ HNR Ht HstR HahtR) as Hs. fold s in Hs.
  cbn [required_ladder]. rewrite fdiv_ok by lra. cbn [bind].
  rewrite Rltb_true by (apply div_lt_iff; lra).
  destruct (erlang_c_stable (IZR N) t HNR Ht) as [-> _]. cbn [bind].
  rewrite fdiv_ok by lra. cbn [bind]. cbv zeta.
  change (1 - C_formula (IZR N) t * exp ((t - IZR N) * IZR service_time / IZR aht))
    with s.
  rewrite (Rltb_false s 0) by lra. reflexivity.
Qed.

(** The ladder returns the first count, from its start upward, whose
    service level stops it. *)
Lemma required_ladder_first (MAX_ACCURACY : R) (n : nat) (sla : R)
    (service_time aht : Z) (t : R) (N r : Z) :
  (1 <= N)%Z -> 0 <= t < IZR N -> (0 <= service_time)%Z -> (0 < aht)%Z ->
  required_ladder MAX_ACCURACY n sla service_time aht t N = Ok r ->
  let s m := service_level (IZR m) t (IZR service_time) (IZR aht) in
  (N <= r <= N + Z.of_nat n)%Z /\
  (forall m, (N <= m < r)%Z -> s m < sla /\ s m <= 1 - MAX_ACCURACY) /\
  ((r < N + Z.of_nat n)%Z -> sla <= s r \/ 1 - MAX_ACCURACY < s r).
Proof.
  intros HN Ht Hst Haht H s. revert N HN Ht H.
  induction n as [| n IH]; intros N HN Ht H.
  - cbn [required_ladder] in H. ok_inv H.
    split; [lia |]. split; [intros; lia | intros; lia].
  - rewrite required_ladder_round in H by assumption. cbv zeta in H.
    fold (s N) in H.
    destruct (Rleb_spec sla (s N)) as [Hge | Hlt]; cbn [orb] in H.
    + ok_inv H. split; [lia |]. split; [intros; lia | intros _; left; assumption].
    + destruct (Rltb_spec (1 - MAX_ACCURACY) (s N)) as [Hacc | Hacc].
      * ok_inv H. split; [lia |]. split; [intros; lia | intros _; right; assumption].
      * apply IH in H; [| lia | rewrite plus_IZR; lra].
        destruct H as (Hr & Hbelow & Hstop).
        split; [lia |]. split.
        -- intros m Hm. destruct (Z.eq_dec m N) as [-> | Hne].
           ++ split; lra.
           ++ apply Hbelow. lia.
        -- intros Hr'. apply Hstop. lia.
Qed.

Lemma asa_stable (INTERVAL agents calls_per_hour : R) (aht : Z) :
  0 < INTERVAL -> 1 <= agents -> (0 < aht)%Z ->
  0 <= calls_per_hour / (INTERVAL / IZR aht) < agents ->
  let d := INTERVAL / IZR aht in
  let t := calls_per_hour / d in
  asa INTERVAL agents calls_per_hour aht
  = Ok (secs (C_formula agents t / (agents * d * (1 - t / agents))) default_interval).
Proof.
  intros HI Hag Haht Ht d t. unfold asa.
  pose proof (death_rate_pos INTERVAL aht HI Haht) as Hd. fold d in Hd, Ht.
  fold t in Ht.
  assert (Hc : 0 <= calls_per_hour).
  { destruct Ht as [Ht _]. unfold t in Ht. apply div_ge_iff in Ht; [| assumption]. lra. }
  rewrite (Rleb_false agents 0), (Rltb_false calls_per_hour 0), aht_guard
    by (assumption || lra).
  cbn [orb].
  rewrite (fdiv_ok INTERVAL) by (apply Rgt_not_eq, IZR_lt; assumption).
  cbn [bind]. fold d. rewrite fdiv_ok by lra. cbn [bind]. fold t.
  rewrite fdiv_ok by lra. cbn [bind].
  assert (Hu : t / agents < 1) by (apply div_lt_iff; lra).
  rewrite Rleb_false by assumption.
  destruct (erlang_c_stable agents t Hag Ht) as [-> _]. cbn [bind].
  assert (Hden : 0 < agents * d * (1 - t / agents)).
  { apply Rmult_lt_0_compat; [apply Rmult_lt_0_compat |]; lra. }
  rewrite fdiv_ok by lra. reflexivity.
Qed.

Lemma nb_agents_loop_least (INTERVAL : R) (n : nat) (count : Z)
    (calls_ph avg_sa : R) (avg_ht r : Z) :
  nb_agents_loop INTERVAL n count calls_ph avg_sa avg_ht = Ok r ->
  (count <= r < count + Z.of_nat n)%Z /\
  (exists a, asa INTERVAL (IZR r) calls_ph avg_ht = Ok a /\ IZR a <= avg_sa) /\
  (forall m, (count <= m < r)%Z ->
     exists a, asa INTERVAL (IZR m) calls_ph avg_ht = Ok a /\ avg_sa < IZR a).
Proof.
  revert count. induction n as [| n IH]; intros count; cbn [nb_agents_loop].
  - discriminate.
  - intros H. bind_inv H. rename v into a.
    destruct (Rleb_spec (IZR a) avg_sa) as [Hle | Hgt].
    + ok_inv H. split; [lia |]. split; [exists a; split; assumption | intros; lia].
    + apply IH in H. destruct H as (Hr & Hat & Hbelow).
      split; [lia |]. split; [exact Hat |].
      intros m Hm. destruct (Z.eq_dec m count) as [-> | Hne].
      * exists a. split; [assumption | lra].
      * apply Hbelow. lia.
Qed.

(** X12.  [nb_agents] returns the least count, between 1 and 65535, whose
    [asa] does not exceed the target: [asa] at the result is at most
    [avg_sa], and at every smaller count it returns a value above
    [avg_sa]. *)
Theorem nb_agents_least (INTERVAL calls_ph avg_sa : R) (avg_ht n : Z) :
  nb_agents INTERVAL calls_ph avg_sa avg_ht = Ok n ->
  (1 <= n <= 65535)%Z /\
  (exists a, asa INTERVAL (IZR n) calls_ph avg_ht = Ok a /\ IZR a <= avg_sa) /\
  (forall m, (1 <= m < n)%Z ->
     exists a, asa INTERVAL (IZR m) calls_ph avg_ht = Ok a /\ avg_sa < IZR a).
Proof.
  unfold nb_agents. destruct (_ || _); [discriminate |].
  intros H. apply try_calc_ok in H. cbv zeta in H.
  apply nb_agents_loop_least in H. destruct H as (Hr & Hat & Hbelow).
  split; [lia |]. split; assumption.
Qed.

(** The worked case again: 300 calls an hour of 180 s against a target
    of 20 s.  Up to 15 agents the system is overloaded, 16 agents answer
    in 22 s and 17 agents in 8 s. *)
Lemma case_nb_agents : nb_agents 3600 300 20 180 = Ok 17%Z.
Proof.
  unfold nb_agents. py_eval. cbv zeta.
  replace (Z.to_nat (65536 - 1)) with (15 + (2 + Z.to_nat 65518))%nat by lia.
  assert (Hover : forall (k : nat) (count : Z) (m : nat),
    (1 <= count)%Z -> (count + Z.of_nat k <= 16)%Z ->
    nb_agents_loop 3600 (k + m) count 300 20 180
    = nb_agents_loop 3600 m (count + Z.of_nat k) 300 20 180).
  { induction k as [| k IH]; intros count m Hc Hk.
    - cbn [Nat.add]. f_equal. lia.
    - cbn [Nat.add nb_agents_loop].
      assert (H1 : 1 <= IZR count <= 15) by (split; apply IZR_le; lia).
      rewrite asa_overload; [| lra | lra | lia | lra]. cbn [bind].
      assert (Hs : (200 <= secs (1 / (IZR count * (3600 / 180) * (1 - 99 / 100)))
                            default_interval)%Z).
      { apply secs_lower_bound; [lia |]. unfold default_interval.
        assert (Hden : 0 < IZR count * (3600 / 180) * (1 - 99 / 100)) by nra.
        apply (Rmult_le_reg_r (IZR count * (3600 / 180) * (1 - 99 / 100)));
          [assumption |].
        replace (1 / (IZR count * (3600 / 180) * (1 - 99 / 100)) * 600
                 * (IZR count * (3600 / 180) * (1 - 99 / 100)))
          with 600 by (field; lra).
        nra. }
      rewrite Rleb_false by (apply (Rlt_le_trans _ (IZR 200)); [lra | apply IZR_le; exact Hs]).
      rewrite IH by lia. f_equal. lia. }
  rewrite Hover by lia. change (1 + Z.of_nat 15)%Z with 16%Z.
  cbn [Nat.add nb_agents_loop].
  pose proof (asa_stable 3600 16 300 180 ltac:(lra) ltac:(lra) ltac:(lia) ltac:(lra)) as E16.
  pose proof (asa_stable 3600 17 300 180 ltac:(lra) ltac:(lra) ltac:(lia) ltac:(lra)) as E17.
  cbv zeta in E16, E17.
  replace (300 / (3600 / 180)) with 15 in E16, E17 by lra.
  assert (S16 : secs (C_formula 16 15 / (16 * (3600 / 180) * (1 - 15 / 16)))
                  default_interval = 22%Z).
  { unfold secs, default_interval, C_formula. rewrite (py_int_IZR 16).
    change (Z.to_nat 16) with 16%nat. B_value 15%Z 16%nat. rewrite HB.
    apply py_int_unique; lra. }
  assert (S17 : secs (C_formula 17 15 / (17 * (3600 / 180) * (1 - 15 / 17)))
                  default_interval = 8%Z).
  { unfold secs, default_interval, C_formula. rewrite (py_int_IZR 17).
    change (Z.to_nat 17) with 17%nat. B_value 15%Z 17%nat. rewrite HB.
    apply py_int_unique; lra. }
  rewrite S16 in E16. rewrite S17 in E17.
  rewrite E16. cbn [bind]. py_eval.
  rewrite E17. cbn [bind]. py_eval. reflexivity.
Qed.

Lemma nb_agents_least_witness :
  (exists a, asa 3600 (IZR 17) 300 180 = Ok a /\ IZR a <= 20) /\
  (forall m, (1 <= m < 17)%Z ->
     exists a, asa 3600 (IZR m) 300 180 = Ok a /\ 20 < IZR a).
Proof.
  destruct (nb_agents_least 3600 300 20 180 17 case_nb_agents) as (_ & H1 & H2).
  split; assumption.
Defined.

(** One round of the ladder of [agents_asa] on a stable sample; [u] is
    the utilisation at the start of the ladder. *)
Lemma asa_ladder_round (INTERVAL : R) (n : nat) (asa_target d t u : R) (N : Z) :
  (1 <= N)%Z -> 0 <= t < IZR N -> 0 < d -> u < 1 ->
  asa_ladder INTERVAL (S n) asa_target d t u N
  = if C_formula (IZR N) t / (IZR N * d * (1 - u)) * INTERVAL <=? asa_target
    then Ok N
    else asa_ladder INTERVAL n asa_target d t u (N + 1)%Z.
Proof.
  intros HN Ht Hd Hu.
  assert (HNR : 1 <= IZR N) by (apply IZR_le; assumption).
  cbn [asa_ladder].
  destruct (erlang_c_stable (IZR N) t HNR Ht) as [-> _]. cbn [bind].
  assert (Hden : 0 < IZR N * d * (1 - u)).
  { apply Rmult_lt_0_compat; [apply Rmult_lt_0_compat |]; lra. }
  rewrite fdiv_ok by lra. reflexivity.
Qed.

(** The worked case for [agents_asa]: 300 calls an hour of 180 s against
    a target of 20 s.  The ladder starts at 16 agents and stops at 21. *)
Lemma case_agents_asa : agents_asa 3600 1 20 300 180 = Ok 21%Z.
Proof.
  unfold agents_asa. py_eval.
  rewrite case_first_agents by lia. cbn [bind].
  change (Z.to_nat (16 * 100)) with (S (S (S (S (S (S 1594%nat)))))).
  assert (Hround : forall (N : Z) (k : nat) (n : nat),
    (16 <= N <= 20)%Z -> Z.to_nat N = k ->
    20 * (IZR N * 20 * (1 - 15 / 16)) < B_rec 15 k / (15 / IZR N * B_rec 15 k
                                                      + (1 - 15 / IZR N)) * 3600 ->
    asa_ladder 3600 (S n) 20 20 15 (15 / 16) N
    = asa_ladder 3600 n 20 20 15 (15 / 16) (N + 1)%Z).
  { intros N k n HN Ek Hgt.
    assert (HNR : 16 <= IZR N <= 20) by (split; apply IZR_le; lia).
    rewrite asa_ladder_round; [| lia | lra | lra | lra].
    unfold C_formula. rewrite py_int_IZR, Ek. cbv zeta.
    rewrite Rleb_false; [reflexivity |].
    set (c := B_rec 15 k / (15 / IZR N * B_rec 15 k + (1 - 15 / IZR N))) in *.
    assert (Hden : 0 < IZR N * 20 * (1 - 15 / 16)) by nra.
    apply div_gt_iff in Hgt; [| lra].
    replace (c / (IZR N * 20 * (1 - 15 / 16)) * 3600)
      with (c * 3600 / (IZR N * 20 * (1 - 15 / 16))) by (field; lra).
    lra. }
  rewrite (Hround 16%Z 16%nat); [| lia | reflexivity |].
  2:{ B_value 15%Z 16%nat. rewrite HB. lra. }
  change (16 + 1)%Z with 17%Z.
  rewrite (Hround 17%Z 17%nat); [| lia | reflexivity |].
  2:{ B_value 15%Z 17%nat. rewrite HB. lra. }
  change (17 + 1)%Z with 18%Z.
  rewrite (Hround 18%Z 18%nat); [| lia | reflexivity |].
  2:{ B_value 15%Z 18%nat. rewrite HB. lra. }
  change (18 + 1)%Z with 19%Z.
  rewrite (Hround 19%Z 19%nat); [| lia | reflexivity |].
  2:{ B_value 15%Z 19%nat. rewrite HB. lra. }
  change (19 + 1)%Z with 20%Z.
  rewrite (Hround 20%Z 20%nat); [| lia | reflexivity |].
  2:{ B_value 15%Z 20%nat. rewrite HB. lra. }
  change (20 + 1)%Z with 21%Z.
  rewrite asa_ladder_round; [| lia | lra | lra | lra].
  unfold C_formula. rewrite (py_int_IZR 21). change (Z.to_nat 21) with 21%nat.
  cbv zeta. B_value 15%Z 21%nat. rewrite HB.
  rewrite Rleb_true by lra. reflexivity.
Qed.

(** ** trunks/trunks.py *)

Lemma number_trunks_loop_least (n : nat) (count : Z) (intensity : R) (r : Z) :
  number_trunks_loop n count intensity = Ok r ->
  (count <= r < count + Z.of_nat n)%Z /\
  (exists b, erlang_b (IZR r) intensity = Ok b /\ b < 1 / 1000) /\
  (forall m, (count <= m < r)%Z ->
     exists b, erlang_b (IZR m) intensity = Ok b /\ 1 / 1000 <= b).
Proof.
  revert count. induction n as [| n IH]; intros count; cbn [number_trunks_loop].
  - discriminate.
  - intros H. bind_inv H. rename v into b.
    destruct (Rltb_spec b (1 / 1000)) as [Hlt | Hge].
    + injection H as <-. split; [lia |].
      split; [exists b; split; assumption | intros; lia].
    + apply IH in H. destruct H as (Hr & Hat & Hbelow).
      split; [lia |]. split; [exact Hat |].
      intros m Hm. destruct (Z.eq_dec m count) as [-> | Hne].
      * exists b. split; [assumption | lra].
      * apply Hbelow. lia.
Qed.

(** What a returned trunk count says about the counts before it. *)
Lemma number_trunks_inv (servers intensity : R) (n : Z) :
  number_trunks servers intensity = Ok n ->
  (int_ceiling servers <= n <= 65535)%Z /\ (1 <= n)%Z /\
  (exists b, erlang_b (IZR n) intensity = Ok b /\ b < 1 / 1000) /\
  (forall m, (int_ceiling servers <= m < n)%Z ->
     exists b, erlang_b (IZR m) intensity = Ok b /\ 1 / 1000 <= b).
Proof.
  unfold number_trunks.
  destruct (Rltb_spec servers 0) as [| Hs]; [discriminate |].
  destruct (Rltb_spec intensity 0) as [| Hi]; [discriminate |]. cbn [orb].
  intros H. apply try_calc_ok in H. cbv zeta in H.
  apply number_trunks_loop_least in H. destruct H as (Hr & Hat & Hbelow).
  assert (Hc : (0 <= int_ceiling servers)%Z).
  { unfold int_ceiling. rewrite Rltb_false by lra. apply py_int_nonneg. lra. }
  split; [lia |]. split; [| split; assumption].
  destruct Hat as (b & Eb & _).
  destruct (Z.eq_dec n 0) as [-> | Hne]; [| lia].
  rewrite erlang_b_unbound in Eb by lra. discriminate.
Qed.

(** X14.  [number_trunks] returns the least trunk count, from
    [int_ceiling servers] up to 65535, whose Erlang B blocking is below
    one in a thousand; the count is never 0, since [erlang_b] does not
    return for zero trunks. *)
Theorem number_trunks_least (servers intensity : R) (n : Z) :
  number_trunks servers intensity = Ok n ->
  (int_ceiling servers <= n <= 65535)%Z /\ (1 <= n)%Z /\
  (exists b, erlang_b (IZR n) intensity = Ok b /\ b < 1 / 1000) /\
  (forall m, (int_ceiling servers <= m < n)%Z ->
     exists b, erlang_b (IZR m) intensity = Ok b /\ 1 / 1000 <= b).
Proof. exact (number_trunks_inv servers intensity n). Qed.

(** One erlang on one requested trunk: the blocking at 1 to 5 trunks is
    1/2, 1/5, 1/16, 1/65 and 1/326, and 6 trunks bring it to 1/1957. *)
Lemma case_number_trunks : number_trunks 1 1 = Ok 6%Z.
Proof.
  unfold number_trunks. py_eval. cbv zeta.
  assert (Ec : int_ceiling 1 = 1%Z).
  { unfold int_ceiling. rewrite Rltb_false by lra. apply py_int_unique; lra. }
  rewrite Ec.
  replace (Z.to_nat (65536 - 1)) with (6 + Z.to_nat 65529)%nat by lia.
  cbn [Nat.add number_trunks_loop].
  rewrite (erlang_b_rec 1 1) by lra. rewrite (py_int_IZR 1).
  change (Z.to_nat 1) with 1%nat. cbn [bind].
  B_value 1%Z 1%nat. rewrite HB. clear HB. py_eval.
  rewrite (erlang_b_rec 2 1) by lra. rewrite (py_int_IZR 2).
  change (Z.to_nat 2) with 2%nat. cbn [bind].
  B_value 1%Z 2%nat. rewrite HB. clear HB. py_eval.
  rewrite (erlang_b_rec 3 1) by lra. rewrite (py_int_IZR 3).
  change (Z.to_nat 3) with 3%nat. cbn [bind].
  B_value 1%Z 3%nat. rewrite HB. clear HB. py_eval.
  rewrite (erlang_b_rec 4 1) by lra. rewrite (py_int_IZR 4).
  change (Z.to_nat 4) with 4%nat. cbn [bind].
  B_value 1%Z 4%nat. rewrite HB. clear HB. py_eval.
  rewrite (erlang_b_rec 5 1) by lra. rewrite (py_int_IZR 5).
  change (Z.to_nat 5) with 5%nat. cbn [bind].
  B_value 1%Z 5%nat. rewrite HB. clear HB. py_eval.
  rewrite (erlang_b_rec 6 1) by lra. rewrite (py_int_IZR 6).
  change (Z.to_nat 6) with 6%nat. cbn [bind].
  B_value 1%Z 6%nat. rewrite HB. clear HB. py_eval.
  reflexivity.
Qed.

Lemma number_trunks_least_witness :
  (exists b, erlang_b (IZR 6) 1 = Ok b /\ b < 1 / 1000) /\
  (forall m, (int_ceiling 1 <= m < 6)%Z ->
     exists b, erlang_b (IZR m) 1 = Ok b /\ 1 / 1000 <= b).
Proof.
  destruct (number_trunks_least 1 1 6 case_number_trunks) as (_ & _ & H1 & H2).
  split; assumption.
Defined.

(** X15.  [number_trunks] at the ends of its range, read on the start
    [int_ceiling(servers)] of its search.  When that start is 0 the first
    call is [erlang_b(0.0, intensity)], which fails on its unbound [b];
    when it is above 65535 there is nothing to search.  Both raise a
    [CalculationError], whatever the intensity [>= 0]. *)
Theorem number_trunks_range_edges (servers intensity : R) :
  0 <= servers -> 0 <= intensity ->
  (int_ceiling servers = 0%Z ->
   number_trunks servers intensity
   = Raise (CalculationError (Some UnboundLocalError))) /\
  ((65535 < int_ceiling servers)%Z ->
   number_trunks servers intensity
   = Raise (CalculationError (Some (CalculationError None)))).
Proof.
  intros Hs Hi. split.
  - intros Ec. unfold number_trunks.
    rewrite (Rltb_false servers 0), (Rltb_false intensity 0) by lra. cbn [orb]. cbv zeta.
    rewrite Ec.
    replace (Z.to_nat (65535 + 1 - 0)) with (S (Z.to_nat 65535)) by lia.
    cbn [number_trunks_loop]. rewrite erlang_b_unbound by lra. reflexivity.
  - intros Ec. unfold number_trunks.
    rewrite (Rltb_false servers 0), (Rltb_false intensity 0) by lra. cbn [orb]. cbv zeta.
    replace (Z.to_nat (65535 + 1 - int_ceiling servers)) with 0%nat by lia.
    reflexivity.
Qed.

Lemma number_trunks_range_edges_witness :
  number_trunks 0 7 = Raise (CalculationError (Some UnboundLocalError)) /\
  number_trunks 70000 7 = Raise (CalculationError (Some (CalculationError None))).
Proof.
  destruct (number_trunks_range_edges 0 7 ltac:(lra) ltac:(lra)) as [H0 _].
  destruct (number_trunks_range_edges 70000 7 ltac:(lra) ltac:(lra)) as [_ H1].
  split.
  - apply H0. unfold int_ceiling. rewrite Rltb_false by lra.
    apply py_int_unique; lra.
  - apply H1. unfold int_ceiling. rewrite Rltb_false by lra.
    rewrite (py_int_unique (70000 + 9999 / 10000) 70000) by lra. lia.
Defined.

(** X16.  [trunks_required] never returns less than one trunk, nor less than
    [int_ceiling agents]: the count comes from [number_trunks], which
    does not return 0, so the correction
    [if no_trunks < 1 and traffic_rate > 0] never applies. *)
Theorem trunks_required_at_least_one (INTERVAL agents calls_per_hour : R)
    (aht n : Z) :
  trunks_required INTERVAL agents calls_per_hour aht = Ok n ->
  (1 <= n <= 65535)%Z /\ (int_ceiling agents <= n)%Z /\
  exists r, number_trunks agents r = Ok n.
Proof.
  unfold trunks_required. destruct (_ || _); [discriminate |].
  intros H. apply try_calc_ok in H. do 8 bind_inv H.
  rename v5 into r. rename v6 into k.
  pose proof (number_trunks_inv _ _ _ E6) as (Hr & H1 & _).
  rewrite (proj2 (Z.ltb_ge k 1)) in H by lia. cbn [andb] in H.
  injection H as <-. split; [lia |]. split; [lia |].
  exists r. assumption.
Qed.

Lemma trunks_required_at_least_one_witness :
  trunks_required 3600 2 0 180 = Ok 2%Z /\ (1 <= 2 <= 65535)%Z.
Proof.
  assert (E : trunks_required 3600 2 0 180 = Ok 2%Z).
  { unfold trunks_required. py_eval.
    replace (0 / (3600 / 180)) with 0 by lra.
    rewrite erlang_c_zero_traffic by lra. cbn [bind]. py_eval.
    assert (Es : secs (0 / (2 * (3600 / 180) * (1 - 0 / 2))) default_interval = 0%Z).
    { unfold secs, default_interval. apply py_int_unique; lra. }
    rewrite Es. change (180 + 0)%Z with 180%Z. py_eval.
    replace (0 / (3600 / 180)) with 0 by lra.
    unfold number_trunks. py_eval. cbv zeta.
    assert (Ec : int_ceiling 2 = 2%Z).
    { unfold int_ceiling. rewrite Rltb_false by lra. apply py_int_unique; lra. }
    rewrite Ec.
    replace (Z.to_nat (65536 - 2)) with (S (Z.to_nat 65533)) by lia.
    cbn [number_trunks_loop].
    rewrite (erlang_b_rec 2 0) by lra. rewrite (py_int_IZR 2).
    change (Z.to_nat 2) with 2%nat. rewrite B_rec_zero. cbn [bind]. py_eval.
    reflexivity. }
  split; [exact E |].
  destruct (trunks_required_at_least_one 3600 2 0 180 2 E) as (H & _). exact H.
Defined.

(** ** queues/queues.py *)

Lemma queue_prefix (INTERVAL calls_per_hour : R) (aht : Z) :
  0 < INTERVAL -> (0 < aht)%Z ->
  fdiv INTERVAL (IZR aht) = Ok (INTERVAL / IZR aht) /\
  fdiv calls_per_hour (INTERVAL / IZR aht)
  = Ok (calls_per_hour / (INTERVAL / IZR aht)) /\
  0 < INTERVAL / IZR aht.
Proof.
  intros HI Haht. pose proof (death_rate_pos INTERVAL aht HI Haht) as Hd.
  assert (0 < IZR aht) by (apply IZR_lt; assumption).
  split; [apply fdiv_ok; lra |]. split; [apply fdiv_ok; lra | assumption].
Qed.

(** [queued] after its validation and its two quotients. *)
Lemma queued_unfold (INTERVAL agents calls_per_hour : R) (aht : Z) :
  0 < INTERVAL -> 0 <= agents -> 0 <= calls_per_hour -> (0 < aht)%Z ->
  queued INTERVAL agents calls_per_hour aht
  = try_calc (erlang_c agents (calls_per_hour / (INTERVAL / IZR aht))).
Proof.
  intros HI Hag Hc Haht. unfold queued.
  rewrite (Rltb_false agents 0), (Rltb_false calls_per_hour 0), aht_guard
    by assumption.
  cbn [orb]. destruct (queue_prefix INTERVAL calls_per_hour aht HI Haht) as (E1 & E2 & _).
  rewrite E1. cbn [bind]. rewrite E2. cbn [bind].
  destruct (erlang_c agents _) as [c | e |] eqn:E; cbn [bind try_calc]; try reflexivity.
  rewrite min_max_id by (eapply erlang_c_range; exact E). reflexivity.
Qed.

(** X17.  [queued] is [erlang_c] at the traffic
    [calls_per_hour / (INTERVAL / aht)]: its own clamp changes nothing,
    and a failure of [erlang_c] comes back as a [CalculationError]. *)
Theorem queued_is_erlang_c (INTERVAL agents calls_per_hour : R) (aht : Z) :
  0 < INTERVAL -> 0 <= agents -> 0 <= calls_per_hour -> (0 < aht)%Z ->
  queued INTERVAL agents calls_per_hour aht
  = try_calc (erlang_c agents (calls_per_hour / (INTERVAL / IZR aht))).
Proof. exact (queued_unfold INTERVAL agents calls_per_hour aht). Qed.

Lemma queued_is_erlang_c_witness :
  queued 3600 16 300 180 = try_calc (erlang_c 16 (300 / (3600 / IZR 180))).
Proof. apply queued_is_erlang_c; [lra | lra | lra | lia]. Defined.

(** X19.  With zero agents the validation of the queue metrics passes (it only
    rejects negative counts) and the computation fails: [queue_size],
    [queue_time] and [sla_metric] divide the traffic by zero, [queued]
    and [service_time] fail in [erlang_b]; each failure comes back as a
    [CalculationError].  [asa] rejects zero agents as invalid input. *)
Theorem zero_agents (INTERVAL calls_per_hour : R) (aht : Z) :
  0 < INTERVAL -> 0 <= calls_per_hour -> (0 < aht)%Z ->
  queue_size INTERVAL 0 calls_per_hour aht
    = Raise (CalculationError (Some ZeroDivisionError)) /\
  queue_time INTERVAL 0 calls_per_hour aht
    = Raise (CalculationError (Some ZeroDivisionError)) /\
  (forall st, 0 <= st ->
     sla_metric INTERVAL 0 st calls_per_hour aht
     = Raise (CalculationError (Some ZeroDivisionError))) /\
  queued INTERVAL 0 calls_per_hour aht
    = Raise (CalculationError (Some UnboundLocalError)) /\
  (forall sla, 0 <= sla ->
     service_time INTERVAL 0 sla calls_per_hour aht
     = Raise (CalculationError (Some UnboundLocalError))) /\
  asa INTERVAL 0 calls_per_hour aht = Raise InputValidationError.
Proof.
  intros HI Hc Haht.
  destruct (queue_prefix INTERVAL calls_per_hour aht HI Haht) as (E1 & E2 & Hd).
  assert (Ht : 0 <= calls_per_hour / (INTERVAL / IZR aht)) by (apply div_nonneg; lra).
  repeat split.
  - unfold queue_size.
    rewrite (Rltb_false 0 0), (Rltb_false calls_per_hour 0), aht_guard by (assumption || lra).
    cbn [orb]. rewrite E1. cbn [bind]. rewrite E2. cbn [bind].
    rewrite fdiv_zero. reflexivity.
  - unfold queue_time.
    rewrite (Rltb_false 0 0), (Rltb_false calls_per_hour 0), aht_guard by (assumption || lra).
    cbn [orb]. rewrite E1. cbn [bind]. rewrite E2. cbn [bind].
    rewrite fdiv_zero. reflexivity.
  - intros st Hst. unfold sla_metric.
    rewrite (Rltb_false 0 0), (Rltb_false calls_per_hour 0), aht_guard,
      (Rltb_false st 0) by (assumption || lra).
    cbn [orb]. rewrite E1. cbn [bind]. rewrite E2. cbn [bind].
    rewrite fdiv_zero. reflexivity.
  - unfold queued.
    rewrite (Rltb_false 0 0), (Rltb_false calls_per_hour 0), aht_guard by (assumption || lra).
    cbn [orb]. rewrite E1. cbn [bind]. rewrite E2. cbn [bind].
    rewrite erlang_c_unbound by lra. reflexivity.
  - intros sla Hsla. unfold service_time.
    rewrite (Rltb_false 0 0), (Rltb_false sla 0), (Rltb_false calls_per_hour 0),
      aht_guard by (assumption || lra).
    cbn [orb]. rewrite E1. cbn [bind]. rewrite E2. cbn [bind].
    rewrite erlang_c_unbound by lra. reflexivity.
  - unfold asa. rewrite (Rleb_true 0 0) by lra. reflexivity.
Qed.

Lemma zero_agents_witness :
  queue_time 3600 0 300 180 = Raise (CalculationError (Some ZeroDivisionError)) /\
  asa 3600 0 300 180 = Raise InputValidationError.
Proof.
  destruct (zero_agents 3600 300 180 ltac:(lra) ltac:(lra) ltac:(lia))
    as (_ & Hq & _ & _ & _ & Ha).
  split; assumption.
Defined.

(** ** An idle system: no calls *)

Lemma zero_div (x : R) : 0 / x = 0.
Proof. unfold Rdiv. apply Rmult_0_l. Qed.

Lemma first_agents_idle (INTERVAL : R) (fuel : nat) (aht : Z) :
  0 < INTERVAL -> (0 < aht)%Z ->
  first_agents INTERVAL fuel 0 aht = Ok (INTERVAL / IZR aht, 0, 1%Z, 0).
Proof.
  intros HI Haht. unfold first_agents.
  destruct (queue_prefix INTERVAL 0 aht HI Haht) as (E1 & E2 & Hd).
  rewrite E1. cbn [bind]. rewrite E2. cbn [bind].
  rewrite fdiv_ok by lra. cbn [bind].
  rewrite Rmult_0_l, !zero_div.
  rewrite (py_int_unique (0 + 5 / 10) 0) by lra.
  change (0 <? 1)%Z with true. cbv iota.
  rewrite fdiv_ok by lra. cbn [bind]. rewrite zero_div.
  destruct fuel; cbn [raise_agents]; rewrite Rleb_false by lra; reflexivity.
Qed.

(** X20.  With no calls and at least one agent nothing queues: [queued],
    [queue_size] and [asa] are 0, [sla_metric] is 1, and the staffing
    searches [nb_agents], [agents_required] (for a service time [>= 0],
    which it does not validate) and [agents_asa] all answer one agent.
    [service_time] has no answer for an idle system: it raises a
    [CalculationError] for every target. *)
Theorem idle_system (INTERVAL MAX_ACCURACY agents : R) (aht : Z) :
  0 < INTERVAL -> 1 <= agents -> (0 < aht)%Z ->
  queued INTERVAL agents 0 aht = Ok 0 /\
  queue_size INTERVAL agents 0 aht = Ok 0%Z /\
  asa INTERVAL agents 0 aht = Ok 0%Z /\
  (forall st, 0 <= st -> sla_metric INTERVAL agents st 0 aht = Ok 1) /\
  (forall avg_sa, 0 <= avg_sa -> nb_agents INTERVAL 0 avg_sa aht = Ok 1%Z) /\
  (forall fuel sla st, 0 <= sla -> (0 <= st)%Z ->
     agents_required INTERVAL MAX_ACCURACY fuel sla st 0 aht = Ok 1%Z) /\
  (forall fuel target, 0 <= target ->
     agents_asa INTERVAL fuel target 0 aht = Ok 1%Z) /\
  (forall sla, 0 <= sla ->
     exists cause,
       service_time INTERVAL agents sla 0 aht
       = Raise (CalculationError (Some cause))).
Proof.
  intros HI Hag Haht.
  destruct (queue_prefix INTERVAL 0 aht HI Haht) as (E1 & E2 & Hd).
  rewrite zero_div in E2.
  assert (HahtR : 0 < IZR aht) by (apply IZR_lt; assumption).
  assert (Easa : forall a, 1 <= a -> asa INTERVAL a 0 aht = Ok 0%Z).
  { intros a Ha. unfold asa.
    rewrite (Rleb_false a 0), (Rltb_false 0 0), aht_guard by (assumption || lra).
    cbn [orb]. rewrite E1. cbn [bind]. rewrite E2. cbn [bind].
    rewrite fdiv_ok by lra. cbn [bind]. rewrite zero_div.
    rewrite Rleb_false by lra.
    rewrite erlang_c_zero_traffic by assumption. cbn [bind].
    rewrite fdiv_ok by nra. cbn [bind try_calc]. rewrite zero_div.
    f_equal. unfold secs, default_interval. apply py_int_unique; lra. }
  split; [| split; [| split; [| split; [| split; [| split; [| split]]]]]].
  - rewrite queued_unfold by (assumption || lra). rewrite zero_div.
    rewrite erlang_c_zero_traffic by assumption. reflexivity.
  - unfold queue_size.
    rewrite (Rltb_false agents 0), (Rltb_false 0 0), aht_guard by (assumption || lra).
    cbn [orb]. rewrite E1. cbn [bind]. rewrite E2. cbn [bind].
    rewrite fdiv_ok by lra. cbn [bind]. rewrite zero_div.
    rewrite Rleb_false by lra.
    rewrite erlang_c_zero_traffic by assumption. cbn [bind].
    rewrite fdiv_ok by lra. cbn [bind try_calc]. f_equal.
    rewrite Rmult_0_l, zero_div. apply py_int_unique; lra.
  - apply Easa. assumption.
  - intros st Hst. unfold sla_metric.
    rewrite (Rltb_false agents 0), (Rltb_false 0 0), aht_guard, (Rltb_false st 0)
      by (assumption || lra).
    cbn [orb]. rewrite E1. cbn [bind]. rewrite E2. cbn [bind].
    rewrite fdiv_ok by lra. cbn [bind].
    rewrite erlang_c_zero_traffic by assumption. cbn [bind].
    rewrite fdiv_ok by lra. cbn [bind try_calc]. f_equal.
    rewrite Rmult_0_l, Rminus_0_r. apply min_max_id. lra.
  - intros avg_sa Hsa. unfold nb_agents.
    rewrite (Rltb_false 0 0), (Rltb_false avg_sa 0), aht_guard by (assumption || lra).
    cbn [orb]. cbv zeta.
    replace (Z.to_nat (65535 + 1 - 1)) with (S (Z.to_nat 65534)) by lia.
    cbn [nb_agents_loop]. rewrite (Easa (IZR 1)) by lra. cbn [bind].
    rewrite Rleb_true by assumption. reflexivity.
  - intros fuel sla st Hsla _. unfold agents_required.
    rewrite (Rltb_false sla 0), (Rltb_false 0 0), aht_guard by (assumption || lra).
    cbn [orb]. rewrite first_agents_idle by assumption. cbn [bind]. cbv zeta.
    replace (Z.to_nat (1 * 100)) with (S (Z.to_nat 99)) by lia. cbn [required_ladder].
    rewrite fdiv_ok by lra. cbn [bind]. rewrite zero_div.
    rewrite Rltb_true by lra.
    rewrite erlang_c_zero_traffic by lra. cbn [bind].
    rewrite fdiv_ok by lra. cbn [bind]. rewrite Rmult_0_l.
    rewrite (Rltb_false (1 - 0) 0) by lra.
    destruct (py_min_le sla 1) as [_ Hm].
    rewrite (Rleb_true (py_min sla 1)) by lra. reflexivity.
  - intros fuel target Htar. unfold agents_asa.
    rewrite (Rltb_false target 0), (Rltb_false 0 0), aht_guard by (assumption || lra).
    cbn [orb]. rewrite first_agents_idle by assumption. cbn [bind].
    replace (Z.to_nat (1 * 100)) with (S (Z.to_nat 99)) by lia. cbn [asa_ladder].
    rewrite erlang_c_zero_traffic by lra. cbn [bind].
    rewrite fdiv_ok by nra. cbn [bind]. rewrite zero_div, Rmult_0_l.
    rewrite Rleb_true by assumption. reflexivity.
  - intros sla Hsla. unfold service_time.
    rewrite (Rltb_false agents 0), (Rltb_false sla 0), (Rltb_false 0 0), aht_guard
      by (assumption || lra).
    cbn [orb]. rewrite E1. cbn [bind]. rewrite E2. cbn [bind].
    rewrite erlang_c_zero_traffic by assumption. cbn [bind].
    destruct (Rltb_spec 0 (1 - sla)) as [Hlow | Hhigh].
    + eexists. reflexivity.
    + rewrite fdiv_ok by lra. cbn [bind]. rewrite zero_div.
      rewrite Rleb_false by lra.
      rewrite fdiv_ok by nra. cbn [bind].
      rewrite fdiv_zero. eexists. reflexivity.
Qed.

Lemma idle_system_witness :
  queued 3600 5 0 180 = Ok 0 /\
  sla_metric 3600 5 20 0 180 = Ok 1 /\
  nb_agents 3600 0 20 180 = Ok 1%Z /\
  agents_required 3600 (1 / 100000) 0 (8 / 10) 20 0 180 = Ok 1%Z /\
  exists cause, service_time 3600 5 (8 / 10) 0 180 = Raise (CalculationError (Some cause)).
Proof.
  destruct (idle_system 3600 (1 / 100000) 5 180 ltac:(lra) ltac:(lra) ltac:(lia))
    as (Hq & _ & _ & Hs & Hn & Hr & _ & Hst).
  split; [exact Hq |]. split; [apply Hs; lra |]. split; [apply Hn; lra |].
  split; [apply Hr; [lra | lia] | apply Hst; lra].
Defined.

(** ** The exception contract of the public functions *)

Lemma looping_traffic_loop_round (n : nat)
    (trunks blocking increment max_intensity min_i intensity : R) :
  Traffic.MAX_ACCURACY <= increment ->
  looping_traffic_loop (S n) trunks blocking increment max_intensity min_i intensity
  = (b <- erlang_b trunks intensity ;;
     let '(max_intensity, increment, intensity) :=
       if b >? blocking
       then (intensity, increment / 10, min_i)
       else (max_intensity, increment, intensity) in
     looping_traffic_loop n trunks blocking increment max_intensity intensity
       (intensity + increment)).
Proof. intros H. cbn [looping_traffic_loop]. rewrite Rleb_true by assumption. reflexivity. Qed.

Lemma guarded_documented {A : Type} (g : bool) (c : result A) :
  documented_failure (if g then Raise InputValidationError else try_calc c).
Proof.
  destruct g; cbn [documented_failure]; [left; reflexivity |].
  destruct c; cbn [try_calc documented_failure]; auto.
  right. eexists. reflexivity.
Qed.

(** X21.  Every function of [capacity.py], [queues.py] and [trunks.py] raises
    nothing but the two documented exceptions, [InputValidationError]
    from its validation and [CalculationError] from its [except]
    clause.  The evaluators of [erlang.py] and the search of
    [traffic.py] have no such clause: [erlang_c(0.5, 1)] and
    [looping_traffic(0.5, 0.1, 1, 0, 0)] let an [UnboundLocalError]
    out. *)
Theorem documented_exceptions_only (INTERVAL MAX_ACCURACY : R) (fuel : nat)
    (a b c : R) (y z : Z) :
  documented_failure (agents_required INTERVAL MAX_ACCURACY fuel a y b z) /\
  documented_failure (asa INTERVAL a b z) /\
  documented_failure (agents_asa INTERVAL fuel a b z) /\
  documented_failure (nb_agents INTERVAL a b z) /\
  documented_failure (call_capacity INTERVAL MAX_ACCURACY fuel a b y z) /\
  documented_failure (fractional_agents INTERVAL MAX_ACCURACY fuel a y b z) /\
  documented_failure (fractional_call_capacity INTERVAL MAX_ACCURACY fuel a b y z) /\
  documented_failure (queued INTERVAL a b z) /\
  documented_failure (queue_size INTERVAL a b z) /\
  documented_failure (queue_time INTERVAL a b z) /\
  documented_failure (service_time INTERVAL a b c z) /\
  documented_failure (sla_metric INTERVAL a b c z) /\
  documented_failure (number_trunks a b) /\
  documented_failure (trunks_required INTERVAL a b z) /\
  ~ documented_failure (erlang_c (1 / 2) 1) /\
  ~ documented_failure (looping_traffic (1 / 2) (1 / 10) 1 0 0).
Proof.
  repeat match goal with
         | |- documented_failure _ /\ _ => split; [apply guarded_documented |]
         end.
  split.
  - rewrite erlang_c_unbound by lra. cbn [documented_failure].
    intros [H | [cause H]]; discriminate.
  - unfold looping_traffic, MAX_LOOPS.
    rewrite looping_traffic_loop_round by (unfold Traffic.MAX_ACCURACY; lra).
    rewrite erlang_b_unbound by lra. cbn [bind documented_failure].
    intros [H | [cause H]]; discriminate.
Qed.

(** ** [call_capacity]: the downward scan *)

Lemma raise_agents_fuel (f1 f2 : nat) (t : R) (n : Z) (u : R) (r : Z * R) :
  (f1 <= f2)%nat ->
  raise_agents f1 t n u = Ok r -> raise_agents f2 t n u = Ok r.
Proof.
  revert f2 n u. induction f1 as [| f1 IH]; intros f2 n u Hle H.
  - cbn [raise_agents] in H. destruct (u >=? 1) eqn:Eu; [discriminate |].
    destruct f2; cbn [raise_agents]; rewrite Eu; assumption.
  - destruct f2 as [| f2]; [lia |]. cbn [raise_agents] in H |- *.
    destruct (u >=? 1); [| assumption].
    destruct (fdiv t (IZR (n + 1))); cbn [bind] in H |- *; try discriminate.
    apply IH; [lia | assumption].
Qed.

Lemma first_agents_fuel (INTERVAL : R) (f1 f2 : nat) (calls_per_hour : R)
    (aht : Z) (v : R * R * Z * R) :
  (f1 <= f2)%nat ->
  first_agents INTERVAL f1 calls_per_hour aht = Ok v ->
  first_agents INTERVAL f2 calls_per_hour aht = Ok v.
Proof.
  intros Hle. unfold first_agents.
  destruct (fdiv INTERVAL (IZR aht)); cbn [bind]; try discriminate.
  destruct (fdiv calls_per_hour a); cbn [bind]; try discriminate.
  destruct (fdiv (calls_per_hour * IZR aht) INTERVAL); cbn [bind]; try discriminate.
  destruct (fdiv a0 _); cbn [bind]; try discriminate.
  intros E. bind_inv E. rewrite (raise_agents_fuel f1 f2 _ _ _ _ Hle E0).
  cbn [bind]. exact E.
Qed.

(** More fuel does not change what [agents_required] returns. *)
Lemma agents_required_fuel (INTERVAL MAX_ACCURACY : R) (f1 f2 : nat) (sla : R)
    (service_time : Z) (calls_per_hour : R) (aht x : Z) :
  (f1 <= f2)%nat ->
  agents_required INTERVAL MAX_ACCURACY f1 sla service_time calls_per_hour aht = Ok x ->
  agents_required INTERVAL MAX_ACCURACY f2 sla service_time calls_per_hour aht = Ok x.
Proof.
  intros Hle. unfold agents_required. destruct (_ || _); [discriminate |].
  intros H. apply try_calc_ok in H. cbv zeta in H |- *.
  bind_inv H. rewrite (first_agents_fuel _ f1 f2 _ _ _ Hle E). cbn [bind].
  rewrite H. reflexivity.
Qed.

(** Nor what [fractional_agents] returns. *)
Lemma fractional_agents_fuel (INTERVAL MAX_ACCURACY : R) (f1 f2 : nat) (sla : R)
    (service_time : Z) (calls_per_hour : R) (aht : Z) (x : R) :
  (f1 <= f2)%nat ->
  fractional_agents INTERVAL MAX_ACCURACY f1 sla service_time calls_per_hour aht = Ok x ->
  fractional_agents INTERVAL MAX_ACCURACY f2 sla service_time calls_per_hour aht = Ok x.
Proof.
  intros Hle. unfold fractional_agents. destruct (_ || _); [discriminate |].
  intros H. apply try_calc_ok in H. cbv zeta in H |- *.
  bind_inv H. rewrite (first_agents_fuel _ f1 f2 _ _ _ Hle E). cbn [bind].
  rewrite H. reflexivity.
Qed.

Lemma capacity_loop_scan (INTERVAL MAX_ACCURACY : R) (F f : nat) (sla : R)
    (service_time aht : Z) (k calls x r : Z) :
  (f <= F)%nat ->
  agents_required INTERVAL MAX_ACCURACY F sla service_time (IZR calls) aht = Ok x ->
  capacity_loop INTERVAL MAX_ACCURACY f sla service_time aht k calls x = Ok r ->
  (r <= calls)%Z /\ ((0 <= calls)%Z -> (0 <= r)%Z) /\
  ((r <= 0)%Z \/
   exists x', agents_required INTERVAL MAX_ACCURACY F sla service_time (IZR r) aht
              = Ok x' /\ (x' <= k)%Z) /\
  (forall c, (r < c <= calls)%Z ->
     exists x', agents_required INTERVAL MAX_ACCURACY F sla service_time (IZR c) aht
                = Ok x' /\ (k < x')%Z).
Proof.
  intros HF. revert calls x.
  assert (Hexit : forall calls x,
    agents_required INTERVAL MAX_ACCURACY F sla service_time (IZR calls) aht = Ok x ->
    (x >? k)%Z && (calls >? 0)%Z = false ->
    (calls <= calls)%Z /\ ((0 <= calls)%Z -> (0 <= calls)%Z) /\
    ((calls <= 0)%Z \/
     exists x', agents_required INTERVAL MAX_ACCURACY F sla service_time (IZR calls) aht
                = Ok x' /\ (x' <= k)%Z) /\
    (forall c, (calls < c <= calls)%Z ->
       exists x', agents_required INTERVAL MAX_ACCURACY F sla service_time (IZR c) aht
                  = Ok x' /\ (k < x')%Z)).
  { intros calls x Hx Hcond. split; [lia |]. split; [auto |]. split; [| intros; lia].
    apply andb_false_iff in Hcond. destruct Hcond as [Hc | Hc].
    - right. exists x. split; [assumption |].
      rewrite Z.gtb_ltb in Hc. apply Z.ltb_ge in Hc. assumption.
    - left. rewrite Z.gtb_ltb in Hc. apply Z.ltb_ge in Hc. assumption. }
  induction f as [| f IH]; intros calls x Hx; cbn [capacity_loop];
    destruct ((x >? k)%Z && (calls >? 0)%Z) eqn:Hcond; intros H; try discriminate.
  - injection H as <-. eapply Hexit; eassumption.
  - bind_inv H. rename v into x1.
    apply (agents_required_fuel _ _ (S f) F) in E; [| assumption].
    apply IH in H; [| lia | exact E].
    destruct H as (Hr & Hnn & Hat & Habove).
    apply andb_true_iff in Hcond. destruct Hcond as [Hxk Hc0].
    rewrite Z.gtb_ltb in Hxk, Hc0. apply Z.ltb_lt in Hxk. apply Z.ltb_lt in Hc0.
    split; [lia |]. split; [intros; apply Hnn; lia |]. split; [exact Hat |].
    intros c Hc. destruct (Z.eq_dec c calls) as [-> | Hne].
    + exists x. split; [assumption | lia].
    + apply Habove. lia.
  - injection H as <-. eapply Hexit; eassumption.
Qed.

(** X22.  [call_capacity] returns the largest call volume, from
    [int_ceiling(INTERVAL / aht) * int(no_agents)] downwards, that
    [agents_required] staffs with at most [int(no_agents)] agents: the
    result is a whole number [calls] no larger than the starting volume,
    non-negative when the start is; unless it is zero (or the start was
    not positive) [agents_required] at [calls] asks for no more than
    [int(no_agents)] agents; and at every whole volume above [calls], up
    to the start, it asks for more. *)
Theorem call_capacity_largest (INTERVAL MAX_ACCURACY : R) (fuel : nat)
    (no_agents sla : R) (service_time aht : Z) (r : R) :
  call_capacity INTERVAL MAX_ACCURACY fuel no_agents sla service_time aht = Ok r ->
  let k := py_int no_agents in
  let top := (int_ceiling (INTERVAL / IZR aht) * k)%Z in
  exists calls : Z,
    r = IZR calls /\ (calls <= top)%Z /\ ((0 <= top)%Z -> (0 <= calls)%Z) /\
    ((calls <= 0)%Z \/
     exists x, agents_required INTERVAL MAX_ACCURACY fuel sla service_time
                 (IZR calls) aht = Ok x /\ (x <= k)%Z) /\
    (forall c, (calls < c <= top)%Z ->
       exists x, agents_required INTERVAL MAX_ACCURACY fuel sla service_time
                   (IZR c) aht = Ok x /\ (k < x)%Z).
Proof.
  unfold call_capacity. destruct (_ || _); [discriminate |].
  intros H. cbv zeta. apply try_calc_ok in H. cbv zeta in H.
  bind_inv H. apply fdiv_inv in E. destruct E as [_ ->].
  bind_inv H. bind_inv H. ok_inv H.
  match goal with
  | Hc : capacity_loop _ _ _ _ _ _ _ _ _ = Ok ?c |- _ =>
      exists c; split; [reflexivity |];
      eapply (capacity_loop_scan _ _ fuel fuel); [apply le_n | | exact Hc]
  end.
  eassumption.
Qed.

Lemma case_call_capacity :
  call_capacity 3600 (1 / 100000) 2 1 0 20 180 = Ok 19.
Proof.
  assert (Ec : int_ceiling (3600 / 180) = 20%Z).
  { unfold int_ceiling. rewrite Rltb_false by lra. apply py_int_unique; lra. }
  assert (E20 : agents_required 3600 (1 / 100000) 2 0 20 20 180 = Ok 2%Z).
  { unfold agents_required. py_eval. unfold first_agents. py_eval.
    replace (20 * 180 / 3600 + 5 / 10) with (1 + 5 / 10) by lra.
    rewrite (py_int_unique (1 + 5 / 10) 1) by lra.
    py_eval. cbn [raise_agents]. py_eval. cbn [raise_agents]. py_eval.
    cbv zeta. unfold py_min. rewrite Rltb_false by lra.
    replace (Z.to_nat 200) with (S (Z.to_nat 199)) by lia.
    rewrite required_ladder_round by (lia || lra). cbv zeta.
    assert (Hs := service_level_unit 2 (20 / (3600 / 180)) 20 180
                    ltac:(lra) ltac:(lra) ltac:(lra) ltac:(lra)).
    rewrite (Rleb_true 0) by lra. reflexivity. }
  assert (E19 : agents_required 3600 (1 / 100000) 2 0 20 19 180 = Ok 1%Z).
  { unfold agents_required. py_eval. unfold first_agents. py_eval.
    replace (19 * 180 / 3600 + 5 / 10) with (1 + 45 / 100) by lra.
    rewrite (py_int_unique (1 + 45 / 100) 1) by lra.
    py_eval. cbn [raise_agents]. py_eval.
    cbv zeta. unfold py_min. rewrite Rltb_false by lra.
    replace (Z.to_nat 100) with (S (Z.to_nat 99)) by lia.
    rewrite required_ladder_round by (lia || lra). cbv zeta.
    assert (Hs := service_level_unit 1 (19 / (3600 / 180)) 20 180
                    ltac:(lra) ltac:(lra) ltac:(lra) ltac:(lra)).
    rewrite (Rleb_true 0) by lra. reflexivity. }
  unfold call_capacity. py_eval. cbv zeta. rewrite Ec, (py_int_IZR 1).
  change (IZR (20 * 1)) with 20. rewrite E20. cbn [bind].
  cbn [capacity_loop]. change (20 * 1)%Z with 20%Z. py_eval.
  change (IZR (20 - 1)) with 19. rewrite E19. cbn [bind]. py_eval.
  reflexivity.
Qed.

Lemma call_capacity_largest_witness :
  exists calls : Z,
    19 = IZR calls /\ (calls <= 20)%Z /\
    (forall c, (calls < c <= 20)%Z ->
       exists x, agents_required 3600 (1 / 100000) 2 0 20 (IZR c) 180 = Ok x /\
                 (1 < x)%Z).
Proof.
  pose proof (call_capacity_largest 3600 (1 / 100000) 2 1 0 20 180 19
                case_call_capacity) as H.
  cbv zeta in H.
  assert (Ec : int_ceiling (3600 / IZR 180) = 20%Z).
  { unfold int_ceiling. rewrite Rltb_false by lra. apply py_int_unique; lra. }
  rewrite Ec, (py_int_IZR 1) in H. change (20 * 1)%Z with 20%Z in H.
  destruct H as (calls & E & Hle & _ & _ & Habove).
  exists calls. split; [exact E |]. split; [exact Hle | exact Habove].
Defined.

(** ** [fractional_call_capacity]: the same scan on fractional agents *)

Lemma fractional_capacity_loop_scan (INTERVAL MAX_ACCURACY : R) (F f : nat)
    (sla : R) (service_time aht : Z) (k : R) (calls : Z) (x : R) (r : Z) :
  (f <= F)%nat ->
  fractional_agents INTERVAL MAX_ACCURACY F sla service_time (IZR calls) aht = Ok x ->
  fractional_capacity_loop INTERVAL MAX_ACCURACY f sla service_time aht k calls x
  = Ok r ->
  (r <= calls)%Z /\ ((0 <= calls)%Z -> (0 <= r)%Z) /\
  ((r <= 0)%Z \/
   exists x', fractional_agents INTERVAL MAX_ACCURACY F sla service_time (IZR r) aht
              = Ok x' /\ x' <= k) /\
  (forall c, (r < c <= calls)%Z ->
     exists x', fractional_agents INTERVAL MAX_ACCURACY F sla service_time (IZR c) aht
                = Ok x' /\ k < x').
Proof.
  intros HF. revert calls x.
  assert (Hexit : forall calls x,
    fractional_agents INTERVAL MAX_ACCURACY F sla service_time (IZR calls) aht = Ok x ->
    (x >? k) && (calls >? 0)%Z = false ->
    (calls <= calls)%Z /\ ((0 <= calls)%Z -> (0 <= calls)%Z) /\
    ((calls <= 0)%Z \/
     exists x', fractional_agents INTERVAL MAX_ACCURACY F sla service_time (IZR calls)
                  aht = Ok x' /\ x' <= k) /\
    (forall c, (calls < c <= calls)%Z ->
       exists x', fractional_agents INTERVAL MAX_ACCURACY F sla service_time (IZR c)
                    aht = Ok x' /\ k < x')).
  { intros calls x Hx Hcond. split; [lia |]. split; [auto |]. split; [| intros; lia].
    apply andb_false_iff in Hcond. destruct Hcond as [Hc | Hc].
    - right. exists x. split; [assumption |].
      destruct (Rltb_spec k x) as [Hlt | Hge]; [discriminate | lra].
    - left. rewrite Z.gtb_ltb in Hc. apply Z.ltb_ge in Hc. assumption. }
  induction f as [| f IH]; intros calls x Hx; cbn [fractional_capacity_loop];
    destruct ((x >? k) && (calls >? 0)%Z) eqn:Hcond; intros H; try discriminate.
  - injection H as <-. eapply Hexit; eassumption.
  - bind_inv H. rename v into x1.
    apply (fractional_agents_fuel _ _ (S f) F) in E; [| assumption].
    apply IH in H; [| lia | exact E].
    destruct H as (Hr & Hnn & Hat & Habove).
    apply andb_true_iff in Hcond. destruct Hcond as [Hxk Hc0].
    rewrite Z.gtb_ltb in Hc0. apply Z.ltb_lt in Hc0.
    destruct (Rltb_spec k x) as [Hlt | Hge]; [| discriminate].
    split; [lia |]. split; [intros; apply Hnn; lia |]. split; [exact Hat |].
    intros c Hc. destruct (Z.eq_dec c calls) as [-> | Hne].
    + exists x. split; [assumption | assumption].
    + apply Habove. lia.
  - injection H as <-. eapply Hexit; eassumption.
Qed.

(** X23.  [fractional_call_capacity] returns the largest call volume, from
    [int_ceiling((INTERVAL / aht) * no_agents)] downwards, for which
    [fractional_agents] asks for no more than [no_agents]: unless the
    result is zero (or the start was not positive) the fractional need at
    the result is at most [no_agents], and at every whole volume above
    it, up to the start, the need exceeds [no_agents]. *)
Theorem fractional_call_capacity_largest (INTERVAL MAX_ACCURACY : R) (fuel : nat)
    (no_agents sla : R) (service_time aht : Z) (r : R) :
  fractional_call_capacity INTERVAL MAX_ACCURACY fuel no_agents sla service_time aht
  = Ok r ->
  let top := int_ceiling (INTERVAL / IZR aht * no_agents) in
  exists calls : Z,
    r = IZR calls /\ (calls <= top)%Z /\ ((0 <= top)%Z -> (0 <= calls)%Z) /\
    ((calls <= 0)%Z \/
     exists x, fractional_agents INTERVAL MAX_ACCURACY fuel sla service_time
                 (IZR calls) aht = Ok x /\ x <= no_agents) /\
    (forall c, (calls < c <= top)%Z ->
       exists x, fractional_agents INTERVAL MAX_ACCURACY fuel sla service_time
                   (IZR c) aht = Ok x /\ no_agents < x).
Proof.
  unfold fractional_call_capacity. destruct (_ || _); [discriminate |].
  intros H. cbv zeta. apply try_calc_ok in H. cbv zeta in H.
  bind_inv H. apply fdiv_inv in E. destruct E as [_ ->].
  bind_inv H. bind_inv H. ok_inv H.
  match goal with
  | Hc : fractional_capacity_loop _ _ _ _ _ _ _ _ _ = Ok ?c |- _ =>
      exists c; split; [reflexivity |];
      eapply (fractional_capacity_loop_scan _ _ fuel fuel); [apply le_n | | exact Hc]
  end.
  eassumption.
Qed.

(** A stable sample has a positive service level. *)
Lemma service_level_pos (agents t st aht : R) :
  1 <= agents -> 0 <= t < agents -> 0 <= st -> 0 < aht ->
  0 < service_level agents t st aht.
Proof.
  intros Hag Ht Hst Haht. unfold service_level.
  assert (Hx : (t - agents) * st / aht <= 0).
  { apply div_le_iff; [assumption |]. nra. }
  pose proof (exp_le_1 _ Hx) as He.
  assert (Hc : 0 <= C_formula agents t < 1).
  { unfold C_formula.
    pose proof (C_denominator_pos agents t Hag ltac:(lra)) as Hd. cbv zeta in Hd.
    pose proof (py_int_ge_1 agents Hag) as Hn.
    destruct (Z.to_nat (py_int agents)) as [| m] eqn:En; [lia |].
    pose proof (B_rec_lt_1 t m ltac:(lra)) as Hb.
    destruct (B_rec_inv t (S m) ltac:(lra)) as [[Hb0 _] _].
    set (b := B_rec t (S m)) in *.
    assert (Hrho : 0 <= t / agents < 1).
    { split; [apply div_nonneg; lra | apply div_lt_iff; lra]. }
    split; [apply div_nonneg; lra |].
    apply div_lt_iff; [assumption |]. nra. }
  nra.
Qed.

Lemma case_fractional_call_capacity :
  fractional_call_capacity 3600 (1 / 100000) 2 1 0 20 180 = Ok 20.
Proof.
  assert (Ec : int_ceiling (3600 / 180 * 1) = 20%Z).
  { unfold int_ceiling. rewrite Rltb_false by lra. apply py_int_unique; lra. }
  assert (E20 : fractional_agents 3600 (1 / 100000) 2 0 20 20 180 = Ok 1).
  { unfold fractional_agents. py_eval. unfold first_agents. py_eval.
    replace (20 * 180 / 3600 + 5 / 10) with (1 + 5 / 10) by lra.
    rewrite (py_int_unique (1 + 5 / 10) 1) by lra.
    py_eval. cbn [raise_agents]. py_eval. cbn [raise_agents]. py_eval.
    cbv zeta. unfold py_min. rewrite Rltb_false by lra.
    replace (Z.to_nat 200) with (S (Z.to_nat 199)) by lia.
    rewrite fractional_ladder_round by (lia || lra). cbv zeta.
    assert (Hs := service_level_pos 2 (20 / (3600 / 180)) 20 180
                    ltac:(lra) ltac:(lra) ltac:(lra) ltac:(lra)).
    rewrite (Rleb_true 0) by lra. cbn [orb bind]. unfold interpolate.
    rewrite Rltb_true by assumption. rewrite fdiv_ok by lra. cbn [bind].
    cbn [try_calc]. f_equal. change (IZR (2 - 1)) with 1. field. lra. }
  unfold fractional_call_capacity. py_eval. cbv zeta. rewrite Ec.
  rewrite E20. cbn [bind]. cbn [fractional_capacity_loop].
  rewrite (Rltb_false 1 1) by lra. cbn [andb bind]. reflexivity.
Qed.

Lemma fractional_call_capacity_largest_witness :
  exists calls : Z,
    20 = IZR calls /\ (calls <= 20)%Z /\
    ((calls <= 0)%Z \/
     exists x, fractional_agents 3600 (1 / 100000) 2 0 20 (IZR calls) 180 = Ok x /\
               x <= 1).
Proof.
  pose proof (fractional_call_capacity_largest 3600 (1 / 100000) 2 1 0 20 180 20
                case_fractional_call_capacity) as H.
  cbv zeta in H.
  assert (Ec : int_ceiling (3600 / IZR 180 * 1) = 20%Z).
  { unfold int_ceiling. rewrite Rltb_false by lra. apply py_int_unique; lra. }
  rewrite Ec in H.
  destruct H as (calls & E & Hle & _ & Hat & _).
  exists calls. split; [exact E |]. split; [exact Hle | exact Hat].
Defined.

(** ** [asa] against [queue_time] *)

(** X24.  Whenever [asa] and [queue_time] both return on the same input,
    the answer time is non-negative and at most the queue time: the two
    differ only by the factor [erlang_c], a probability, in front of the
    same quotient. *)
Theorem asa_at_most_queue_time (INTERVAL agents calls_per_hour : R) (aht a q : Z) :
  0 < INTERVAL ->
  asa INTERVAL agents calls_per_hour aht = Ok a ->
  queue_time INTERVAL agents calls_per_hour aht = Ok q ->
  (0 <= a <= q)%Z.
Proof.
  intros HI. unfold asa, queue_time.
  destruct (Rleb_spec agents 0) as [| Hag]; [discriminate |].
  rewrite (Rltb_false agents 0) by lra.
  destruct (Rltb_spec calls_per_hour 0) as [| Hc]; [discriminate |].
  destruct (Z.leb_spec aht 0) as [| Haht]; [discriminate |].
  cbn [orb]. intros Ha Hq.
  apply try_calc_ok in Ha. apply try_calc_ok in Hq. cbv zeta in Ha, Hq.
  bind_inv Ha. rename v into d. rewrite E in Hq. cbn [bind] in Hq.
  bind_inv Ha. rename v into t. rewrite E0 in Hq. cbn [bind] in Hq.
  bind_inv Ha. rename v into u0. rewrite E1 in Hq. cbn [bind] in Hq.
  bind_inv Ha. rename v into c. bind_inv Ha. rename v into w. ok_inv Ha.
  bind_inv Hq. rename v into w'. ok_inv Hq.
  pose proof (erlang_c_range _ _ _ E2) as Hcr.
  apply fdiv_inv in E. destruct E as [_ ->].
  apply fdiv_inv in E0. destruct E0 as [_ ->].
  apply fdiv_inv in E1. destruct E1 as [_ ->].
  pose proof (death_rate_pos INTERVAL aht HI Haht) as Hd.
  set (d := INTERVAL / IZR aht) in *.
  set (u := if calls_per_hour / d / agents >=? 1 then 99 / 100
            else calls_per_hour / d / agents) in *.
  assert (Hu : u < 1).
  { unfold u. destruct (Rleb_spec 1 (calls_per_hour / d / agents)); lra. }
  assert (HD : 0 < agents * d * (1 - u)).
  { apply Rmult_lt_0_compat; [apply Rmult_lt_0_compat |]; lra. }
  apply fdiv_inv in E3. destruct E3 as [_ ->].
  apply fdiv_inv in E4. destruct E4 as [_ ->].
  unfold secs, default_interval.
  assert (Hw : 0 <= c / (agents * d * (1 - u)) <= 1 / (agents * d * (1 - u))).
  { split; [apply div_nonneg; lra |].
    apply div_le_iff; [assumption |].
    replace (1 / (agents * d * (1 - u)) * (agents * d * (1 - u))) with 1
      by (field; lra).
    lra. }
  split.
  - apply py_int_nonneg. nra.
  - apply py_int_mono; nra.
Qed.

Lemma asa_at_most_queue_time_witness :
  exists a q,
    asa 3600 2 20 180 = Ok a /\ queue_time 3600 2 20 180 = Ok q /\ (0 <= a <= q)%Z.
Proof.
  assert (Ea : exists a, asa 3600 2 20 180 = Ok a).
  { unfold asa. py_eval.
    destruct (erlang_c_stable 2 (20 / (3600 / 180)) ltac:(lra) ltac:(lra)) as [-> _].
    cbn [bind]. py_eval. eexists. reflexivity. }
  assert (Eq : exists q, queue_time 3600 2 20 180 = Ok q).
  { unfold queue_time. py_eval. eexists. reflexivity. }
  destruct Ea as (a & Ea). destruct Eq as (q & Eq).
  exists a, q. split; [exact Ea |]. split; [exact Eq |].
  exact (asa_at_most_queue_time 3600 2 20 180 a q ltac:(lra) Ea Eq).
Defined.


(** * The code on binary64 numbers *)

(** ** A NaN passes the clamp *)

(** C3.  The clamp [max(min(val, 1.0), 0.0)] does not hold back a NaN:
    [erlang_b_ext(1.0, 1e300, 0.9999999999999999)] returns NaN, which is
    neither [>= 0] nor [<= 1].  With one server the first blocking value
    [1e300 / (1 + 1e300)] rounds to 1.0, the retry factor
    [1 / (1 - 0.9999999999999999)] is [2^53], the product
    [1e300 * 2^53] overflows to infinity, and [inf / (1 + inf)] is NaN;
    [min(nan, 1.0)] and [max(nan, 0.0)] keep their first argument. *)
Theorem erlang_b_ext_returns_nan :
  Binary64.erlang_b_ext 1 1e300 0.9999999999999999 = Ok nan /\
  (0 <=? nan)%float = false /\ (nan <=? 1)%float = false.
Proof. vm_compute. repeat split. Qed.

(** ** [traffic] with a target blocking above 1 *)

Lemma binary64_traffic_double_fuel (f1 f2 : nat) (servers blocking max_i b : float)
    (r : result float) :
  (f1 <= f2)%nat -> r <> OutOfFuel ->
  Binary64.traffic_double f1 servers blocking max_i b = r ->
  Binary64.traffic_double f2 servers blocking max_i b = r.
Proof.
  intros Hle Hr. revert f2 max_i b Hle.
  induction f1 as [| f1 IH]; intros f2 max_i b Hle H.
  - cbn [Binary64.traffic_double] in H.
    destruct (b <? blocking)%float eqn:Eb; [congruence |].
    destruct f2; cbn [Binary64.traffic_double]; rewrite Eb; assumption.
  - destruct f2 as [| f2]; [lia |]. cbn [Binary64.traffic_double] in H |- *.
    destruct (b <? blocking)%float; [| assumption].
    destruct (Binary64.erlang_b servers (max_i * 2)); cbn [bind] in H |- *;
      try assumption.
    apply IH; [lia | assumption].
Qed.

Lemma binary64_traffic_incr_fuel (f1 f2 : nat) (max_i incr : float)
    (r : result float) :
  (f1 <= f2)%nat -> r <> OutOfFuel ->
  Binary64.traffic_incr f1 max_i incr = r ->
  Binary64.traffic_incr f2 max_i incr = r.
Proof.
  intros Hle Hr. revert f2 incr Hle.
  induction f1 as [| f1 IH]; intros f2 incr Hle H.
  - cbn [Binary64.traffic_incr] in H.
    destruct (incr <=? max_i / 100)%float eqn:Eb; [congruence |].
    destruct f2; cbn [Binary64.traffic_incr]; rewrite Eb; assumption.
  - destruct f2 as [| f2]; [lia |]. cbn [Binary64.traffic_incr] in H |- *.
    destruct (incr <=? max_i / 100)%float; [| assumption].
    apply IH; [lia | assumption].
Qed.

(** With one server and a target of 2 the doubling loop ends after 1024
    rounds, on the bound [inf] whose blocking is NaN. *)
Lemma binary64_double_to_infinity (fuel : nat) :
  Binary64.traffic_double fuel 1 2 1 0.5 = OutOfFuel \/
  Binary64.traffic_double fuel 1 2 1 0.5 = Ok infinity.
Proof.
  destruct (Nat.le_gt_cases 1024 fuel) as [Hge | Hlt].
  - right. apply (binary64_traffic_double_fuel 1024 fuel); [assumption | discriminate |].
    vm_compute. reflexivity.
  - left. destruct (Binary64.traffic_double fuel 1 2 1 0.5) as [v | e |] eqn:E;
      [| | reflexivity].
    + apply (binary64_traffic_double_fuel fuel 1023) in E; [| lia | discriminate].
      vm_compute in E. discriminate.
    + apply (binary64_traffic_double_fuel fuel 1023) in E; [| lia | discriminate].
      vm_compute in E. discriminate.
Qed.

(** Below the bound [inf] the step never stops growing: [incr <= inf]
    holds for every power of ten, and for [inf] itself. *)
Lemma binary64_incr_never_stops (fuel : nat) :
  Binary64.traffic_incr fuel infinity 1 = OutOfFuel.
Proof.
  assert (Hinf : forall f, Binary64.traffic_incr f infinity infinity = OutOfFuel).
  { induction f as [| f IH]; cbn [Binary64.traffic_incr].
    - reflexivity.
    - change (infinity <=? infinity / 100)%float with true.
      change (infinity * 10)%float with infinity. exact IH. }
  assert (Hrun : forall f,
    Binary64.traffic_incr (400 + f) infinity 1
    = Binary64.traffic_incr f infinity infinity).
  { intros f. vm_compute. reflexivity. }
  destruct (Nat.le_gt_cases 400 fuel) as [Hge | Hlt].
  - replace fuel with (400 + (fuel - 400))%nat by lia.
    rewrite Hrun. apply Hinf.
  - destruct (Binary64.traffic_incr fuel infinity 1) as [v | e |] eqn:E;
      [| | reflexivity].
    + apply (binary64_traffic_incr_fuel fuel (400 + 0)) in E; [| lia | discriminate].
      rewrite Hrun, Hinf in E. discriminate.
    + apply (binary64_traffic_incr_fuel fuel (400 + 0)) in E; [| lia | discriminate].
      rewrite Hrun, Hinf in E. discriminate.
Qed.

(** In binary64 [traffic(1.0, 2.0)] does not return either: the doubling
    loop ends, on [inf], and the loop that sizes the first step never
    does. *)
Lemma binary64_traffic_hangs (fuel : nat) :
  Binary64.traffic fuel 1 2 = OutOfFuel.
Proof.
  unfold Binary64.traffic.
  change (Binary64.py_int 1) with (@Ok Z 1%Z). cbn [bind].
  change (Binary64.of_Z 1) with (Ok 1%float). cbn [bind].
  change ((1 <? 1)%float || (2 <? 0)%float) with false. cbv iota.
  change (Binary64.erlang_b 1 1) with (Ok 0.5%float). cbn [bind].
  destruct (binary64_double_to_infinity fuel) as [-> | ->]; cbn [bind].
  - reflexivity.
  - rewrite binary64_incr_never_stops. reflexivity.
Qed.

(** * The caps of the search loops *)

Import Rounds.

Ltac counted_leaf := split; [reflexivity | cbn [snd]; lia].

Lemma looping_traffic_counted_spec (n : nat) (trunks blocking increment
    max_intensity min_i intensity : R) :
  fst (looping_traffic_counted n trunks blocking increment max_intensity min_i
         intensity)
  = looping_traffic_loop n trunks blocking increment max_intensity min_i intensity /\
  (snd (looping_traffic_counted n trunks blocking increment max_intensity min_i
          intensity) <= n)%nat.
Proof.
  revert increment max_intensity min_i intensity.
  induction n as [| n IH]; intros increment max_intensity min_i intensity;
    cbn [looping_traffic_counted looping_traffic_loop]; [counted_leaf |].
  destruct (increment >=? Traffic.MAX_ACCURACY); [| counted_leaf].
  unfold tick. cbn [fst snd].
  destruct (erlang_b trunks intensity) as [b | e |]; cbn [bindc bind];
    [| counted_leaf | counted_leaf].
  destruct (b >? blocking).
  - destruct (IH (increment / 10) intensity min_i (min_i + increment / 10))
      as [H1 H2].
    split; [exact H1 | lia].
  - destruct (IH increment max_intensity intensity (intensity + increment))
      as [H1 H2].
    split; [exact H1 | lia].
Qed.

Lemma required_ladder_counted_spec (MAX_ACCURACY : R) (n : nat) (sla : R)
    (service_time aht : Z) (t : R) (N : Z) :
  fst (required_ladder_counted MAX_ACCURACY n sla service_time aht t N)
  = required_ladder MAX_ACCURACY n sla service_time aht t N /\
  (snd (required_ladder_counted MAX_ACCURACY n sla service_time aht t N) <= n)%nat.
Proof.
  revert N. induction n as [| n IH]; intros N;
    cbn [required_ladder_counted required_ladder]; [counted_leaf |].
  unfold tick. cbn [fst snd].
  assert (Hnext :
    fst (required_ladder_counted MAX_ACCURACY n sla service_time aht t (N + 1))
    = required_ladder MAX_ACCURACY n sla service_time aht t (N + 1) /\
    (S (snd (required_ladder_counted MAX_ACCURACY n sla service_time aht t (N + 1)))
     <= S n)%nat).
  { destruct (IH (N + 1)%Z) as [H1 H2]. split; [exact H1 | lia]. }
  destruct (fdiv t (IZR N)) as [u | e |]; cbn [bindc bind];
    [| counted_leaf | counted_leaf].
  destruct (u <? 1); [| exact Hnext].
  destruct (erlang_c (IZR N) t) as [c | e |]; cbn [bindc bind];
    [| counted_leaf | counted_leaf].
  destruct (fdiv _ (IZR aht)) as [x | e |]; cbn [bindc bind];
    [| counted_leaf | counted_leaf].
  cbv zeta. destruct (_ || _); [counted_leaf | exact Hnext].
Qed.

Lemma asa_ladder_counted_spec (INTERVAL : R) (n : nat)
    (asa_target d t u : R) (N : Z) :
  fst (asa_ladder_counted INTERVAL n asa_target d t u N)
  = asa_ladder INTERVAL n asa_target d t u N /\
  (snd (asa_ladder_counted INTERVAL n asa_target d t u N) <= n)%nat.
Proof.
  revert N. induction n as [| n IH]; intros N;
    cbn [asa_ladder_counted asa_ladder]; [counted_leaf |].
  unfold tick. cbn [fst snd].
  destruct (erlang_c (IZR N) t) as [c | e |]; cbn [bindc bind];
    [| counted_leaf | counted_leaf].
  destruct (fdiv c _) as [w | e |]; cbn [bindc bind];
    [| counted_leaf | counted_leaf].
  destruct (_ <=? asa_target); [counted_leaf |].
  destruct (IH (N + 1)%Z) as [H1 H2]. split; [exact H1 | lia].
Qed.

Lemma fractional_ladder_counted_spec (MAX_ACCURACY : R) (n : nat) (sla : R)
    (service_time aht : Z) (t : R) (N : Z) (slq last : R) :
  fst (fractional_ladder_counted MAX_ACCURACY n sla service_time aht t N slq last)
  = fractional_ladder MAX_ACCURACY n sla service_time aht t N slq last /\
  (snd (fractional_ladder_counted MAX_ACCURACY n sla service_time aht t N slq last)
   <= n)%nat.
Proof.
  revert N slq last. induction n as [| n IH]; intros N slq last;
    cbn [fractional_ladder_counted fractional_ladder]; [counted_leaf |].
  unfold tick. cbn [fst snd].
  assert (Hnext : forall s l,
    fst (fractional_ladder_counted MAX_ACCURACY n sla service_time aht t (N + 1) s l)
    = fractional_ladder MAX_ACCURACY n sla service_time aht t (N + 1) s l /\
    (S (snd (fractional_ladder_counted MAX_ACCURACY n sla service_time aht t
               (N + 1) s l)) <= S n)%nat).
  { intros s l. destruct (IH (N + 1)%Z s l) as [H1 H2]. split; [exact H1 | lia]. }
  destruct (fdiv t (IZR N)) as [u | e |]; cbn [bindc bind];
    [| counted_leaf | counted_leaf].
  destruct (u <? 1); [| apply Hnext].
  destruct (erlang_c (IZR N) t) as [c | e |]; cbn [bindc bind];
    [| counted_leaf | counted_leaf].
  destruct (fdiv _ (IZR aht)) as [x | e |]; cbn [bindc bind];
    [| counted_leaf | counted_leaf].
  cbv zeta. destruct (_ || _); [counted_leaf | apply Hnext].
Qed.

Lemma nb_agents_loop_counted_spec (INTERVAL : R) (n : nat) (count : Z)
    (calls_ph avg_sa : R) (avg_ht : Z) :
  fst (nb_agents_loop_counted INTERVAL n count calls_ph avg_sa avg_ht)
  = nb_agents_loop INTERVAL n count calls_ph avg_sa avg_ht /\
  (snd (nb_agents_loop_counted INTERVAL n count calls_ph avg_sa avg_ht) <= n)%nat.
Proof.
  revert count. induction n as [| n IH]; intros count;
    cbn [nb_agents_loop_counted nb_agents_loop]; [counted_leaf |].
  unfold tick. cbn [fst snd].
  destruct (asa INTERVAL (IZR count) calls_ph avg_ht) as [a | e |];
    cbn [bindc bind]; [| counted_leaf | counted_leaf].
  destruct (IZR a <=? avg_sa); [counted_leaf |].
  destruct (IH (count + 1)%Z) as [H1 H2]. split; [exact H1 | lia].
Qed.

Lemma number_trunks_loop_counted_spec (n : nat) (count : Z) (intensity : R) :
  fst (number_trunks_loop_counted n count intensity)
  = number_trunks_loop n count intensity /\
  (snd (number_trunks_loop_counted n count intensity) <= n)%nat.
Proof.
  revert count. induction n as [| n IH]; intros count;
    cbn [number_trunks_loop_counted number_trunks_loop]; [counted_leaf |].
  unfold tick. cbn [fst snd].
  destruct (erlang_b (IZR count) intensity) as [b | e |];
    cbn [bindc bind]; [| counted_leaf | counted_leaf].
  destruct (b <? 1 / 1000); [counted_leaf |].
  destruct (IH (count + 1)%Z) as [H1 H2]. split; [exact H1 | lia].
Qed.

Lemma counted_pair {A : Type} (c : result A * nat) (r : result A) (n : nat) :
  fst c = r /\ (snd c <= n)%nat -> exists k, c = (r, k) /\ (k <= n)%nat.
Proof.
  intros [H1 H2]. exists (snd c). split; [| exact H2].
  rewrite <- H1. apply surjective_pairing.
Qed.

(** A search for trunks that starts at zero trunks is over after one
    round: [erlang_b] at zero trunks either raises or answers 0. *)
Lemma number_trunks_from_zero (n : nat) (intensity : R) :
  (snd (number_trunks_loop_counted n 0 intensity) <= 1)%nat.
Proof.
  destruct n as [| n]; cbn [number_trunks_loop_counted]; [cbn [snd]; lia |].
  unfold tick. cbn [fst snd].
  destruct (Rltb_spec intensity 0) as [Hneg | Hpos].
  - rewrite erlang_b_negative by (right; assumption). cbn [bindc].
    rewrite Rltb_true by lra. cbn [snd]. lia.
  - rewrite erlang_b_unbound by lra. cbn [bindc snd]. lia.
Qed.




(** * The utilisation cap *)

(** In exact arithmetic neither [queue_time] nor [service_time] returns a
    negative number, capped or not. *)
Lemma queue_metrics_nonneg (INTERVAL agents sla calls_per_hour : R) (aht z : Z) :
  0 < INTERVAL ->
  (queue_time INTERVAL agents calls_per_hour aht = Ok z -> (0 <= z)%Z) /\
  (service_time INTERVAL agents sla calls_per_hour aht = Ok z -> (0 <= z)%Z).
Proof.
  intros HI.
  assert (Hcommon : forall d t u,
    (0 < aht)%Z -> 0 <= agents -> 0 <= calls_per_hour ->
    fdiv INTERVAL (IZR aht) = Ok d -> fdiv calls_per_hour d = Ok t ->
    fdiv t agents = Ok u ->
    0 < agents * d * (1 - (if u >=? 1 then 99 / 100 else u))).
  { intros d t u Haht Hag Hc Ed Et Eu.
    apply fdiv_inv in Ed. destruct Ed as [_ ->].
    apply fdiv_inv in Et. destruct Et as [_ ->].
    apply fdiv_inv in Eu. destruct Eu as [Hne ->].
    pose proof (death_rate_pos INTERVAL aht HI Haht) as Hd.
    assert (Hpos : 0 < agents) by lra.
    apply Rmult_lt_0_compat; [apply Rmult_lt_0_compat; assumption |].
    destruct (Rleb_spec 1 (calls_per_hour / (INTERVAL / IZR aht) / agents)); lra. }
  split.
  - unfold queue_time. destruct (Rltb_spec agents 0) as [| Hag]; [discriminate |].
    destruct (Rltb_spec calls_per_hour 0) as [| Hc]; [discriminate |].
    destruct (Z.leb_spec aht 0) as [| Haht]; [discriminate |].
    cbn [orb]. intros H. apply try_calc_ok in H. cbv zeta in H.
    bind_inv H. bind_inv H. bind_inv H. bind_inv H. ok_inv H.
    pose proof (Hcommon _ _ _ Haht ltac:(lra) ltac:(lra) E E0 E1) as HD.
    apply fdiv_inv in E2. destruct E2 as [_ ->].
    unfold secs, default_interval. apply py_int_nonneg.
    assert (0 < 1 / (agents * v * (1 - (if v1 >=? 1 then 99 / 100 else v1)))).
    { apply Rdiv_lt_0_compat; lra. }
    nra.
  - unfold service_time. destruct (Rltb_spec agents 0) as [| Hag]; [discriminate |].
    destruct (Rltb_spec sla 0) as [| Hsla]; [discriminate |].
    destruct (Rltb_spec calls_per_hour 0) as [| Hc]; [discriminate |].
    destruct (Z.leb_spec aht 0) as [| Haht]; [discriminate |].
    cbn [orb]. intros H. apply try_calc_ok in H. cbv zeta in H.
    bind_inv H. bind_inv H. bind_inv H.
    destruct (Rltb_spec v1 (1 - sla)) as [| Hreach]; [discriminate |].
    bind_inv H. bind_inv H. bind_inv H. ok_inv H.
    pose proof (Hcommon _ _ _ Haht ltac:(lra) ltac:(lra) E E0 E2) as HD.
    apply fdiv_inv in E3. destruct E3 as [_ ->].
    apply fdiv_inv in E4. destruct E4 as [Hc0 ->].
    pose proof (erlang_c_range _ _ _ E1) as Hrange.
    assert (Hq : 0 < 1 / (agents * v * (1 - (if v2 >=? 1 then 99 / 100 else v2)))).
    { apply Rdiv_lt_0_compat; lra. }
    assert (Hw : (1 - sla) / v1 <= 1).
    { apply div_le_iff; lra. }
    set (q := 1 / _) in *.
    assert (Hs : 0 <= q * INTERVAL * (1 - (1 - sla) / v1)).
    { apply Rmult_le_pos; [nra | lra]. }
    rewrite Rltb_false by assumption. apply py_int_nonneg. lra.
Qed.

(** X25.  Whenever the utilisation that the code computes,
    [traffic_rate / agents] in binary64, is [>= 1]: [queue_time] and
    [service_time] go on with [0.99] in its place, so the factor
    [1 - utilisation] of their divisor is [1 - 0.99], which is not zero;
    their run is the run of their formula with that factor.  And, cap or
    no cap, neither function returns a negative number. *)
Theorem utilisation_cap (INTERVAL agents calls_per_hour : float) (aht : Z)
    (a d t u : float) :
  (agents <? 0)%float = false -> (calls_per_hour <? 0)%float = false ->
  (0 < aht)%Z ->
  Binary64.of_Z aht = Ok a -> Binary64.fdiv INTERVAL a = Ok d ->
  Binary64.fdiv calls_per_hour d = Ok t -> Binary64.fdiv t agents = Ok u ->
  (1 <=? u)%float = true ->
  (1 - 0.99 =? 0)%float = false /\
  Binary64.queue_time INTERVAL agents calls_per_hour aht
  = try_calc (
      qtime <- Binary64.fdiv 1 (agents * d * (1 - 0.99)) ;;
      Binary64.secs qtime Binary64.default_interval) /\
  (forall sla c,
     (sla <? 0)%float = false ->
     Binary64.erlang_c agents t = Ok c -> (c <? 1 - sla)%float = false ->
     Binary64.service_time INTERVAL agents sla calls_per_hour aht
     = try_calc (
         q <- Binary64.fdiv 1 (agents * d * (1 - 0.99)) ;;
         let qtime := (q * INTERVAL)%float in
         w <- Binary64.fdiv (1 - sla) c ;;
         let stime := (qtime * (1 - w))%float in
         let adjust := if (stime <? 0)%float then 1%float else 0%float in
         Binary64.py_int (stime + adjust))) /\
  (forall (interval agents' sla' calls' : R) (aht' z : Z),
     0 < interval ->
     (queue_time interval agents' calls' aht' = Ok z -> (0 <= z)%Z) /\
     (service_time interval agents' sla' calls' aht' = Ok z -> (0 <= z)%Z)).
Proof.
  intros Hag Hc Haht Ea Ed Et Eu Hu.
  split; [vm_compute; reflexivity |]. split; [| split].
  - unfold Binary64.queue_time. rewrite Hag, Hc, aht_guard by assumption.
    cbn [orb]. rewrite Ea. cbn [bind]. rewrite Ed. cbn [bind].
    rewrite Et. cbn [bind]. rewrite Eu. cbn [bind]. cbv zeta. rewrite Hu.
    reflexivity.
  - intros sla c Hsla Ec Hreach.
    unfold Binary64.service_time. rewrite Hag, Hsla, Hc, aht_guard by assumption.
    cbn [orb]. cbv zeta. rewrite Ea. cbn [bind]. rewrite Ed. cbn [bind].
    rewrite Et. cbn [bind]. rewrite Ec. cbn [bind]. rewrite Hreach.
    rewrite Eu. cbn [bind]. rewrite Hu. reflexivity.
  - intros. apply queue_metrics_nonneg. assumption.
Qed.

Lemma utilisation_cap_witness :
  Binary64.queue_time 3600 10 300 180 = Ok 300%Z /\
  Binary64.service_time 3600 10 0.8 300 180 = Ok 1439%Z.
Proof.
  destruct (utilisation_cap 3600 10 300 180 180 20 15 1.5
              ltac:(reflexivity) ltac:(reflexivity) ltac:(lia)
              ltac:(vm_compute; reflexivity) ltac:(vm_compute; reflexivity)
              ltac:(vm_compute; reflexivity) ltac:(vm_compute; reflexivity)
              ltac:(reflexivity)) as (_ & Hq & Hs & _).
  split.
  - rewrite Hq. vm_compute. reflexivity.
  - rewrite (Hs 0.8%float 1%float); vm_compute; reflexivity.
Defined.

(** C9.  The cap misses the boundary it is written for.  With
    [agents = 15], 2000 calls an hour and a handle time of 27 s the
    intensity is 15 erlangs and [intensity / agents] is exactly 1; with
    0.99 in its place the queue time is 30 s.  The code computes the
    quotient [0.9999999999999999], finds it below 1, substitutes nothing,
    divides by [15 * death_rate * (1 - 0.9999999999999999)] and returns a
    queue time of 2702159776422297 s. *)
Theorem utilisation_cap_rounding :
  (2000 * 27 = 3600 * 15)%Z /\
  (d <- Binary64.fdiv 3600 27 ;;
   t <- Binary64.fdiv 2000 d ;;
   Binary64.fdiv t 15) = Ok 0.9999999999999999%float /\
  try_calc (d <- Binary64.fdiv 3600 27 ;;
            qtime <- Binary64.fdiv 1 (15 * d * (1 - 0.99)) ;;
            Binary64.secs qtime Binary64.default_interval) = Ok 30%Z /\
  Binary64.queue_time 3600 15 2000 27 = Ok 2702159776422297%Z.
Proof. vm_compute. repeat split. Qed.

(** The cap does not keep the whole divisor from zero either: with the
    smallest positive [agents = 5e-324], one call and a handle time of
    [10^6] s the utilisation is capped, and the product
    [agents * death_rate * (1 - 0.99)] underflows to zero. *)
Lemma utilisation_cap_underflow :
  (0 <? 5e-324)%float = true /\
  (1 <=? 1 / (3600 / 1000000) / 5e-324)%float = true /\
  Binary64.queue_time 3600 5e-324 1 1000000
  = Raise (CalculationError (Some ZeroDivisionError)).
Proof. vm_compute. repeat split. Qed.

(** X18.  At or beyond full load, as the code computes it, and with a
    queueing probability of 1.0, [queue_size] is 99 whatever the
    numbers: [int(0.99 * 1.0 / (1 - 0.99) + 0.5)]. *)
Theorem queue_size_levels (INTERVAL agents calls_per_hour : float) (aht : Z)
    (a d t u : float) :
  (agents <? 0)%float = false -> (calls_per_hour <? 0)%float = false ->
  (0 < aht)%Z ->
  Binary64.of_Z aht = Ok a -> Binary64.fdiv INTERVAL a = Ok d ->
  Binary64.fdiv calls_per_hour d = Ok t -> Binary64.fdiv t agents = Ok u ->
  (1 <=? u)%float = true ->
  Binary64.erlang_c agents t = Ok 1%float ->
  Binary64.queue_size INTERVAL agents calls_per_hour aht = Ok 99%Z.
Proof.
  intros Hag Hc Haht Ea Ed Et Eu Hu Ec.
  unfold Binary64.queue_size. rewrite Hag, Hc, aht_guard by assumption.
  cbn [orb]. rewrite Ea. cbn [bind]. rewrite Ed. cbn [bind].
  rewrite Et. cbn [bind]. rewrite Eu. cbn [bind]. cbv zeta. rewrite Hu.
  rewrite Ec. cbn [bind]. vm_compute. reflexivity.
Qed.

Lemma queue_size_levels_witness :
  Binary64.queue_size 3600 10 300 180 = Ok 99%Z.
Proof.
  apply (queue_size_levels 3600 10 300 180 180 20 15 1.5);
    first [ lia | vm_compute; reflexivity ].
Defined.

(** * The ladders, sample by sample *)

(** What the opening lines leave behind: the two quotients, and a first
    count [N0 >= 1] with a utilisation [t / N0] below 1. *)
Lemma first_agents_facts (INTERVAL : R) (fuel : nat) (calls_per_hour : R)
    (aht : Z) (d t : R) (N0 : Z) (u : R) :
  first_agents INTERVAL fuel calls_per_hour aht = Ok (d, t, N0, u) ->
  fdiv INTERVAL (IZR aht) = Ok d /\ fdiv calls_per_hour d = Ok t /\
  (1 <= N0)%Z /\ t < IZR N0 /\ u = t / IZR N0.
Proof.
  unfold first_agents. intros H. cbv zeta in H.
  bind_inv H. bind_inv H. bind_inv H. bind_inv H. bind_inv H.
  destruct v3 as [n u']. ok_inv H.
  apply fdiv_inv in E2. destruct E2 as [_ E2].
  assert (Hn0 : (1 <= (if (py_int (v1 + 5 / 10) <? 1)%Z then 1
                       else py_int (v1 + 5 / 10)))%Z).
  { destruct (Z.ltb_spec (py_int (v1 + 5 / 10)) 1); lia. }
  apply raise_agents_exit in E3; [| exact Hn0 | exact E2].
  destruct E3 as (Hu & Ht & Hle & _).
  split; [assumption |]. split; [assumption |].
  split; [lia | split; assumption].
Qed.

(** With a queueing probability [c >= 0] the sample [1 - c * exp x] is
    at most 1: the clamps of the two ladders and of [sla_metric] agree. *)
Lemma sample_clamps (c x : R) :
  0 <= c ->
  let s := 1 - c * exp x in
  let s0 := if s <? 0 then 0 else s in
  s0 = min_max s 0 1 /\ (if s0 >? 1 then 1 else s0) = min_max s 0 1.
Proof.
  intros Hc s s0. pose proof (exp_pos x) as He.
  assert (Hs : s <= 1) by (unfold s; nra).
  unfold s0, min_max, py_max, py_min.
  rewrite (Rltb_false 1 s) by assumption.
  destruct (Rltb_spec s 0) as [Hneg | Hpos].
  - rewrite Rltb_false by lra. split; reflexivity.
  - rewrite (Rltb_false 1 s) by lra. split; reflexivity.
Qed.

(** [sla_metric] at a whole count [N >= 1], after its validation and its
    quotients. *)
Lemma sla_metric_sample (INTERVAL : R) (N st : Z) (calls_per_hour : R) (aht : Z)
    (d t : R) :
  fdiv INTERVAL (IZR aht) = Ok d -> fdiv calls_per_hour d = Ok t ->
  0 <= calls_per_hour -> (0 < aht)%Z -> (0 <= st)%Z -> (1 <= N)%Z ->
  sla_metric INTERVAL (IZR N) (IZR st) calls_per_hour aht
  = try_calc (
      c <- erlang_c (IZR N) t ;;
      x <- fdiv ((t - IZR N) * IZR st) (IZR aht) ;;
      Ok (min_max (1 - c * exp x) 0 1)).
Proof.
  intros Ed Et Hc Haht Hst HN. unfold sla_metric.
  assert (HNR : 1 <= IZR N) by (apply IZR_le; assumption).
  assert (HstR : 0 <= IZR st) by (apply IZR_le; assumption).
  rewrite (Rltb_false (IZR N) 0), (Rltb_false calls_per_hour 0), aht_guard,
    (Rltb_false (IZR st) 0) by (assumption || lra).
  cbn [orb]. rewrite Ed. cbn [bind]. rewrite Et. cbn [bind].
  rewrite fdiv_ok by lra. cbn [bind]. reflexivity.
Qed.

(** One round of the ladder of [fractional_agents] above the traffic:
    the sample is the value of [sla_metric] at that count, and the
    ladder stops there or goes on with it. *)
Lemma fractional_ladder_step (INTERVAL MAX_ACCURACY : R) (n : nat) (target : R)
    (st aht : Z) (calls_per_hour d t : R) (N : Z) (slq last : R)
    (r : Z * R * R) :
  fdiv INTERVAL (IZR aht) = Ok d -> fdiv calls_per_hour d = Ok t ->
  0 <= calls_per_hour -> (0 < aht)%Z -> (0 <= st)%Z -> (1 <= N)%Z -> t < IZR N ->
  fractional_ladder MAX_ACCURACY (S n) target st aht t N slq last = Ok r ->
  exists s,
    sla_metric INTERVAL (IZR N) (IZR st) calls_per_hour aht = Ok s /\
    (((target <= s \/ 1 - MAX_ACCURACY < s) /\ r = (N, s, slq)) \/
     ((s < target /\ s <= 1 - MAX_ACCURACY) /\
      fractional_ladder MAX_ACCURACY n target st aht t (N + 1) s slq = Ok r)).
Proof.
  intros Ed Et Hc Haht Hst HN Ht H.
  assert (HNR : 1 <= IZR N) by (apply IZR_le; assumption).
  cbn [fractional_ladder] in H. cbv zeta in H.
  rewrite fdiv_ok in H by lra. cbn [bind] in H.
  rewrite Rltb_true in H by (apply div_lt_iff; lra).
  bind_inv H. rename v into c. bind_inv H. rename v into x.
  pose proof (erlang_c_range _ _ _ E) as Hcr.
  destruct (sample_clamps c x ltac:(lra)) as [_ Hcl]. cbv zeta in Hcl.
  rewrite Hcl in H.
  rewrite (sla_metric_sample INTERVAL N st calls_per_hour aht d t) by assumption.
  rewrite E. cbn [bind]. rewrite E0. cbn [bind try_calc].
  set (s := min_max (1 - c * exp x) 0 1) in *.
  exists s. split; [reflexivity |].
  destruct (Rleb_spec target s) as [Hge | Hlt]; cbn [orb] in H.
  - left. ok_inv H. split; [left; assumption | reflexivity].
  - destruct (Rltb_spec (1 - MAX_ACCURACY) s) as [Hacc | Hacc].
    + left. ok_inv H. split; [right; assumption | reflexivity].
    + right. split; [lra | exact H].
Qed.

(** The whole ladder of [fractional_agents], read on [sla_metric]. *)
Lemma fractional_ladder_samples (INTERVAL MAX_ACCURACY : R) (n : nat) (target : R)
    (st aht : Z) (calls_per_hour d t : R) (N : Z) (slq last : R)
    (N' : Z) (s' l' : R) :
  fdiv INTERVAL (IZR aht) = Ok d -> fdiv calls_per_hour d = Ok t ->
  0 <= calls_per_hour -> (0 < aht)%Z -> (0 <= st)%Z -> (1 <= N)%Z -> t < IZR N ->
  slq <= target ->
  fractional_ladder MAX_ACCURACY n target st aht t N slq last = Ok (N', s', l') ->
  (N <= N' <= N + Z.of_nat n)%Z /\
  ((N' < N + Z.of_nat n)%Z ->
     sla_metric INTERVAL (IZR N') (IZR st) calls_per_hour aht = Ok s' /\
     (target <= s' \/ 1 - MAX_ACCURACY < s') /\
     ((N' = N /\ l' = slq) \/
      ((N < N')%Z /\
       sla_metric INTERVAL (IZR (N' - 1)) (IZR st) calls_per_hour aht = Ok l' /\
       l' < target))) /\
  (N' = (N + Z.of_nat n)%Z -> s' <= target).
Proof.
  intros Ed Et Hc Haht Hst. revert N slq last.
  induction n as [| n IH]; intros N slq last HN Ht Hslq H.
  - cbn [fractional_ladder] in H. ok_inv H.
    split; [lia |]. split; [intros; lia | intros _; assumption].
  - destruct (fractional_ladder_step INTERVAL _ _ _ _ _ _ _ _ _ _ _ _
                Ed Et Hc Haht Hst HN Ht H) as (s & Es & [[Hstop Er] | [Hgo Hnext]]).
    + injection Er as <- <- <-.
      split; [lia |]. split; [| intros; lia].
      intros _. split; [exact Es |]. split; [exact Hstop |].
      left. split; reflexivity.
    + apply IH in Hnext; [| lia | rewrite plus_IZR; lra | lra].
      destruct Hnext as (Hr & Hbreak & Hend).
      split; [lia |]. split.
      * intros Hlt. destruct (Hbreak ltac:(lia)) as (Es' & Hstop & Hprev).
        split; [exact Es' |]. split; [exact Hstop |].
        right. destruct Hprev as [[-> ->] | (Hlt' & El & Hl)].
        -- split; [lia |]. replace (N + 1 - 1)%Z with N by lia.
           split; [exact Es | lra].
        -- split; [lia |]. split; [exact El | exact Hl].
      * intros E. apply Hend. lia.
Qed.

(** Every count the ladder passed had a sample below the target. *)
Lemma fractional_ladder_below (INTERVAL MAX_ACCURACY : R) (n : nat) (target : R)
    (st aht : Z) (calls_per_hour d t : R) (N : Z) (slq last : R)
    (N' : Z) (s' l' : R) :
  fdiv INTERVAL (IZR aht) = Ok d -> fdiv calls_per_hour d = Ok t ->
  0 <= calls_per_hour -> (0 < aht)%Z -> (0 <= st)%Z -> (1 <= N)%Z -> t < IZR N ->
  fractional_ladder MAX_ACCURACY n target st aht t N slq last = Ok (N', s', l') ->
  forall m, (N <= m < N')%Z ->
    exists s, sla_metric INTERVAL (IZR m) (IZR st) calls_per_hour aht = Ok s /\
              s < target /\ s <= 1 - MAX_ACCURACY.
Proof.
  intros Ed Et Hc Haht Hst. revert N slq last.
  induction n as [| n IH]; intros N slq last HN Ht H m Hm.
  - cbn [fractional_ladder] in H. ok_inv H. lia.
  - destruct (fractional_ladder_step INTERVAL _ _ _ _ _ _ _ _ _ _ _ _
                Ed Et Hc Haht Hst HN Ht H) as (s & Es & [[Hstop Er] | [Hgo Hnext]]).
    + injection Er as <- <- <-. lia.
    + destruct (Z.eq_dec m N) as [-> | Hne].
      * exists s. split; [exact Es | exact Hgo].
      * eapply IH; [| | exact Hnext |]; [lia | rewrite plus_IZR; lra | lia].
Qed.

(** Above the traffic the ladder of [fractional_agents] returns. *)
Lemma fractional_ladder_returns (MAX_ACCURACY : R) (n : nat) (target : R)
    (st aht : Z) (t : R) (N : Z) (slq last : R) :
  (1 <= N)%Z -> 0 <= t < IZR N -> (0 <= st)%Z -> (0 < aht)%Z ->
  exists r, fractional_ladder MAX_ACCURACY n target st aht t N slq last = Ok r.
Proof.
  intros HN Ht Hst Haht. revert N slq last HN Ht.
  induction n as [| n IH]; intros N slq last HN Ht.
  - eexists. reflexivity.
  - rewrite fractional_ladder_round by assumption. cbv zeta.
    destruct (_ || _); [eexists; reflexivity |].
    apply IH; [lia | rewrite plus_IZR; lra].
Qed.

(** In exact arithmetic the opening lines return on every valid input,
    with one unit of fuel for the utilisation loop. *)
Lemma first_agents_returns (INTERVAL : R) (fuel : nat) (calls_per_hour : R)
    (aht : Z) :
  0 < INTERVAL -> 0 <= calls_per_hour -> (0 < aht)%Z -> (1 <= fuel)%nat ->
  exists d t N0 u,
    first_agents INTERVAL fuel calls_per_hour aht = Ok (d, t, N0, u) /\ 0 <= t.
Proof.
  intros HI Hc Haht Hf. unfold first_agents.
  pose proof (death_rate_pos INTERVAL aht HI Haht) as Hd.
  assert (HahtR : 0 < IZR aht) by (apply IZR_lt; assumption).
  rewrite (fdiv_ok INTERVAL) by lra. cbn [bind].
  rewrite fdiv_ok by lra. cbn [bind]. rewrite fdiv_ok by lra. cbn [bind].
  assert (Hsame : calls_per_hour * IZR aht / INTERVAL
                  = calls_per_hour / (INTERVAL / IZR aht)) by (field; lra).
  rewrite Hsame. set (t := calls_per_hour / (INTERVAL / IZR aht)).
  assert (Ht : 0 <= t) by (apply div_nonneg; lra).
  set (n0 := if (py_int (t + 5 / 10) <? 1)%Z then 1%Z else py_int (t + 5 / 10)).
  destruct (py_int_floor (t + 5 / 10) ltac:(lra)) as [_ Hfl].
  assert (Hn0 : (1 <= n0)%Z /\ t < IZR n0 + 1).
  { unfold n0. destruct (Z.ltb_spec (py_int (t + 5 / 10)) 1) as [Hlt | Hge].
    - split; [lia |]. apply IZR_lt in Hlt. lra.
    - split; [lia | lra]. }
  destruct Hn0 as [Hn1 Hn2].
  assert (0 < IZR n0) by (apply IZR_lt; lia).
  rewrite fdiv_ok by lra. cbn [bind].
  destruct (raise_agents_one_round fuel t n0 (t / IZR n0) Hf Hn1 Hn2)
    as (n & u & -> & _).
  cbn [bind]. exists (INTERVAL / IZR aht), t, n, u. split; [reflexivity | exact Ht].
Qed.

(** Once the opening lines have produced their first count, nothing in
    the ladders or in the interpolation fails: on a valid input both
    staffing functions return. *)
Lemma staffing_returns (INTERVAL MAX_ACCURACY : R) (fuel : nat) (sla : R)
    (service_time : Z) (calls_per_hour : R) (aht : Z) (d t : R) (N0 : Z) (u : R) :
  0 < INTERVAL -> 0 <= sla -> 0 <= calls_per_hour -> (0 < aht)%Z ->
  (0 <= service_time)%Z ->
  first_agents INTERVAL fuel calls_per_hour aht = Ok (d, t, N0, u) ->
  exists x y,
    agents_required INTERVAL MAX_ACCURACY fuel sla service_time calls_per_hour aht
      = Ok x /\
    fractional_agents INTERVAL MAX_ACCURACY fuel sla service_time calls_per_hour aht
      = Ok y.
Proof.
  intros HI Hsla Hc Haht Hst E.
  destruct (first_agents_facts _ _ _ _ _ _ _ _ E) as (Ed & Et & HN0 & HtN & _).
  assert (Ht : 0 <= t).
  { apply fdiv_inv in Ed. destruct Ed as [_ ->].
    apply fdiv_inv in Et. destruct Et as [_ ->].
    pose proof (death_rate_pos INTERVAL aht HI Haht). apply div_nonneg; lra. }
  assert (Hmin : 0 <= py_min sla 1 <= 1).
  { destruct (py_min_cases sla 1) as [[? ->] | [? ->]]; lra. }
  destruct (fractional_ladder_returns MAX_ACCURACY (Z.to_nat (N0 * 100))
              (py_min sla 1) service_time aht t N0 0 0 HN0 ltac:(lra) Hst Haht)
    as ([[N s] l] & El).
  assert (Hl : l <= py_min sla 1).
  { eapply fractional_ladder_last; [| | exact El]; lra. }
  destruct (interpolate_brackets (py_min sla 1) N s l Hl) as (y & Ey & _).
  exists N, y. split.
  - unfold agents_required.
    rewrite (Rltb_false sla 0), (Rltb_false calls_per_hour 0), aht_guard
      by assumption.
    cbn [orb]. cbv zeta. rewrite E. cbn [bind].
    rewrite (ladders_agree MAX_ACCURACY _ _ _ _ _ _ 0 0) by lra.
    rewrite El. reflexivity.
  - unfold fractional_agents.
    rewrite (Rltb_false sla 0), (Rltb_false calls_per_hour 0), aht_guard
      by assumption.
    assert (Hstb : (service_time <? 0)%Z = false) by (apply Z.ltb_ge; assumption).
    rewrite Hstb. cbn [orb]. cbv zeta. rewrite E. cbn [bind].
    rewrite El. cbn [bind]. rewrite Ey. reflexivity.
Qed.

(** C5, as the code has it.  On a valid input ([sla >= 0],
    [calls_per_hour >= 0], [aht > 0], [service_time >= 0], with a
    positive [INTERVAL]) [agents_required] and [fractional_agents] both
    return as soon as their common opening lines have produced the first
    count [N0] (in exact arithmetic they always do, see
    [first_agents_returns]).  Whenever [agents_required] returns [x] and
    [fractional_agents] returns [y] on the same input, [y] lies in
    [[x - 1, x]].  The two ladders stop at the same count [N = x],
    between the count [N0] the utilisation loop ends on and the cap
    [N0 + 100 * N0].  Below the
    cap, with [sl(m) = sla_metric(m, ...)] and the target [min(sla, 1)]:
    [sl(N)] meets the target or exceeds [1 - MAX_ACCURACY]; when it
    strictly exceeds the target, [y] is the interpolation
    [(target - l) / (sl(N) - l) + (N - 1)], where [l = sl(N - 1)], a
    sample below the target, if [N > N0], and [l = 0.0] if the ladder
    stopped in its first round; when it does not, [y = N].  At the cap
    [y = N]. *)
Theorem fractional_agents_brackets (INTERVAL MAX_ACCURACY : R) (fuel : nat)
    (sla : R) (service_time : Z) (calls_per_hour : R) (aht : Z) :
  (forall d t N0 u,
   0 < INTERVAL -> 0 <= sla -> 0 <= calls_per_hour -> (0 < aht)%Z ->
   (0 <= service_time)%Z ->
   first_agents INTERVAL fuel calls_per_hour aht = Ok (d, t, N0, u) ->
   exists x y,
     agents_required INTERVAL MAX_ACCURACY fuel sla service_time calls_per_hour aht
       = Ok x /\
     fractional_agents INTERVAL MAX_ACCURACY fuel sla service_time calls_per_hour aht
       = Ok y) /\
  (forall (x : Z) (y : R),
   agents_required INTERVAL MAX_ACCURACY fuel sla service_time calls_per_hour aht
     = Ok x ->
   fractional_agents INTERVAL MAX_ACCURACY fuel sla service_time calls_per_hour aht
     = Ok y ->
   let target := py_min sla 1 in
   let sl m := sla_metric INTERVAL (IZR m) (IZR service_time) calls_per_hour aht in
   IZR x - 1 <= y <= IZR x /\
   exists d t N0 u,
     first_agents INTERVAL fuel calls_per_hour aht = Ok (d, t, N0, u) /\
     (N0 <= x <= N0 + N0 * 100)%Z /\
     ((x < N0 + N0 * 100)%Z ->
        exists s l,
          sl x = Ok s /\
          (target <= s \/ 1 - MAX_ACCURACY < s) /\
          ((x = N0 /\ l = 0) \/ ((N0 < x)%Z /\ sl (x - 1)%Z = Ok l /\ l < target)) /\
          (target < s -> y = (target - l) / (s - l) + IZR (x - 1)) /\
          (s <= target -> y = IZR x)) /\
     (x = (N0 + N0 * 100)%Z -> y = IZR x)).
Proof.
  split; [intros d t N0 u; apply staffing_returns |].
  intros x y Hx Hy target sl.
  unfold agents_required in Hx. unfold fractional_agents in Hy.
  destruct (Rltb_spec sla 0) as [| Hsla]; [discriminate |].
  destruct (Rltb_spec calls_per_hour 0) as [| Hc]; [discriminate |].
  destruct (Z.leb_spec aht 0) as [| Haht]; [discriminate |].
  destruct (Z.ltb_spec service_time 0) as [| Hst]; [discriminate |].
  cbn [orb] in Hx, Hy.
  apply try_calc_ok in Hx. apply try_calc_ok in Hy. cbv zeta in Hx, Hy.
  bind_inv Hy. destruct v as [[[d t] N0] u]. bind_inv Hy. destruct v as [[N s] l].
  rewrite E in Hx. cbn [bind] in Hx.
  assert (Hmin : 0 <= target <= 1).
  { unfold target. destruct (py_min_cases sla 1) as [[? ->] | [? ->]]; lra. }
  fold target in Hx, E0, Hy.
  rewrite (ladders_agree MAX_ACCURACY _ _ _ _ _ _ 0 0) in Hx by lra.
  rewrite E0 in Hx. cbn [bind fst] in Hx. ok_inv Hx.
  assert (Hl : l <= target).
  { eapply fractional_ladder_last; [| | exact E0]; lra. }
  destruct (interpolate_brackets target x s l Hl) as (y' & Ey & Hr & Hgt & Hle).
  rewrite Ey in Hy. ok_inv Hy.
  split; [exact Hr |].
  destruct (first_agents_facts _ _ _ _ _ _ _ _ E) as (Ed & Et & HN0 & HtN & _).
  assert (Hc0 : 0 <= calls_per_hour) by lra.
  assert (H0t : 0 <= target) by lra.
  destruct (fractional_ladder_samples INTERVAL _ _ _ _ _ _ _ _ _ _ _ _ _ _
              Ed Et Hc0 Haht Hst HN0 HtN H0t E0)
    as (Hrange & Hbreak & Hend).
  rewrite Z2Nat.id in Hrange, Hbreak, Hend by lia.
  exists d, t, N0, u. split; [exact E |]. split; [exact Hrange |]. split.
  - intros Hlt. destruct (Hbreak Hlt) as (Es & Hstop & Hprev).
    exists s, l. split; [exact Es |]. split; [exact Hstop |].
    split; [exact Hprev |]. split; [intros; apply Hgt; lra | exact Hle].
  - intros Hcap. apply Hle. apply Hend. exact Hcap.
Qed.

Lemma fractional_agents_brackets_witness :
  (exists x y,
     agents_required 3600 (1 / 100000) 1 (8 / 10) 20 300 180 = Ok x /\
     fractional_agents 3600 (1 / 100000) 1 (8 / 10) 20 300 180 = Ok y) /\
  exists y,
    fractional_agents 3600 (1 / 100000) 1 (8 / 10) 20 300 180 = Ok y /\
    18 <= y <= 19 /\
    exists s l,
      sla_metric 3600 (IZR 19) (IZR 20) 300 180 = Ok s /\
      sla_metric 3600 (IZR (19 - 1)) (IZR 20) 300 180 = Ok l /\
      y = (py_min (8 / 10) 1 - l) / (s - l) + IZR (19 - 1).
Proof.
  destruct (fractional_agents_brackets 3600 (1 / 100000) 1 (8 / 10) 20 300 180)
    as [Hret Hbr].
  split; [apply (Hret _ _ _ _ ltac:(lra) ltac:(lra) ltac:(lra) ltac:(lia) ltac:(lia)
                   (case_first_agents 1 ltac:(lia))) |].
  pose proof (Hbr 19%Z _ (case_agents_required (1 / 100000) 1 ltac:(lra) ltac:(lia))
                case_fractional_agents) as [Hb (d & t & N0 & u & E & _ & Hbreak & _)].
  cbv zeta in Hb, Hbreak.
  rewrite (case_first_agents 1 ltac:(lia)) in E. injection E as <- <- <- <-.
  destruct (Hbreak ltac:(lia)) as (s & l & Es & _ & Hprev & Hgt & _).
  destruct Hprev as [[Hx _] | (_ & El & _)]; [lia |].
  eexists. split; [apply case_fractional_agents |].
  split; [lra |]. exists s, l. split; [exact Es |]. split; [exact El |].
  apply Hgt.
  rewrite case_sla_metric_stable in Es by lia. injection Es as <-.
  pose proof case_sample_19. unfold py_min. rewrite Rltb_false by lra. lra.
Defined.

(** ** [agents_required]: the first sufficient staffing *)

(** X11.  [agents_required] returns the first sufficient staffing, as
    [sla_metric] judges it.  With [N0] the count its utilisation loop
    ends on (the fourth value of its opening lines, at least 1) and a
    service time [>= 0], the result [n] lies in [[N0, N0 + 100 * N0]];
    at every count from [N0] up to [n - 1], [sla_metric] returns a level
    below the target [min(sla, 1)] and not above [1 - MAX_ACCURACY]; and
    unless the cap [N0 + 100 * N0] was reached, [sla_metric] at [n]
    returns a level that meets the target or exceeds
    [1 - MAX_ACCURACY]. *)
Theorem agents_required_first_sufficient (INTERVAL MAX_ACCURACY : R) (fuel : nat)
    (sla : R) (service_time : Z) (calls_per_hour : R) (aht n : Z) :
  (0 <= service_time)%Z ->
  agents_required INTERVAL MAX_ACCURACY fuel sla service_time calls_per_hour aht
    = Ok n ->
  let target := py_min sla 1 in
  let sl m := sla_metric INTERVAL (IZR m) (IZR service_time) calls_per_hour aht in
  exists d t N0 u,
    first_agents INTERVAL fuel calls_per_hour aht = Ok (d, t, N0, u) /\
    (1 <= N0)%Z /\ (N0 <= n <= N0 + N0 * 100)%Z /\
    (forall m, (N0 <= m < n)%Z ->
       exists s, sl m = Ok s /\ s < target /\ s <= 1 - MAX_ACCURACY) /\
    ((n < N0 + N0 * 100)%Z ->
       exists s, sl n = Ok s /\ (target <= s \/ 1 - MAX_ACCURACY < s)).
Proof.
  intros Hst Hn target sl. unfold agents_required in Hn.
  destruct (Rltb_spec sla 0) as [| Hsla]; [discriminate |].
  destruct (Rltb_spec calls_per_hour 0) as [| Hc]; [discriminate |].
  destruct (Z.leb_spec aht 0) as [| Haht]; [discriminate |].
  cbn [orb] in Hn. apply try_calc_ok in Hn. cbv zeta in Hn.
  bind_inv Hn. destruct v as [[[d t] N0] u].
  assert (Hmin : 0 <= target <= 1).
  { unfold target. destruct (py_min_cases sla 1) as [[? ->] | [? ->]]; lra. }
  fold target in Hn.
  rewrite (ladders_agree MAX_ACCURACY _ _ _ _ _ _ 0 0) in Hn by lra.
  bind_inv Hn. destruct v as [[N s] l]. cbn [fst] in Hn. ok_inv Hn.
  destruct (first_agents_facts _ _ _ _ _ _ _ _ E) as (Ed & Et & HN0 & HtN & _).
  assert (Hc0 : 0 <= calls_per_hour) by lra.
  assert (H0t : 0 <= target) by lra.
  destruct (fractional_ladder_samples INTERVAL _ _ _ _ _ _ _ _ _ _ _ _ _ _
              Ed Et Hc0 Haht Hst HN0 HtN H0t E0)
    as (Hrange & Hbreak & _).
  pose proof (fractional_ladder_below INTERVAL _ _ _ _ _ _ _ _ _ _ _ _ _ _
                Ed Et Hc0 Haht Hst HN0 HtN E0) as Hbelow.
  rewrite Z2Nat.id in Hrange, Hbreak by lia.
  exists d, t, N0, u. split; [exact E |]. split; [exact HN0 |].
  split; [exact Hrange |]. split; [exact Hbelow |].
  intros Hlt. destruct (Hbreak Hlt) as (Es & Hstop & _).
  exists s. split; [exact Es | exact Hstop].
Qed.

Lemma agents_required_first_sufficient_witness :
  (16 <= 19 <= 16 + 16 * 100)%Z /\
  (forall m, (16 <= m < 19)%Z ->
     exists s, sla_metric 3600 (IZR m) (IZR 20) 300 180 = Ok s /\
               s < py_min (8 / 10) 1 /\ s <= 1 - 1 / 100000) /\
  exists s, sla_metric 3600 (IZR 19) (IZR 20) 300 180 = Ok s /\
            (py_min (8 / 10) 1 <= s \/ 1 - 1 / 100000 < s).
Proof.
  destruct (agents_required_first_sufficient 3600 (1 / 100000) 1 (8 / 10) 20 300 180 19
              ltac:(lia) (case_agents_required (1 / 100000) 1 ltac:(lra) ltac:(lia)))
    as (d & t & N0 & u & E & _ & Hr & Hbelow & Hstop).
  rewrite (case_first_agents 1 ltac:(lia)) in E. injection E as <- <- <- <-.
  split; [exact Hr |]. split; [exact Hbelow |]. apply Hstop. lia.
Defined.

(** ** [agents_asa]: the first count within the target *)

Lemma asa_ladder_samples (INTERVAL : R) (n : nat) (asa_target d t u : R) (N r : Z) :
  asa_ladder INTERVAL n asa_target d t u N = Ok r ->
  (N <= r <= N + Z.of_nat n)%Z /\
  (forall m, (N <= m < r)%Z ->
     exists c w, erlang_c (IZR m) t = Ok c /\
                 fdiv c (IZR m * d * (1 - u)) = Ok w /\ asa_target < w * INTERVAL) /\
  ((r < N + Z.of_nat n)%Z ->
     exists c w, erlang_c (IZR r) t = Ok c /\
                 fdiv c (IZR r * d * (1 - u)) = Ok w /\ w * INTERVAL <= asa_target).
Proof.
  revert N. induction n as [| n IH]; intros N H; cbn [asa_ladder] in H.
  - ok_inv H. split; [lia |]. split; intros; lia.
  - bind_inv H. rename v into c. bind_inv H. rename v into w.
    destruct (Rleb_spec (w * INTERVAL) asa_target) as [Hle | Hgt].
    + ok_inv H. split; [lia |]. split; [intros; lia |].
      intros _. exists c, w. split; [assumption |]. split; [assumption | lra].
    + apply IH in H. destruct H as (Hr & Hbelow & Hstop).
      split; [lia |]. split.
      * intros m Hm. destruct (Z.eq_dec m N) as [-> | Hne].
        -- exists c, w. split; [assumption |]. split; [assumption | lra].
        -- apply Hbelow. lia.
      * intros Hr'. apply Hstop. lia.
Qed.

(** X13.  [agents_asa] climbs from the count [N0] its utilisation loop
    ends on and judges every count [m] by the wait
    [erlang_c(m, t) / (m * death_rate * (1 - u))] scaled by [INTERVAL],
    where [u = t / N0] stays the utilisation of the first count.  The
    result [n] lies in [[N0, N0 + 100 * N0]]; at every count from [N0]
    up to [n - 1] the wait, so computed, is above the target; and unless
    the cap [N0 + 100 * N0] was reached, the wait at [n] is within
    it. *)
Theorem agents_asa_first_sufficient (INTERVAL : R) (fuel : nat)
    (asa_target calls_per_hour : R) (aht n : Z) :
  agents_asa INTERVAL fuel asa_target calls_per_hour aht = Ok n ->
  exists d t N0 u,
    first_agents INTERVAL fuel calls_per_hour aht = Ok (d, t, N0, u) /\
    (1 <= N0)%Z /\ u = t / IZR N0 /\
    (N0 <= n <= N0 + N0 * 100)%Z /\
    (forall m, (N0 <= m < n)%Z ->
       exists c w, erlang_c (IZR m) t = Ok c /\
                   fdiv c (IZR m * d * (1 - u)) = Ok w /\
                   asa_target < w * INTERVAL) /\
    ((n < N0 + N0 * 100)%Z ->
       exists c w, erlang_c (IZR n) t = Ok c /\
                   fdiv c (IZR n * d * (1 - u)) = Ok w /\
                   w * INTERVAL <= asa_target).
Proof.
  unfold agents_asa. destruct (_ || _); [discriminate |].
  intros H. apply try_calc_ok in H. cbv zeta in H.
  bind_inv H. destruct v as [[[d t] N0] u].
  destruct (first_agents_facts _ _ _ _ _ _ _ _ E) as (_ & _ & HN0 & _ & Eu).
  apply asa_ladder_samples in H. destruct H as (Hr & Hbelow & Hstop).
  rewrite Z2Nat.id in Hr, Hstop by lia.
  exists d, t, N0, u. repeat split; try assumption; lia.
Qed.

Lemma agents_asa_first_sufficient_witness :
  (16 <= 21 <= 16 + 16 * 100)%Z /\
  (forall m, (16 <= m < 21)%Z ->
     exists c w, erlang_c (IZR m) 15 = Ok c /\
                 fdiv c (IZR m * 20 * (1 - 15 / 16)) = Ok w /\ 20 < w * 3600) /\
  exists c w, erlang_c (IZR 21) 15 = Ok c /\
              fdiv c (IZR 21 * 20 * (1 - 15 / 16)) = Ok w /\ w * 3600 <= 20.
Proof.
  destruct (agents_asa_first_sufficient 3600 1 20 300 180 21 case_agents_asa)
    as (d & t & N0 & u & E & _ & _ & Hr & Hbelow & Hstop).
  rewrite (case_first_agents 1 ltac:(lia)) in E. injection E as <- <- <- <-.
  split; [exact Hr |]. split; [exact Hbelow |]. apply Hstop. lia.
Defined.
